(** * ErrorWatch: stack-trace normalisation and the report protocol

    A shallow embedding of [src/config.js], [src/utils.js],
    [src/computeStackTrace.js], [src/report.js], [src/resourceError.js]
    and [wrap], and the properties of the trace computation, of
    augmentation, of the context window, of the pending-report protocol
    and of the hooks on [window].

    Conventions of the embedding:
    - JavaScript strings are sequences of 8-bit code units ([string]):
      code units above 255 are outside the model, among them the line
      terminators U+2028 and U+2029, which [.] and [$] treat as they
      treat LF and CR;
    - JavaScript numbers are integers ([Z]) plus [NaN]: fractions,
      infinities and the rounding of integers beyond 2^53 are outside the
      model, and the strings that convert to a number are the optionally
      signed runs of decimal digits, with white space around them, not
      ['0x6'], ['1e1'], ['6.0'] or ['Infinity'];
    - property values of error objects and frames range over primitives;
      an object is identified by a reference number, the only thing [===]
      looks at;
    - regular expressions are kept as the pattern text of the source and
      parsed; matching is a backtracking search with capture groups;
    - module-level variables ([sourceCache] on one side, [handlers],
      [lastException], [lastExceptionStack] on the other) live in explicit
      states, and every function that touches them is written in a
      state-and-exception monad; an object that is mutated in place (the
      trace handed to augmentation) is carried in the state as well;
    - the browser (window, document, XMLHttpRequest, the live caller
      chain, the timer queue) is an explicit environment; the
      configuration constants of [config.js] are a record, [Config.default]
      holding the exported values;
    - a subscriber is a function from the three arguments it receives to
      the exception it raises, if any; subscribers that call back into the
      module are outside the model;
    - the hooks on [window], the listener of [src/resourceError.js] and
      the functions that pass through them are first-order values that
      [===] tells apart; [wrap] is applied to the behaviour of the wrapped
      function;
    - [src/tryCatch.js] and [src/index.js] are not embedded, nor is the
      call that [window.onerror] makes to the handler it replaced. *)

From Stdlib Require Import ZArith Ascii String List Bool Lia Permutation.
From stdpp Require Import base option list strings gmap.

Local Open Scope string_scope.
Local Open Scope Z_scope.

(** ** JavaScript primitives *)

Module JS.

Inductive prim : Type :=
  | PUndef
  | PNull
  | PBool (b : bool)
  | PNum (n : Z)
  | PNaN
  | PStr (s : string).

(** [ToBoolean]. *)
Definition truthy (v : prim) : bool :=
  match v with
  | PUndef | PNull | PNaN => false
  | PBool b => b
  | PNum n => negb (n =? 0)
  | PStr s => negb (String.eqb s "")
  end.

(** [a === b] on primitives. *)
Definition strict_eq (a b : prim) : bool :=
  match a, b with
  | PUndef, PUndef => true
  | PNull, PNull => true
  | PBool x, PBool y => Bool.eqb x y
  | PNum x, PNum y => x =? y
  | PStr x, PStr y => String.eqb x y
  | _, _ => false
  end.

(** [a || b]. *)
Definition or_else (a b : prim) : prim := if truthy a then a else b.

Definition nl : string := String (ascii_of_nat 10) EmptyString.

Definition is_digit (c : ascii) : bool :=
  let n := nat_of_ascii c in ((48 <=? n) && (n <=? 57))%nat.

(** White space and line terminators within the 8-bit range. *)
Definition is_space (c : ascii) : bool :=
  let n := nat_of_ascii c in
  ((n =? 32) || ((9 <=? n) && (n <=? 13)) || (n =? 160))%nat.

(** LF and CR, the line terminators within the 8-bit range (U+2028 and
    U+2029 are beyond it). *)
Definition is_line_terminator (c : ascii) : bool :=
  let n := nat_of_ascii c in ((n =? 10) || (n =? 13))%nat.

Definition is_upper (c : ascii) : bool :=
  let n := nat_of_ascii c in ((65 <=? n) && (n <=? 90))%nat.

Definition is_lower (c : ascii) : bool :=
  let n := nat_of_ascii c in ((97 <=? n) && (n <=? 122))%nat.

Definition is_word (c : ascii) : bool :=
  is_digit c || is_upper c || is_lower c || (nat_of_ascii c =? 95)%nat.

(** Canonicalisation used by the [i] flag. *)
Definition upcase (c : ascii) : ascii :=
  if is_lower c then ascii_of_nat (nat_of_ascii c - 32) else c.

Fixpoint all_chars (p : ascii -> bool) (s : string) : bool :=
  match s with
  | EmptyString => true
  | String c s' => p c && all_chars p s'
  end.

Fixpoint digits_value (acc : Z) (s : string) : Z :=
  match s with
  | EmptyString => acc
  | String c s' => digits_value (10 * acc + Z.of_nat (nat_of_ascii c - 48)) s'
  end.

Fixpoint drop_while (p : ascii -> bool) (s : string) : string :=
  match s with
  | EmptyString => EmptyString
  | String c s' => if p c then drop_while p s' else s
  end.

Fixpoint rev_string (acc s : string) : string :=
  match s with
  | EmptyString => acc
  | String c s' => rev_string (String c acc) s'
  end.

Definition trim (s : string) : string :=
  rev_string "" (drop_while is_space (rev_string "" (drop_while is_space s))).

(** [ToNumber] on strings, for the decimal literals this program meets:
    optional white space around an optionally signed run of digits; the
    empty string is 0; anything else is NaN here.  JavaScript also
    converts hexadecimal, octal and binary literals, fractions, exponents
    and [Infinity], and rounds beyond 2^53: such strings are outside the
    model. *)
Definition string_to_number (s : string) : option Z :=
  match trim s with
  | EmptyString => Some 0
  | String "-" d =>
      if negb (String.eqb d "") && all_chars is_digit d
      then Some (- digits_value 0 d) else None
  | String "+" d =>
      if negb (String.eqb d "") && all_chars is_digit d
      then Some (digits_value 0 d) else None
  | d => if all_chars is_digit d then Some (digits_value 0 d) else None
  end.

(** [ToNumber]; [None] is NaN. *)
Definition to_number (v : prim) : option Z :=
  match v with
  | PUndef | PNaN => None
  | PNull => Some 0
  | PBool b => Some (if b then 1 else 0)
  | PNum n => Some n
  | PStr s => string_to_number s
  end.

Definition of_number (n : option Z) : prim :=
  match n with Some z => PNum z | None => PNaN end.

(** Unary plus: [+v]. *)
Definition unary_plus (v : prim) : prim := of_number (to_number v).

Fixpoint pos_digits (fuel : nat) (n : Z) (acc : string) : string :=
  match fuel with
  | O => acc
  | S fuel' =>
      let acc' := String (ascii_of_nat (48 + Z.to_nat (n mod 10))) acc in
      if n / 10 =? 0 then acc' else pos_digits fuel' (n / 10) acc'
  end.

Definition Z_to_string (n : Z) : string :=
  if n <? 0
  then String "-" (pos_digits (S (Z.to_nat (Z.log2 (- n)))) (- n) "")
  else pos_digits (S (Z.to_nat (Z.log2 n))) n "".

(** [ToString]. *)
Definition to_string (v : prim) : string :=
  match v with
  | PUndef => "undefined"
  | PNull => "null"
  | PBool true => "true"
  | PBool false => "false"
  | PNum n => Z_to_string n
  | PNaN => "NaN"
  | PStr s => s
  end.

(** [a - b]. *)
Definition sub (a b : prim) : prim :=
  match to_number a, to_number b with
  | Some x, Some y => PNum (x - y)
  | _, _ => PNaN
  end.

(** [a + b]: concatenation as soon as one side is a string. *)
Definition add (a b : prim) : prim :=
  match a, b with
  | PStr x, _ => PStr (x +:+ to_string b)
  | _, PStr y => PStr (to_string a +:+ y)
  | _, _ =>
      match to_number a, to_number b with
      | Some x, Some y => PNum (x + y)
      | _, _ => PNaN
      end
  end.

(** [Math.max(0, v)] and [Math.min(n, v)] for an integer first argument. *)
Definition max_with (n : Z) (v : prim) : option Z :=
  match to_number v with Some x => Some (Z.max n x) | None => None end.

Definition min_with (n : Z) (v : prim) : option Z :=
  match to_number v with Some x => Some (Z.min n x) | None => None end.

(** *** String methods *)

Fixpoint prefix_at (p s : string) : option string :=
  match p, s with
  | EmptyString, _ => Some s
  | String a p', String b s' => if Ascii.eqb a b then prefix_at p' s' else None
  | String _ _, EmptyString => None
  end.

(** [s.indexOf(p)] searched from the start; [None] is -1. *)
Fixpoint index_of_from (i : nat) (p s : string) : option nat :=
  match prefix_at p s with
  | Some _ => Some i
  | None =>
      match s with
      | EmptyString => None
      | String _ s' => index_of_from (S i) p s'
      end
  end.

Definition index_of (p s : string) : option nat := index_of_from 0 p s.

(** [s.split(sep)] for a one-character separator. *)
Fixpoint split_on (sep : ascii) (cur : string) (s : string) : list string :=
  match s with
  | EmptyString => [rev_string "" cur]
  | String c s' =>
      if Ascii.eqb c sep
      then rev_string "" cur :: split_on sep "" s'
      else split_on sep (String c cur) s'
  end.

Definition split_lines (s : string) : list string :=
  split_on (ascii_of_nat 10) "" s.

Definition split_commas (s : string) : list string :=
  split_on "," "" s.

(** [a.join(sep)] on an array of strings. *)
Fixpoint join (sep : string) (l : list string) : string :=
  match l with
  | [] => ""
  | [x] => x
  | x :: l' => x +:+ sep +:+ join sep l'
  end.

(** [s.substring(0, n)]. *)
Definition take (n : nat) (s : string) : string := String.substring 0 n s.

(** [s.replace(p, r)] with a string pattern: the first occurrence only. *)
Fixpoint replace_first (p r s : string) : string :=
  match prefix_at p s with
  | Some rest => r +:+ rest
  | None =>
      match s with
      | EmptyString => EmptyString
      | String c s' => String c (replace_first p r s')
      end
  end.

(** A text that holds no line terminator, and one that holds no line
    feed. *)
Definition one_line (s : string) : bool :=
  all_chars (fun c => negb (is_line_terminator c)) s.

Definition newline_free (s : string) : bool :=
  all_chars (fun c => negb (Ascii.eqb c (ascii_of_nat 10))) s.

End JS.

(** ** Regular expressions

  The program is driven by regular-expression literals and by
  [new RegExp(...)] on computed patterns.  Patterns are kept as text and
  parsed by [regexp]; matching is the backtracking search of the language
  definition (ordered alternatives, greedy and lazy quantifiers, capture
  groups reset on every iteration of an enclosing quantifier). *)

Module RegExp.
Import JS.

(** One member of a character class: a range of code units or one of
  the class escapes. *)
Inductive item : Type :=
  | IRange (lo hi : nat)
  | IDigit (positive : bool)
  | ISpace (positive : bool)
  | IWord (positive : bool).

Definition downcase (c : ascii) : ascii :=
  if is_upper c then ascii_of_nat (nat_of_ascii c + 32) else c.

Definition item_matches (i : item) (c : ascii) : bool :=
  match i with
  | IRange lo hi => let n := nat_of_ascii c in ((lo <=? n) && (n <=? hi))%nat
  | IDigit b => Bool.eqb (is_digit c) b
  | ISpace b => Bool.eqb (is_space c) b
  | IWord b => Bool.eqb (is_word c) b
  end.

(** A class [items], negated or not, read with or without the [i] flag:
    under the flag a character belongs to the class when one of its case
    variants does. *)
Definition class_matches (negated ci : bool) (items : list item) (c : ascii) : bool :=
  xorb negated
    (existsb (fun i =>
                item_matches i c
                || (ci && (item_matches i (upcase c) || item_matches i (downcase c))))
             items).

Inductive re : Type :=
  | Eps
  | Chr (negated ci : bool) (items : list item)
  | Seq (a b : re)
  | Alt (a b : re)
  | Rep (greedy : bool) (mn : nat) (mx : option nat) (a : re)
  | Grp (i : nat) (a : re)
  | Bol
  | Eol
  | Wb (positive : bool).

Record mst : Type := MSt {
  m_prev : option ascii;
  m_rest : string;
  m_pos : nat;
  m_caps : list (nat * option string)
}.

Fixpoint groups_of (r : re) : list nat :=
  match r with
  | Seq a b | Alt a b => (groups_of a ++ groups_of b)%list
  | Rep _ _ _ a => groups_of a
  | Grp i a => i :: groups_of a
  | _ => []
  end.

Definition clear_groups (r : re) (st : mst) : mst :=
  MSt (m_prev st) (m_rest st) (m_pos st)
      ((List.map (fun i => (i, None)) (groups_of r) ++ m_caps st)%list).

Definition at_max (cnt : nat) (mx : option nat) : bool :=
  match mx with Some n => (n <=? cnt)%nat | None => false end.

Definition word_before (st : mst) : bool :=
  match m_prev st with Some c => is_word c | None => false end.

Definition word_after (st : mst) : bool :=
  match m_rest st with String c _ => is_word c | EmptyString => false end.

Fixpoint rmatch (r : re) (st : mst) (k : mst -> option mst) {struct r}
  : option mst :=
  match r with
  | Eps => k st
  | Chr negated ci items =>
      match m_rest st with
      | String c s' =>
          if class_matches negated ci items c
          then k (MSt (Some c) s' (S (m_pos st)) (m_caps st))
          else None
      | EmptyString => None
      end
  | Seq a b => rmatch a st (fun st' => rmatch b st' k)
  | Alt a b =>
      match rmatch a st k with
      | Some x => Some x
      | None => rmatch b st k
      end
  | Grp i a =>
      rmatch a st (fun st' =>
        k (MSt (m_prev st') (m_rest st') (m_pos st')
               ((i, Some (take (m_pos st' - m_pos st) (m_rest st)))
                  :: m_caps st')))
  | Bol => if (m_pos st =? 0)%nat then k st else None
  | Eol => match m_rest st with EmptyString => k st | String _ _ => None end
  | Wb positive =>
      if Bool.eqb (xorb (word_before st) (word_after st)) positive
      then k st else None
  | Rep g mn mx a =>
      (fix loop (fuel cnt : nat) (st : mst) {struct fuel} : option mst :=
         match fuel with
         | O => None
         | S fuel' =>
             let iter (_ : unit) :=
               if at_max cnt mx then None
               else rmatch a (clear_groups a st) (fun st' =>
                      if (mn <=? cnt)%nat && (m_pos st' =? m_pos st)%nat
                      then None
                      else loop fuel' (S cnt) st') in
             if (cnt <? mn)%nat then iter tt
             else if g
                  then match iter tt with
                       | Some x => Some x
                       | None => k st
                       end
                  else match k st with
                       | Some x => Some x
                       | None => iter tt
                       end
         end) (mn + String.length (m_rest st) + 2)%nat 0%nat st
  end.

(** The leftmost start position at which the pattern matches. *)
Fixpoint search (r : re) (prev : option ascii) (s : string) (pos : nat)
  : option (nat * mst) :=
  match rmatch r (MSt prev s pos []) Some with
  | Some st => Some (pos, st)
  | None =>
      match s with
      | EmptyString => None
      | String c s' => search r (Some c) s' (S pos)
      end
  end.

(** The array returned by [RegExp.prototype.exec]: [index] and the
    numbered groups ([group m 0] is the whole match). *)
Record result : Type := Result {
  index : nat;
  captures : list (nat * option string)
}.

Fixpoint lookup_cap (i : nat) (l : list (nat * option string)) : prim :=
  match l with
  | [] => PUndef
  | (j, v) :: l' =>
      if (i =? j)%nat
      then match v with Some s => PStr s | None => PUndef end
      else lookup_cap i l'
  end.

Definition group (m : result) (i : nat) : prim := lookup_cap i (captures m).

Definition group_string (m : result) (i : nat) : string :=
  match group m i with PStr s => s | _ => "" end.

(** [r.exec(s)]; [None] is [null]. *)
Definition exec (r : re) (s : string) : option result :=
  match search r None s 0 with
  | Some (i, st) => Some (Result i (m_caps st))
  | None => None
  end.

(** [r.exec(v)] on any primitive: the argument goes through [ToString]. *)
Definition exec_prim (r : re) (v : prim) : option result :=
  exec r (to_string v).

(** *** Pattern syntax *)

Definition never : re := Chr false false [].

Definition hex_value (c : ascii) : option nat :=
  let n := nat_of_ascii c in
  if is_digit c then Some (n - 48)%nat
  else if ((65 <=? n) && (n <=? 70))%nat then Some (n - 55)%nat
  else if ((97 <=? n) && (n <=? 102))%nat then Some (n - 87)%nat
  else None.

Fixpoint hex_digits (k : nat) (acc : nat) (s : string) : option (nat * string) :=
  match k with
  | O => Some (acc, s)
  | S k' =>
      match s with
      | String c s' =>
          match hex_value c with
          | Some d => hex_digits k' (16 * acc + d)%nat s'
          | None => None
          end
      | EmptyString => None
      end
  end.

(** What follows a backslash: a class of characters or one code unit. *)
Inductive escape : Type :=
  | EClass (i : item)
  | ECode (n : nat)
  | EBoundary (positive : bool).

Definition parse_escape (s : string) : option (escape * string) :=
  match s with
  | EmptyString => None
  | String c s' =>
      if Ascii.eqb c "d" then Some (EClass (IDigit true), s')
      else if Ascii.eqb c "D" then Some (EClass (IDigit false), s')
      else if Ascii.eqb c "s" then Some (EClass (ISpace true), s')
      else if Ascii.eqb c "S" then Some (EClass (ISpace false), s')
      else if Ascii.eqb c "w" then Some (EClass (IWord true), s')
      else if Ascii.eqb c "W" then Some (EClass (IWord false), s')
      else if Ascii.eqb c "b" then Some (EBoundary true, s')
      else if Ascii.eqb c "B" then Some (EBoundary false, s')
      else if Ascii.eqb c "n" then Some (ECode 10, s')
      else if Ascii.eqb c "r" then Some (ECode 13, s')
      else if Ascii.eqb c "t" then Some (ECode 9, s')
      else if Ascii.eqb c "v" then Some (ECode 11, s')
      else if Ascii.eqb c "f" then Some (ECode 12, s')
      else if Ascii.eqb c "0" then Some (ECode 0, s')
      else if Ascii.eqb c "x" then
        match hex_digits 2 0 s' with
        | Some (n, s'') => Some (ECode n, s'')
        | None => Some (ECode (nat_of_ascii c), s')
        end
      else if Ascii.eqb c "u" then
        match hex_digits 4 0 s' with
        | Some (n, s'') => Some (ECode n, s'')
        | None => Some (ECode (nat_of_ascii c), s')
        end
      else Some (ECode (nat_of_ascii c), s')
  end.

(** One member of a bracketed class. *)
Definition parse_class_atom (s : string) : option (escape * string) :=
  match s with
  | EmptyString => None
  | String c s' =>
      if Ascii.eqb c "\" then
        match parse_escape s' with
        | Some (EBoundary _, s'') => Some (ECode 8, s'')
        | other => other
        end
      else Some (ECode (nat_of_ascii c), s')
  end.

Definition escape_items (e : escape) : list item :=
  match e with
  | EClass i => [i]
  | ECode n => [IRange n n]
  | EBoundary _ => []
  end.

(** The members of a class up to the closing bracket. *)
Fixpoint parse_class_items (fuel : nat) (acc : list item) (s : string)
  : option (list item * string) :=
  match fuel with
  | O => None
  | S fuel' =>
      match s with
      | EmptyString => None
      | String c s' =>
          if Ascii.eqb c "]" then Some (acc, s')
          else
            match parse_class_atom s with
            | None => None
            | Some (lo, s1) =>
                match lo, s1 with
                | ECode a, String d s2 =>
                    if Ascii.eqb d "-" then
                      match s2 with
                      | EmptyString => None
                      | String e _ =>
                          if Ascii.eqb e "]"
                          then parse_class_items fuel'
                                 (acc ++ escape_items lo)%list s1
                          else
                            match parse_class_atom s2 with
                            | Some (ECode b, s3) =>
                                if (b <? a)%nat then None
                                else parse_class_items fuel'
                                       (acc ++ [IRange a b])%list s3
                            | Some (hi, s3) =>
                                parse_class_items fuel'
                                  (acc ++ escape_items lo ++ [IRange 45 45]
                                       ++ escape_items hi)%list s3
                            | None => None
                            end
                      end
                    else parse_class_items fuel'
                           (acc ++ escape_items lo)%list s1
                | _, _ =>
                    parse_class_items fuel'
                      (acc ++ escape_items lo)%list s1
                end
            end
      end
  end.

Definition parse_class (ci : bool) (s : string) : option (re * string) :=
  let fuel := S (String.length s) in
  match s with
  | String "^" s' =>
      match parse_class_items fuel [] s' with
      | Some (items, rest) => Some (Chr true ci items, rest)
      | None => None
      end
  | _ =>
      match parse_class_items fuel [] s with
      | Some (items, rest) => Some (Chr false ci items, rest)
      | None => None
      end
  end.

Fixpoint parse_nat (acc : nat) (s : string) : nat * string :=
  match s with
  | String c s' =>
      if is_digit c then parse_nat (10 * acc + (nat_of_ascii c - 48))%nat s'
      else (acc, s)
  | EmptyString => (acc, s)
  end.

(** A braced quantifier after the opening brace: bounds and the rest. *)
Definition parse_braces (s : string) : option (nat * option nat * string) :=
  match s with
  | String c _ =>
      if is_digit c then
        let '(lo, s1) := parse_nat 0 s in
        match s1 with
        | String "}" s2 => Some (lo, Some lo, s2)
        | String "," (String "}" s2) => Some (lo, None, s2)
        | String "," (String d s2) =>
            if is_digit d then
              let '(hi, s3) := parse_nat 0 (String d s2) in
              match s3 with
              | String "}" s4 => Some (lo, Some hi, s4)
              | _ => None
              end
            else None
        | _ => None
        end
      else None
  | EmptyString => None
  end.

Definition parse_quantifier (s : string) : option (nat * option nat * string) :=
  match s with
  | String "*" s' => Some (0%nat, None, s')
  | String "+" s' => Some (1%nat, None, s')
  | String "?" s' => Some (0%nat, Some 1%nat, s')
  | String "{" s' => parse_braces s'
  | _ => None
  end.

Definition quantified (a : re) (s : string) : re * string :=
  match parse_quantifier s with
  | Some (mn, mx, String "?" s') => (Rep false mn mx a, s')
  | Some (mn, mx, s') => (Rep true mn mx a, s')
  | None => (a, s)
  end.

Definition literal (ci : bool) (c : nat) : re := Chr false ci [IRange c c].

(** The pattern parser.  [.] is the class of what is not LF or CR, the
    line terminators of the 8-bit range. *)
Fixpoint parse_disj (ci : bool) (fuel : nat) (s : string) (n : nat)
    : option (re * string * nat) :=
    match fuel with
    | O => None
    | S fuel' =>
        match parse_alt ci fuel' s n with
        | Some (a, String "|" s', n') =>
            match parse_disj ci fuel' s' n' with
            | Some (b, s'', n'') => Some (Alt a b, s'', n'')
            | None => None
            end
        | other => other
        end
    end
  with parse_alt (ci : bool) (fuel : nat) (s : string) (n : nat)
    : option (re * string * nat) :=
    match fuel with
    | O => None
    | S fuel' =>
        match s with
        | EmptyString => Some (Eps, s, n)
        | String ")" _ => Some (Eps, s, n)
        | String "|" _ => Some (Eps, s, n)
        | _ =>
            match parse_term ci fuel' s n with
            | Some (a, s', n') =>
                match parse_alt ci fuel' s' n' with
                | Some (b, s'', n'') => Some (Seq a b, s'', n'')
                | None => None
                end
            | None => None
            end
        end
    end
  with parse_term (ci : bool) (fuel : nat) (s : string) (n : nat)
    : option (re * string * nat) :=
    match fuel with
    | O => None
    | S fuel' =>
        match s with
        | EmptyString => None
        | String "(" (String "?" (String ":" s')) =>
            match parse_disj ci fuel' s' n with
            | Some (a, String ")" s'', n') =>
                let '(q, rest) := quantified a s'' in Some (q, rest, n')
            | _ => None
            end
        | String "(" (String "?" _) => None
        | String "(" s' =>
            match parse_disj ci fuel' s' (S n) with
            | Some (a, String ")" s'', n') =>
                let '(q, rest) := quantified (Grp n a) s'' in Some (q, rest, n')
            | _ => None
            end
        | String "[" s' =>
            match parse_class ci s' with
            | Some (a, s'') =>
                let '(q, rest) := quantified a s'' in Some (q, rest, n)
            | None => None
            end
        | String "\" s' =>
            match parse_escape s' with
            | Some (EBoundary b, s'') => Some (Wb b, s'', n)
            | Some (EClass i, s'') =>
                let '(q, rest) := quantified (Chr false false [i]) s'' in Some (q, rest, n)
            | Some (ECode c, s'') =>
                let '(q, rest) := quantified (literal ci c) s'' in Some (q, rest, n)
            | None => None
            end
        | String "." s' =>
            let '(q, rest) := quantified (Chr true false [IRange 10 10; IRange 13 13]) s'
            in Some (q, rest, n)
        | String "^" s' => Some (Bol, s', n)
        | String "$" s' => Some (Eol, s', n)
        | String "*" _ => None
        | String "+" _ => None
        | String "?" _ => None
        | String c s' =>
            let '(q, rest) := quantified (literal ci (nat_of_ascii c)) s' in Some (q, rest, n)
        end
    end.

(** [new RegExp(pattern, flags)] where [ci] is the [i] flag; [None] is a
    [SyntaxError]. *)
Definition regexp (ci : bool) (pattern : string) : option re :=
  match parse_disj ci (4 * String.length pattern + 4) pattern 1 with
  | Some (r, EmptyString, _) => Some (Grp 0 r)
  | _ => None
  end.

(** A regular-expression literal of the source text. *)
Definition lit (ci : bool) (pattern : string) : re :=
  match regexp ci pattern with
  | Some r => r
  | None => never
  end.

(** [s.replace(r, f)]: the first match, or every match with the [g] flag;
    [f] receives the matched text (the [$&] of a replacement pattern). *)
Fixpoint replace_loop (fuel : nat) (global : bool) (r : re) (f : string -> string)
    (prev : option ascii) (s : string) (pos : nat) : string :=
  match fuel with
  | O => s
  | S fuel' =>
      match search r prev s pos with
      | None => s
      | Some (i, st) =>
          let skipped := take (i - pos) s in
          let whole := match lookup_cap 0 (m_caps st) with PStr w => w | _ => "" end in
          let out := skipped +:+ f whole in
          if negb global then out +:+ m_rest st
          else if (m_pos st =? i)%nat then
            (* an empty match: copy one code unit and move on *)
            match m_rest st with
            | EmptyString => out
            | String c rest' =>
                out +:+ String c (replace_loop fuel' global r f (Some c) rest' (S i))
            end
          else out +:+ replace_loop fuel' global r f (m_prev st) (m_rest st) (m_pos st)
      end
  end.

Definition replace (global : bool) (r : re) (f : string -> string) (s : string) : string :=
  replace_loop (S (String.length s)) global r f None s 0.

(** [s] with [f] applied to every character that [p] accepts: what a
    global replace of a one-character class computes. *)
Fixpoint map_class (p : ascii -> bool) (f : string -> string) (s : string) : string :=
  match s with
  | EmptyString => EmptyString
  | String c s' =>
      if p c then f (String c "") +:+ map_class p f s'
      else String c (map_class p f s')
  end.

(** The expression that matches [text] character by character and then
    [tail]: what the pattern made by escaping [text] parses to. *)
Fixpoint literally (text : string) (tail : re) : re :=
  match text with
  | EmptyString => tail
  | String c text' => Seq (literal false (nat_of_ascii c)) (literally text' tail)
  end.

(** The character that stands before the position reached by reading
    [text], [prev] being the one before [text]. *)
Fixpoint prev_after (text : string) (prev : option ascii) : option ascii :=
  match text with
  | EmptyString => prev
  | String c text' => prev_after text' (Some c)
  end.

(** No class of [r] accepts a line terminator. *)
Fixpoint within_line (r : re) : bool :=
  match r with
  | Chr negated ci items =>
      negb (class_matches negated ci items (ascii_of_nat 10))
      && negb (class_matches negated ci items (ascii_of_nat 13))
  | Seq a b | Alt a b => within_line a && within_line b
  | Rep _ _ _ a | Grp _ a => within_line a
  | _ => true
  end.

(** Every match of [r] ends with [$], after parts that stay within a
    line. *)
Fixpoint needs_end (r : re) : bool :=
  match r with
  | Eol => true
  | Seq a b => (within_line a && needs_end b) || needs_end a
  | Grp _ a => needs_end a
  | _ => false
  end.

(** [\b] between the character [prev] and the text [after]. *)
Definition boundary (prev : option ascii) (after : string) : bool :=
  xorb (match prev with Some c => is_word c | None => false end)
       (match after with String c _ => is_word c | EmptyString => false end).

(** [fragment] stands in [text] between [pre] and [post], as a word. *)
Definition whole_word (fragment text pre post : string) : Prop :=
  text = pre +:+ fragment +:+ post
  /\ boundary (prev_after pre None) (fragment +:+ post) = true
  /\ boundary (prev_after (pre +:+ fragment) None) post = true.

End RegExp.

(** ** [src/config.js] *)

Module Config.

Record t : Type := Make {
  remoteFetching : bool;
  collectWindowErrors : bool;
  collectSourceErrors : bool;
  linesOfContext : Z;
  debug : bool;
  reportFuncName : string
}.

(** The values exported by the module. *)
Definition default : t :=
  {| remoteFetching := false;
     collectWindowErrors := true;
     collectSourceErrors := true;
     linesOfContext := 11;
     debug := false;
     reportFuncName := "ErrorWatch.report" |}.

End Config.

(** ** The data model *)

(** The [context] property of a frame: missing, [null], or an array whose
  elements are strings (or [undefined] when read past the end of an
  array of lines). *)
Inductive ctx : Type :=
| CUndef
| CNull
| CArr (lines : list JS.prim).

Definition ctx_truthy (c : ctx) : bool :=
  match c with CArr _ => true | _ => false end.

(** [@typedef StackFrame]. [args = None] is a frame built without the
  property (the element inserted by augmentation). *)
Module Frame.
Record t : Type := Make {
  url : JS.prim;
  func : JS.prim;
  args : option (list string);
  line : JS.prim;
  column : JS.prim;
  context : ctx
}.

Definition set_func (v : JS.prim) (f : t) : t :=
  Make (url f) v (args f) (line f) (column f) (context f).
Definition set_line (v : JS.prim) (f : t) : t :=
  Make (url f) (func f) (args f) v (column f) (context f).
Definition set_column (v : JS.prim) (f : t) : t :=
  Make (url f) (func f) (args f) (line f) v (context f).
Definition set_context (c : ctx) (f : t) : t :=
  Make (url f) (func f) (args f) (line f) (column f) c.
End Frame.

(** [@typedef StackTrace]. [stack = None] is an object without a frame
  array: the ['failed'] result has no [stack] property at all.  The two
  flags are absent ([None]) until augmentation writes them. *)
Module Trace.
Record t : Type := Make {
  name : JS.prim;
  message : JS.prim;
  mode : string;
  stack : option (list Frame.t);
  incomplete : option bool;
  partial : option bool
}.

Definition set_stack (s : list Frame.t) (x : t) : t :=
  Make (name x) (message x) (mode x) (Some s) (incomplete x) (partial x).
Definition set_incomplete (b : bool) (x : t) : t :=
  Make (name x) (message x) (mode x) (stack x) (Some b) (partial x).
Definition set_partial (b : bool) (x : t) : t :=
  Make (name x) (message x) (mode x) (stack x) (incomplete x) (Some b).

(** The frames of a trace, none when the array is missing. *)
Definition frames (x : t) : list Frame.t :=
  match stack x with Some l => l | None => [] end.
End Trace.

(** The properties of a raised object that the program reads (see the
  table "Contents of Exception in various browsers"); [ref] is the
  identity of the object, the only thing [===] compares. *)
Module Err.
Record t : Type := Make {
  ref : nat;
  name : JS.prim;
  message : JS.prim;
  description : JS.prim;
  stack : JS.prim;
  stacktrace : JS.prim;
  sourceURL : JS.prim;
  fileName : JS.prim;
  line : JS.prim;
  lineNumber : JS.prim;
  columnNumber : JS.prim
}.
End Err.

(** Anything that can be raised and handed to [report]: a primitive or an
  object. *)
Inductive value : Type :=
| VPrim (p : JS.prim)
| VObj (o : Err.t).

(** [a === b]. *)
Definition same_value (a b : value) : bool :=
  match a, b with
  | VPrim x, VPrim y => JS.strict_eq x y
  | VObj x, VObj y => (Err.ref x =? Err.ref y)%nat
  | _, _ => false
  end.

Definition value_truthy (v : value) : bool :=
  match v with
  | VPrim p => JS.truthy p
  | VObj _ => true
  end.

Definition nullish (v : value) : bool :=
  match v with
  | VPrim JS.PUndef | VPrim JS.PNull => true
  | _ => false
  end.

(** What a [throw] carries: a program value, or an error object made by
  the engine ([TypeError], [ReferenceError], [SyntaxError]). *)
Inductive exn : Type :=
| Raised (v : value)
| Engine (kind : string) (msg : string).

Definition exn_truthy (e : exn) : bool :=
  match e with
  | Raised v => value_truthy v
  | Engine _ _ => true
  end.

(** ** State and exceptions *)

Inductive outcome (A : Type) : Type :=
| Ret (a : A)
| Throw (e : exn).
Arguments Ret {A} a.
Arguments Throw {A} e.

Definition M (S A : Type) : Type := S -> outcome A * S.

Definition ret {S A} (a : A) : M S A := fun s => (Ret a, s).

Definition throw {S A} (e : exn) : M S A := fun s => (Throw e, s).

Definition bind {S A B} (m : M S A) (k : A -> M S B) : M S B :=
  fun s =>
    match m s with
    | (Ret a, s') => k a s'
    | (Throw e, s') => (Throw e, s')
    end.

(** [try { m } catch (e) { h e }]: the state reached when the exception
  was raised is kept. *)
Definition try_catch {S A} (m : M S A) (h : exn -> M S A) : M S A :=
  fun s =>
    match m s with
    | (Ret a, s') => (Ret a, s')
    | (Throw e, s') => h e s'
    end.

Definition get {S} : M S S := fun s => (Ret s, s).
Definition put {S} (s : S) : M S unit := fun _ => (Ret tt, s).

Declare Scope js_scope.
Delimit Scope js_scope with js.
Notation "x <- m ;; k" := (bind m (fun x => k))
  (at level 100, m at next level, right associativity) : js_scope.
Notation "m ;;; k" := (bind m (fun _ => k))
  (at level 100, right associativity) : js_scope.

Definition type_error {S A} (msg : string) : M S A := throw (Engine "TypeError" msg).

(** ** The browser *)

Record Script : Type := { script_src : string; script_innerText : string }.

Record Document : Type := { doc_domain : string; doc_scripts : list Script }.

(** [window]: its document (if any), [location.href], and what a
  synchronous GET of a URL answers ([None]: the request raises). *)
Record Window : Type := {
  win_document : option Document;
  win_location_href : string;
  win_xhr : string -> option string
}.

(** A function object met on the caller chain. *)
Record Fn : Type := {
  fn_is_computeStackTrace : bool;   (* [curr === computeStackTrace] *)
  fn_name : string;                 (* [curr.name] *)
  fn___name__ : JS.prim;            (* [curr.__name__] *)
  fn_source : string                (* [curr.toString()], also ['' + curr] *)
}.

Record Env : Type := {
  config : Config.t;
  window : option Window            (* [None]: the global is not declared *)
}.

(** ** [src/computeStackTrace.js] *)

Module ComputeStackTrace.
Import JS RegExp.
Local Open Scope js_scope.

(** [sourceCache]: URL to lines, the only module-level variable. *)
Abbreviation Cache := (gmap string (list string)).
Abbreviation MC := (M Cache).

Definition UNKNOWN_FUNCTION : string := "?".

Definition dquote : string := String (ascii_of_nat 34) EmptyString.

(** [a[i]] for an index computed as a number: [None] is [undefined]. *)
Definition array_get {A} (l : list A) (i : prim) : option A :=
  match i with
  | PNum z => if 0 <=? z then l !! Z.to_nat z else None
  | _ => None
  end.

Definition line_at (l : list string) (i : prim) : prim :=
  match array_get l i with Some s => PStr s | None => PUndef end.

(** [s.lastIndexOf(c, upto)]: the last position not after [upto]. *)
Fixpoint last_index_upto (c : ascii) (s : string) (i upto : nat) (found : Z) : Z :=
  match s with
  | EmptyString => found
  | String d s' =>
      if (upto <? i)%nat then found
      else last_index_upto c s' (S i) upto
             (if Ascii.eqb c d then Z.of_nat i else found)
  end.

(** [new RegExp(pattern, flags)]. *)
Definition new_RegExp (ci : bool) (pattern : string) : MC re :=
  match regexp ci pattern with
  | Some r => ret r
  | None => throw (Engine "SyntaxError" "Invalid regular expression")
  end.

Record location : Type := {
  loc_url : prim;
  loc_line : Z;
  loc_column : Z
}.

Section WithEnv.
Context (env : Env).

Definition loadSource (url : string) : string :=
  if negb (Config.remoteFetching (config env)) then ""
  else
    match window env with
    | Some w =>
        match win_xhr w url with
        | Some responseText => responseText
        | None => ""
        end
    | None => ""
    end.

(** [try { domain = window.document.domain; } catch (e) { }] *)
Definition document_domain : string :=
  match window env with
  | Some w =>
      match win_document w with
      | Some d => doc_domain d
      | None => ""
      end
  | None => ""
  end.

Definition url_parts : re :=
  lit false "(.*)\:\/\/([^:\/]+)([:\d]*)\/{0,1}([\s\S]*)".

Definition getSource (url : prim) : MC (list string) :=
  match url with
  | PStr u =>
      sourceCache <- get ;;
      match sourceCache !! u with
      | Some lines => ret lines
      | None =>
          let domain := document_domain in
          let source :=
            match exec url_parts u with
            | Some m =>
                if strict_eq (group m 2) (PStr domain)
                then loadSource u else ""
            | None => ""
            end in
          let lines :=
            if String.eqb source "" then [] else split_lines source in
          put (<[u := lines]> sourceCache) ;;;
          ret lines
      end
  | _ => ret []
  end.

(** *** What the cache can hold *)

(** Every cached entry is the empty array of lines. *)
Definition all_empty (c : Cache) : Prop :=
  forall (u : string) (lines : list string), c !! u = Some lines -> lines = [].

(** The cache values the module can hold: [{}] at load time, then
    whatever [getSource], the only writer, leaves behind. *)
Inductive reachable : Cache -> Prop :=
  | reachable_init : reachable ∅
  | reachable_getSource (c : Cache) (url : prim) :
      reachable c -> reachable (snd (getSource url c)).

Definition reFunctionArgNames : re := lit false "function ([^(]*)\(([^)]*)\)".
(** The double quote of the source pattern is written [\x22] here. *)
Definition reGuessFunction : re :=
  lit false "['\x22]?([0-9A-Za-z$_]+)['\x22]?\s*[:=]\s*(function|eval|new Function)".
Definition maxLines : nat := 10.

(** The loop of [guessFunctionName]: [n] iterations are left, [i] is
    the loop counter and [line] the text accumulated so far. *)
Fixpoint guess_loop (source : list string) (lineNo : prim)
    (n : nat) (i : Z) (line : string) : prim :=
  match n with
  | O => PStr UNKNOWN_FUNCTION
  | S n' =>
      let line' := to_string (line_at source (sub lineNo (PNum i))) +:+ line in
      match exec reGuessFunction line' with
      | Some m => group m 1
      | None =>
          match exec reFunctionArgNames line' with
          | Some m => group m 1
          | None => guess_loop source lineNo n' (i + 1) line'
          end
      end
  end.

Definition guessFunctionName (url lineNo : prim) : MC prim :=
  source <- getSource url ;;
  if (length source =? 0)%nat then ret (PStr UNKNOWN_FUNCTION)
  else ret (guess_loop source lineNo maxLines 0 "").

(** The loop of [gatherContext]: indices [i], [i+1], ... for [n]
    iterations, keeping the elements that are defined. *)
Fixpoint context_loop (source : list string) (i : Z) (n : nat) : list string :=
  match n with
  | O => []
  | S n' =>
      match array_get source (PNum i) with
      | Some l => l :: context_loop source (i + 1) n'
      | None => context_loop source (i + 1) n'
      end
  end.

(** [context.length > 0 ? context : null] *)
Definition nonempty_or_null (context : list string) : ctx :=
  match context with
  | [] => CNull
  | _ => CArr (List.map PStr context)
  end.

Definition gatherContext (url line : prim) : MC ctx :=
  source <- getSource url ;;
  if (length source =? 0)%nat then ret CNull
  else
    let linesOfContext := Config.linesOfContext (config env) in
    let linesBefore := linesOfContext / 2 in
    let linesAfter := linesBefore + Z.rem linesOfContext 2 in
    let start := max_with 0 (sub (sub line (PNum linesBefore)) (PNum 1)) in
    let end_ := min_with (Z.of_nat (length source))
                  (sub (add line (PNum linesAfter)) (PNum 1)) in
    let context :=
      match start, end_ with
      | Some s, Some e => context_loop source s (Z.to_nat (e - s))
      | _, _ => []
      end in
    ret (nonempty_or_null context).

Definition escapeRegExp (text : string) : string :=
  replace true (lit false "[\-\[\]{}()*+?.,\\\^$|#]") (fun m => "\" +:+ m) text.

(** The class of [escapeRegExp], and the text it produces, character
    by character: a backslash before every member of the class. *)
Definition syntax_items : list item :=
  [IRange 45 45; IRange 91 91; IRange 93 93; IRange 123 123; IRange 125 125;
   IRange 40 40; IRange 41 41; IRange 42 42; IRange 43 43; IRange 63 63;
   IRange 46 46; IRange 44 44; IRange 92 92; IRange 94 94; IRange 36 36;
   IRange 124 124; IRange 35 35].

Definition is_syntax (c : ascii) : bool := class_matches false false syntax_items c.

Fixpoint escape_chars (s : string) : string :=
  match s with
  | EmptyString => EmptyString
  | String c s' =>
      if is_syntax c then String "\" (String c (escape_chars s'))
      else String c (escape_chars s')
  end.

Definition escapeCodeAsRegExpForMatchingInsideHTML (body : string) : string :=
  replace true (lit false "\s+") (fun _ => "\s+")
    (replace_first dquote ("(?:" +:+ dquote +:+ "|&quot;)")
      (replace_first "&" "(?:&|&amp;)"
        (replace_first ">" "(?:>|&gt;)"
          (replace_first "<" "(?:<|&lt;)" (escapeRegExp body))))).

Fixpoint findSourceInUrls (r : re) (urls : list prim) : MC (option location) :=
  match urls with
  | [] => ret None
  | u :: rest =>
      lines <- getSource u ;;
      if (length lines =? 0)%nat then findSourceInUrls r rest
      else
        let source := join nl lines in
        match exec r source with
        | Some m =>
            ret (Some
              {| loc_url := u;
                 loc_line := Z.of_nat (length (split_lines (take (index m) source)));
                 loc_column :=
                   Z.of_nat (index m)
                   - last_index_upto (ascii_of_nat 10) source 0 (index m) (-1)
                   - 1 |})
        | None => findSourceInUrls r rest
        end
  end.

Definition findSourceInLine (fragment : string) (url line : prim) : MC prim :=
  source <- getSource url ;;
  r <- new_RegExp false ("\b" +:+ escapeRegExp fragment +:+ "\b") ;;
  let line' := sub line (PNum 1) in
  match to_number line' with
  | Some l =>
      if l <? Z.of_nat (length source) then
        match exec_prim r (line_at source line') with
        | Some m => ret (PNum (Z.of_nat (index m)))
        | None => ret PNull
        end
      else ret PNull
  | None => ret PNull
  end.

(** [urls[0]] handed over where an array is expected: indexing a
    string yields its code units one by one. *)
Fixpoint code_units (s : string) : list prim :=
  match s with
  | EmptyString => []
  | String c s' => PStr (String c EmptyString) :: code_units s'
  end.

Definition codeRE : re :=
  lit false "^function(?:\s+([\w$]+))?\s*\(([\w\s,]*)\)\s*\{\s*(\S[\s\S]*\S)\s*\}\s*$".
Definition eventRE : re :=
  lit false "^function on([\w$]+)\s*\(event\)\s*\{\s*(\S[\s\S]*\S)\s*\}\s*$".

Definition findSourceByFunctionBody (func : Fn) : MC (option location) :=
    match window env with
    | None => throw (Engine "ReferenceError" "window is not defined")
    | Some w =>
        match win_document w with
        | None => ret None
        | Some d =>
            let urls :=
              PStr (win_location_href w)
                :: List.map (fun s => PStr (script_src s))
                     (List.filter (fun s => negb (String.eqb (script_src s) ""))
                        (doc_scripts d)) in
            let code := fn_source func in
            r <- match exec codeRE code with
                 | None =>
                     new_RegExp false
                       (replace true (lit false "\s+") (fun _ => "\s+") (escapeRegExp code))
                 | Some parts =>
                     let name := if truthy (group parts 1)
                                 then "\s+" +:+ group_string parts 1 else "" in
                     let args := join "\s*,\s*" (split_commas (group_string parts 2)) in
                     let body := replace false (lit false ";$") (fun _ => ";?")
                                   (escapeRegExp (group_string parts 3)) in
                     new_RegExp false
                       ("function" +:+ name +:+ "\s*\(\s*" +:+ args
                          +:+ "\s*\)\s*{\s*" +:+ body +:+ "\s*}")
                 end ;;
            result <- findSourceInUrls r urls ;;
            match result with
            | Some loc => ret (Some loc)
            | None =>
                match exec eventRE code with
                | Some parts =>
                    let event := group_string parts 1 in
                    let body := escapeCodeAsRegExpForMatchingInsideHTML (group_string parts 2) in
                    r1 <- new_RegExp true
                            ("on" +:+ event +:+ "=[\'" +:+ dquote +:+ "]\s*" +:+ body
                               +:+ "\s*[\'" +:+ dquote +:+ "]") ;;
                    result1 <- findSourceInUrls r1 (code_units (win_location_href w)) ;;
                    match result1 with
                    | Some loc => ret (Some loc)
                    | None =>
                        r2 <- new_RegExp false body ;;
                        findSourceInUrls r2 urls
                    end
                | None => ret None
                end
            end
        end
    end.

  (** *** Reading the raised value *)

(** [ex.p]: reading a property of [undefined] or [null] raises a
    [TypeError]; the other primitives have none of the properties read
    here. *)
Definition prop (p : Err.t -> prim) (ex : value) : MC prim :=
  match ex with
  | VObj o => ret (p o)
  | VPrim PUndef | VPrim PNull =>
      type_error "Cannot read properties of undefined or null"
  | VPrim _ => ret PUndef
  end.

(** [ex.a || ex.b] *)
Definition prop_or (a b : Err.t -> prim) (ex : value) : MC prim :=
  x <- prop a ex ;;
  if truthy x then ret x else prop b ex.

(** [v.split('\n')]: only strings have the method. *)
Definition split_method (v : prim) : MC (list string) :=
  match v with
  | PStr s => ret (split_lines s)
  | PUndef | PNull => type_error "Cannot read properties of undefined or null"
  | _ => type_error "split is not a function"
  end.

Definition starts_with (p : string) (v : prim) : bool :=
  match v with
  | PStr s => match prefix_at p s with Some _ => true | None => false end
  | _ => false
  end.

Definition contains (p : string) (v : prim) : bool :=
  match v with
  | PStr s => match index_of p s with Some _ => true | None => false end
  | _ => false
  end.

(** *** Strategy: the [stack] property *)

Definition chrome : re :=
  lit true "^\s*at (.*?) ?\(((?:file|https?|blob|chrome-extension|native|eval|webpack|<anonymous>|\/).*?)(?::(\d+))?(?::(\d+))?\)?\s*$".
Definition gecko : re :=
  lit true "^\s*(.*?)(?:\((.*?)\))?(?:^|@)((?:file|https?|blob|chrome|webpack|resource|\[native).*?|[^@]*bundle)(?::(\d+))?(?::(\d+))?\s*$".
Definition winjs : re :=
  lit true "^\s*at (?:((?:\[object object\])?.+) )?\(?((?:file|ms-appx|https?|webpack|blob):.*?):(\d+)(?::(\d+))?\)?\s*$".
Definition geckoEval : re :=
  lit true "(\S+) line (\d+)(?: > eval line \d+)* > eval".
Definition chromeEval : re :=
  lit false "\((\S*)(?::(\d+))(?::(\d+))\)".
Definition isUndefinedMessage : re := lit false "^(.*) is undefined$".

Definition number_or_null (v : prim) : prim :=
  if truthy v then unary_plus v else PNull.

(** The end of one iteration: guess the name, gather the context,
    push. *)
Definition push_element (element : Frame.t) (stack : list Frame.t)
  : MC (list Frame.t) :=
  func <- (if negb (truthy (Frame.func element)) && truthy (Frame.line element)
           then guessFunctionName (Frame.url element) (Frame.line element)
           else ret (Frame.func element)) ;;
  context <- (if truthy (Frame.line element)
              then gatherContext (Frame.url element) (Frame.line element)
              else ret CNull) ;;
  ret (stack ++ [Frame.set_context context (Frame.set_func func element)])%list.

Fixpoint stack_lines (ex : value) (lines : list string) (i : nat)
    (stack : list Frame.t) : MC (list Frame.t) :=
  match lines with
  | [] => ret stack
  | l :: rest =>
      match exec chrome l with
      | Some parts =>
          let isNative := truthy (group parts 2) && starts_with "native" (group parts 2) in
          let isEval := truthy (group parts 2) && starts_with "eval" (group parts 2) in
          let submatch := if isEval then exec_prim chromeEval (group parts 2) else None in
          let parts2 := match submatch with Some m => group m 1 | None => group parts 2 end in
          let parts3 := match submatch with Some m => group m 2 | None => group parts 3 end in
          let parts4 := match submatch with Some m => group m 3 | None => group parts 4 end in
          stack' <- push_element
            {| Frame.url := if negb isNative then parts2 else PNull;
               Frame.func := or_else (group parts 1) (PStr UNKNOWN_FUNCTION);
               Frame.args := Some (if isNative then [to_string parts2] else []);
               Frame.line := number_or_null parts3;
               Frame.column := number_or_null parts4;
               Frame.context := CUndef |} stack ;;
          stack_lines ex rest (S i) stack'
      | None =>
          match exec winjs l with
          | Some parts =>
              stack' <- push_element
                {| Frame.url := group parts 2;
                   Frame.func := or_else (group parts 1) (PStr UNKNOWN_FUNCTION);
                   Frame.args := Some [];
                   Frame.line := unary_plus (group parts 3);
                   Frame.column := number_or_null (group parts 4);
                   Frame.context := CUndef |} stack ;;
              stack_lines ex rest (S i) stack'
          | None =>
              match exec gecko l with
              | Some parts =>
                  let isEval := truthy (group parts 3) && contains " > eval" (group parts 3) in
                  let submatch := if isEval then exec_prim geckoEval (group parts 3) else None in
                  stack0 <-
                    match submatch with
                    | Some _ => ret stack
                    | None =>
                        if (i =? 0)%nat && negb (truthy (group parts 5))
                        then
                          columnNumber <- prop Err.columnNumber ex ;;
                          if negb (strict_eq columnNumber PUndef)
                          then
                            (* [stack[0].column = ex.columnNumber + 1] *)
                            match stack with
                            | top :: below =>
                                ret (Frame.set_column (add columnNumber (PNum 1)) top :: below)
                            | [] => type_error "Cannot set properties of undefined"
                            end
                          else ret stack
                        else ret stack
                    end ;;
                  let parts3 := match submatch with Some m => group m 1 | None => group parts 3 end in
                  let parts4 := match submatch with Some m => group m 2 | None => group parts 4 end in
                  let parts5 := match submatch with Some m => PNull | None => group parts 5 end in
                  stack' <- push_element
                    {| Frame.url := parts3;
                       Frame.func := or_else (group parts 1) (PStr UNKNOWN_FUNCTION);
                       Frame.args := Some (if truthy (group parts 2)
                                           then split_commas (group_string parts 2) else []);
                       Frame.line := number_or_null parts4;
                       Frame.column := number_or_null parts5;
                       Frame.context := CUndef |} stack0 ;;
                  stack_lines ex rest (S i) stack'
              | None => stack_lines ex rest (S i) stack
              end
          end
      end
  end.

Definition computeStackTraceFromStackProp (ex : value) : MC (option Trace.t) :=
  ex_stack <- prop Err.stack ex ;;
  if negb (truthy ex_stack) then ret None
  else
    lines <- split_method ex_stack ;;
    ex_message <- prop Err.message ex ;;
    let reference := exec_prim isUndefinedMessage ex_message in
    stack <- stack_lines ex lines 0 [] ;;
    match stack with
    | [] => ret None
    | top :: below =>
        stack' <-
          match reference with
          | Some m =>
              if truthy (Frame.line top) && negb (truthy (Frame.column top))
              then
                column <- findSourceInLine (group_string m 1) (Frame.url top) (Frame.line top) ;;
                ret (Frame.set_column column top :: below)
              else ret stack
          | None => ret stack
          end ;;
        name <- prop Err.name ex ;;
        ret (Some {| Trace.mode := "stack";
                     Trace.name := name;
                     Trace.message := ex_message;
                     Trace.stack := Some stack';
                     Trace.incomplete := None;
                     Trace.partial := None |})
    end.

(** *** Strategy: the [stacktrace] property *)

Definition opera10Regex : re :=
  lit true " line (\d+).*script (?:in )?(\S+)(?:: in function (\S+))?$".
Definition opera11Regex : re :=
  lit true " line (\d+), column (\d+)\s*(?:in (?:<anonymous function: ([^>]+)>|([^\)]+))\((.*)\))? in (.*):\s*$".

Definition prim_of_line (l : option string) : prim :=
  match l with Some s => PStr s | None => PUndef end.

(** One location line together with [lines[line + 1]]. *)
Definition stacktrace_element (l : string) (next : option string)
    (stack : list Frame.t) : MC (list Frame.t) :=
  let element :=
    match exec opera10Regex l with
    | Some parts =>
        Some {| Frame.url := group parts 2;
                Frame.line := unary_plus (group parts 1);
                Frame.column := PNull;
                Frame.func := group parts 3;
                Frame.args := Some [];
                Frame.context := CUndef |}
    | None =>
        match exec opera11Regex l with
        | Some parts =>
            Some {| Frame.url := group parts 6;
                    Frame.line := unary_plus (group parts 1);
                    Frame.column := unary_plus (group parts 2);
                    Frame.func := or_else (group parts 3) (group parts 4);
                    Frame.args := Some (if truthy (group parts 5)
                                        then split_commas (group_string parts 5) else []);
                    Frame.context := CUndef |}
        | None => None
        end
    end in
  match element with
  | None => ret stack
  | Some element =>
      func <- (if negb (truthy (Frame.func element)) && truthy (Frame.line element)
               then guessFunctionName (Frame.url element) (Frame.line element)
               else ret (Frame.func element)) ;;
      context <- (if truthy (Frame.line element)
                  then try_catch (gatherContext (Frame.url element) (Frame.line element))
                         (fun _ => ret CUndef)
                  else ret CUndef) ;;
      let context' := if ctx_truthy context then context else CArr [prim_of_line next] in
      ret (stack ++ [Frame.set_context context' (Frame.set_func func element)])%list
  end.

(** [for (line = 0; line < lines.length; line += 2)] *)
Fixpoint stacktrace_lines (lines : list string) (stack : list Frame.t)
  : MC (list Frame.t) :=
  match lines with
  | [] => ret stack
  | l :: after =>
      stack' <- stacktrace_element l (head after) stack ;;
      match after with
      | [] => ret stack'
      | _ :: rest => stacktrace_lines rest stack'
      end
  end.

Definition computeStackTraceFromStacktraceProp (ex : value) : MC (option Trace.t) :=
  stacktrace <- prop Err.stacktrace ex ;;
  if negb (truthy stacktrace) then ret None
  else
    lines <- split_method stacktrace ;;
    stack <- stacktrace_lines lines [] ;;
    match stack with
    | [] => ret None
    | _ =>
        name <- prop Err.name ex ;;
        message <- prop Err.message ex ;;
        ret (Some {| Trace.mode := "stacktrace";
                     Trace.name := name;
                     Trace.message := message;
                     Trace.stack := Some stack;
                     Trace.incomplete := None;
                     Trace.partial := None |})
    end.

(** *** Strategy: a stack trace inside a multi-line message *)

Definition lineRE1 : re :=
  lit true "^\s*Line (\d+) of linked script ((?:file|https?|blob)\S+)(?:: in function (\S+))?\s*$".
Definition lineRE2 : re :=
  lit true "^\s*Line (\d+) of inline#(\d+) script in ((?:file|https?|blob)\S+)(?:: in function (\S+))?\s*$".
Definition lineRE3 : re :=
  lit true "^\s*Line (\d+) of function script\s*$".

Definition trim_start (s : string) : string :=
  replace false (lit false "^\s*") (fun _ => "") s.

(** [lines[line + 1].replace(...)]: a [TypeError] past the last line. *)
Definition replace_method (next : option string) (f : string -> string) : MC string :=
  match next with
  | Some s => ret (f s)
  | None => type_error "Cannot read properties of undefined (reading 'replace')"
  end.

Definition multiline_item (w : Window) (inlineScriptBlocks : list Script)
    (l : string) (next : option string) : MC (option Frame.t) :=
  match exec lineRE1 l with
  | Some parts =>
      ret (Some {| Frame.url := group parts 2;
                   Frame.func := group parts 3;
                   Frame.args := Some [];
                   Frame.line := unary_plus (group parts 1);
                   Frame.column := PNull;
                   Frame.context := CUndef |})
  | None =>
      match exec lineRE2 l with
      | Some parts =>
          let item := {| Frame.url := group parts 3;
                         Frame.func := group parts 4;
                         Frame.args := Some [];
                         Frame.line := unary_plus (group parts 1);
                         Frame.column := PNull;
                         Frame.context := CUndef |} in
          let relativeLine := unary_plus (group parts 1) in
          match array_get inlineScriptBlocks (sub (group parts 2) (PNum 1)) with
          | Some script =>
              lines <- getSource (Frame.url item) ;;
              let source := join nl lines in
              match index_of (script_innerText script) source with
              | Some pos =>
                  ret (Some (Frame.set_line
                               (add relativeLine
                                  (PNum (Z.of_nat (length (split_lines (take pos source))))))
                               item))
              | None => ret (Some item)
              end
          | None => ret (Some item)
          end
      | None =>
          match exec lineRE3 l with
          | Some parts =>
              let url := replace false (lit false "#.*$") (fun _ => "") (win_location_href w) in
              pattern <- replace_method next escapeCodeAsRegExpForMatchingInsideHTML ;;
              r <- new_RegExp false pattern ;;
              src <- findSourceInUrls r [PStr url] ;;
              ret (Some {| Frame.url := PStr url;
                           Frame.func := PStr "";
                           Frame.args := Some [];
                           Frame.line := match src with
                                         | Some loc => PNum (loc_line loc)
                                         | None => group parts 1
                                         end;
                           Frame.column := PNull;
                           Frame.context := CUndef |})
          | None => ret None
          end
      end
  end.

Definition multiline_element (w : Window) (inlineScriptBlocks : list Script)
    (l : string) (next : option string) (stack : list Frame.t) : MC (list Frame.t) :=
  item <- multiline_item w inlineScriptBlocks l next ;;
  match item with
  | None => ret stack
  | Some item =>
      func <- (if negb (truthy (Frame.func item))
               then guessFunctionName (Frame.url item) (Frame.line item)
               else ret (Frame.func item)) ;;
      context <- gatherContext (Frame.url item) (Frame.line item) ;;
      context' <-
        match context with
        | CArr c =>
            match c !! (length c / 2)%nat with
            | Some (PStr midline) =>
                excerpt <- replace_method next trim_start ;;
                if String.eqb (trim_start midline) excerpt
                then ret context
                else ret (CArr [prim_of_line next])
            | _ => type_error "midline.replace is not a function"
            end
        | _ => ret (CArr [prim_of_line next])
        end ;;
      ret (stack ++ [Frame.set_context context' (Frame.set_func func item)])%list
  end.

(** [for (line = 2; line < lines.length; line += 2)], entered at the
    element of index 2. *)
Fixpoint multiline_lines (w : Window) (inlineScriptBlocks : list Script)
    (lines : list string) (stack : list Frame.t) : MC (list Frame.t) :=
  match lines with
  | [] => ret stack
  | l :: after =>
      stack' <- multiline_element w inlineScriptBlocks l (head after) stack ;;
      match after with
      | [] => ret stack'
      | _ :: rest => multiline_lines w inlineScriptBlocks rest stack'
      end
  end.

Definition computeStackTraceFromOperaMultiLineMessage (ex : value) : MC (option Trace.t) :=
  message <- prop Err.message ex ;;
  lines <- split_method message ;;
  if (length lines <? 4)%nat then ret None
  else
    match window env with
    | None => throw (Engine "ReferenceError" "window is not defined")
    | Some w =>
        let scripts :=
          match win_document w with
          | Some d => doc_scripts d
          | None => []
          end in
        let inlineScriptBlocks :=
          List.filter (fun s => String.eqb (script_src s) "") scripts in
        stack <- multiline_lines w inlineScriptBlocks (skipn 2 lines) [] ;;
        match stack with
        | [] => ret None
        | _ =>
            name <- prop Err.name ex ;;
            ret (Some {| Trace.mode := "multiline";
                         Trace.name := name;
                         Trace.message := prim_of_line (head lines);
                         Trace.stack := Some stack;
                         Trace.incomplete := None;
                         Trace.partial := None |})
        end
    end.

(** *** Augmentation

    [stackInfo] is an object mutated in place: it is carried in the
    state next to the cache, so that what was written before an
    exception is still there afterwards. *)

Definition on_cache {A} (m : MC A) : M (Cache * Trace.t) A :=
  fun s =>
    match m (fst s) with
    | (r, c') => (r, (c', snd s))
    end.

Definition modify_trace (f : Trace.t -> Trace.t) : M (Cache * Trace.t) unit :=
  fun s => (Ret tt, (fst s, f (snd s))).

Definition get_trace : M (Cache * Trace.t) Trace.t :=
  fun s => (Ret (snd s), s).

(** A computation that mutates the object [result], run from a
    computation on the cache alone, which answers the object. *)
Definition with_trace {A} (result : Trace.t) (m : M (Cache * Trace.t) A) : MC Trace.t :=
  fun cache =>
    match m (cache, result) with
    | (Ret _, (cache', result')) => (Ret result', cache')
    | (Throw e, (cache', _)) => (Throw e, cache')
    end.

Definition quotedName : re := lit false " '([^']+)' ".

(** The candidate top frame [initial], once [url] and [lineNo] are
    known to be truthy. *)
Definition initial_element (url lineNo message : prim) : MC Frame.t :=
  func <- guessFunctionName url lineNo ;;
  context <- gatherContext url lineNo ;;
  column <- match exec_prim quotedName message with
            | Some reference => findSourceInLine (group_string reference 1) url lineNo
            | None => ret PUndef
            end ;;
  ret {| Frame.url := url;
         Frame.line := lineNo;
         Frame.func := func;
         Frame.context := context;
         Frame.column := column;
         Frame.args := None |}.

Definition unshift (initial : Frame.t) (stack : list Frame.t) : M (Cache * Trace.t) bool :=
  modify_trace (Trace.set_stack (initial :: stack)) ;;;
  modify_trace (Trace.set_partial true) ;;;
  ret true.

Definition augmentStackTraceWithInitialElement (url lineNo message : prim)
  : M (Cache * Trace.t) bool :=
  if truthy url && truthy lineNo then
    modify_trace (Trace.set_incomplete false) ;;;
    initial <- on_cache (initial_element url lineNo message) ;;
    stackInfo <- get_trace ;;
    match Trace.stack stackInfo with
    | None => type_error "Cannot read properties of undefined (reading 'length')"
    | Some [] => unshift initial []
    | Some (top :: below) =>
        if strict_eq (Frame.url top) (Frame.url initial) then
          if strict_eq (Frame.line top) (Frame.line initial) then
            ret false
          else if negb (truthy (Frame.line top))
                  && strict_eq (Frame.func top) (Frame.func initial) then
            modify_trace
              (Trace.set_stack
                 (Frame.set_context (Frame.context initial)
                    (Frame.set_line (Frame.line initial) top) :: below)) ;;;
            ret false
          else unshift initial (top :: below)
        else unshift initial (top :: below)
    end
  else
    modify_trace (Trace.set_incomplete true) ;;;
    ret false.

(** *** Strategy: walking the caller chain *)

Definition functionName : re :=
  lit true "function\s+([_$a-zA-Z\xA0-\uFFFF][_$a-zA-Z0-9\xA0-\uFFFF]*)?\s*\(".

(** The name of [curr]: [curr.name], else the declaration in its
    source, else (group missing) the text before the first brace. *)
Definition walk_func (curr : Fn) : prim :=
  if negb (String.eqb (fn_name curr) "") then PStr (fn_name curr)
  else
    match exec functionName (fn_source curr) with
    | Some parts =>
        match group parts 1 with
        | PUndef =>
            match index_of "{" (fn_source curr) with
            | Some i => PStr (take i (fn_source curr))
            | None => PStr ""
            end
        | name => name
        end
    | None => PStr UNKNOWN_FUNCTION
    end.

Definition walk_item (ex : value) (curr : Fn) : MC Frame.t :=
  let func := walk_func curr in
  source <- findSourceByFunctionBody curr ;;
  match source with
  | Some loc =>
      func' <- (if strict_eq func (PStr UNKNOWN_FUNCTION)
                then guessFunctionName (loc_url loc) (PNum (loc_line loc))
                else ret func) ;;
      text <- prop_or Err.message Err.description ex ;;
      column <- match exec_prim quotedName text with
                | Some reference =>
                    findSourceInLine (group_string reference 1)
                      (loc_url loc) (PNum (loc_line loc))
                | None => ret PNull
                end ;;
      ret {| Frame.url := loc_url loc;
             Frame.func := func';
             Frame.args := Some [];
             Frame.line := PNum (loc_line loc);
             Frame.column := column;
             Frame.context := CUndef |}
  | None =>
      ret {| Frame.url := PNull;
             Frame.func := func;
             Frame.args := Some [];
             Frame.line := PNull;
             Frame.column := PNull;
             Frame.context := CUndef |}
  end.

(** [for (curr = ...caller; curr && !recursion; curr = curr.caller)]
    over the functions the chain yields; [funcs] holds the source
    texts seen so far. *)
Fixpoint walk (ex : value) (chain : list Fn) (funcs : gset string)
    (stack : list Frame.t) : MC (list Frame.t) :=
  match chain with
  | [] => ret stack
  | curr :: callers =>
      if fn_is_computeStackTrace curr
         || strict_eq (fn___name__ curr) (PStr (Config.reportFuncName (config env)))
      then walk ex callers funcs stack
      else
        item <- walk_item ex curr ;;
        if bool_decide (fn_source curr ∈ funcs)
        then ret (stack ++ [item])%list
        else walk ex callers ({[fn_source curr]} ∪ funcs) (stack ++ [item])%list
  end.

(** [chain] is what the engine answers to
    [computeStackTraceByWalkingCallerChain.caller] and the successive
    [.caller] reads: [None] when the read raises (strict-mode code),
    else the functions met until [null]. *)
Definition computeStackTraceByWalkingCallerChain (chain : option (list Fn))
      (ex : value) (depth : prim) : MC Trace.t :=
    match chain with
    | None => type_error "'caller' may not be accessed on strict mode functions"
    | Some callers =>
        stack <- walk ex callers ∅ [] ;;
        let stack' :=
          if truthy depth
          then match to_number depth with
               | Some d => skipn (Z.to_nat d) stack
               | None => stack
               end
          else stack in
        name <- prop Err.name ex ;;
        message <- prop Err.message ex ;;
        let result := {| Trace.mode := "callers";
                         Trace.name := name;
                         Trace.message := message;
                         Trace.stack := Some stack';
                         Trace.incomplete := None;
                         Trace.partial := None |} in
        url <- prop_or Err.sourceURL Err.fileName ex ;;
        lineNo <- prop_or Err.line Err.lineNumber ex ;;
        text <- prop_or Err.message Err.description ex ;;
        with_trace result (augmentStackTraceWithInitialElement url lineNo text)
    end.

  (** *** The orchestrator *)

(** [try { stack = strategy; if (stack) return stack; }
     catch (e) { if (debug) throw e; }] followed by [rest]. *)
Definition attempt (strategy : MC (option Trace.t)) (rest : MC Trace.t) : MC Trace.t :=
  stack <- try_catch strategy
             (fun e => if Config.debug (config env) then throw e else ret None) ;;
  match stack with
  | Some t => ret t
  | None => rest
  end.

Definition failed (ex : value) : MC Trace.t :=
  name <- prop Err.name ex ;;
  message <- prop Err.message ex ;;
  ret {| Trace.name := name;
         Trace.message := message;
         Trace.mode := "failed";
         Trace.stack := None;
         Trace.incomplete := None;
         Trace.partial := None |}.

(** [depth == null ? 0 : +depth] *)
Definition depth_or_zero (depth : prim) : prim :=
  match depth with
  | PUndef | PNull => PNum 0
  | d => unary_plus d
  end.

(** The last strategy never answers [null]: it returns a trace or
    raises. *)
Definition walkingCallerChain (chain : option (list Fn)) (ex : value) (depth : prim)
  : MC (option Trace.t) :=
  t <- computeStackTraceByWalkingCallerChain chain ex depth ;;
  ret (Some t).

Definition computeStackTrace (chain : option (list Fn)) (ex : value) (depth : prim)
  : MC Trace.t :=
  let depth' := depth_or_zero depth in
  attempt (computeStackTraceFromStacktraceProp ex)
    (attempt (computeStackTraceFromStackProp ex)
      (attempt (computeStackTraceFromOperaMultiLineMessage ex)
        (attempt (walkingCallerChain chain ex (add depth' (PNum 1)))
          (failed ex)))).

(** [computeStackTrace.ofCaller(depth)].  [fresh] is the object that
    [new Error()] evaluates to in the host: [try { throw new Error(); }
    catch (ex) { ... }] binds [ex] to it.  [chain] is what the engine
    answers to the [.caller] reads made while it is traced. *)
Definition computeStackTraceOfCaller (chain : option (list Fn)) (fresh : Err.t)
    (depth : prim) : MC Trace.t :=
  let depth' := add (depth_or_zero depth) (PNum 1) in
  let ex := VObj fresh in
  computeStackTrace chain ex (add depth' (PNum 1)).

(** *** The orchestration as the specification words it

    "Tries the strategies in that fixed order, returning the first
    non-null result; any internal error escaping a strategy is caught
    and treated as no-result, not propagated."  The order is a
    parameter. *)
Fixpoint first_non_null (strategies : list (MC (option Trace.t)))
    (otherwise : MC Trace.t) : MC Trace.t :=
  match strategies with
  | [] => otherwise
  | strategy :: rest =>
      fun c =>
        match strategy c with
        | (Ret (Some t), c') => (Ret t, c')
        | (_, c') => first_non_null rest otherwise c'
        end
  end.

(** A strategy that gives nothing: [null], [undefined] or an
    exception. *)
Definition no_result (strategy : MC (option Trace.t)) (c c' : Cache) : Prop :=
  strategy c = (Ret None, c') \/ exists e, strategy c = (Throw e, c').

End WithEnv.

(** A computation that keeps the cache within [P]. *)
Definition preserves {A} (P : Cache -> Prop) (m : MC A) : Prop :=
  forall c, P c -> P (snd (m c)).

Definition preserves2 {A} (P : Cache -> Prop) (m : M (Cache * Trace.t) A) : Prop :=
  forall s, P (fst s) -> P (fst (snd (m s))).

End ComputeStackTrace.

(** ** [src/report.js] *)

Module Report.
Import JS RegExp.
Import ComputeStackTrace.
Local Open Scope js_scope.

(** A subscriber.  Its identity is [h_id]; its body is a function of the
    three arguments it is called with, answering the exception it
    raises, if any. *)
Record Handler : Type := {
  h_id : nat;
  h_run : option Trace.t -> bool -> value -> option exn
}.

(** One invocation of a subscriber, as recorded for the proofs. *)
Record Call : Type := {
  call_handler : nat;
  call_stack : option Trace.t;
  call_isWindowError : bool;
  call_error : value
}.

(** A callback registered by [setTimeout] in [report]: the closure holds
    [ex]. *)
Record Timer : Type := {
  timer_ex : value;
  timer_delay : Z
}.

(** The module-level variables of [report.js], the source cache of
    [computeStackTrace.js], the timer queue of the host and the record of
    subscriber invocations. *)
Record State : Type := {
  sourceCache : gmap string (list string);
  handlers : list Handler;
  lastException : value;
  lastExceptionStack : option Trace.t;
  timers : list Timer;
  calls : list Call
}.

Definition initial_state : State :=
  {| sourceCache := ∅;
     handlers := [];
     lastException := VPrim PNull;
     lastExceptionStack := None;
     timers := [];
     calls := [] |}.

Definition set_sourceCache (c : gmap string (list string)) (s : State) : State :=
  {| sourceCache := c; handlers := handlers s; lastException := lastException s;
     lastExceptionStack := lastExceptionStack s; timers := timers s; calls := calls s |}.
Definition set_handlers (h : list Handler) (s : State) : State :=
  {| sourceCache := sourceCache s; handlers := h; lastException := lastException s;
     lastExceptionStack := lastExceptionStack s; timers := timers s; calls := calls s |}.
Definition set_last (ex : value) (stack : option Trace.t) (s : State) : State :=
  {| sourceCache := sourceCache s; handlers := handlers s; lastException := ex;
     lastExceptionStack := stack; timers := timers s; calls := calls s |}.
Definition add_timer (t : Timer) (s : State) : State :=
  {| sourceCache := sourceCache s; handlers := handlers s; lastException := lastException s;
     lastExceptionStack := lastExceptionStack s; timers := (timers s ++ [t])%list;
     calls := calls s |}.
Definition add_call (c : Call) (s : State) : State :=
  {| sourceCache := sourceCache s; handlers := handlers s; lastException := lastException s;
     lastExceptionStack := lastExceptionStack s; timers := timers s;
     calls := (calls s ++ [c])%list |}.

(** A computation of [computeStackTrace.js] run from [report.js]: it
    sees the cache and nothing else. *)
Definition on_sourceCache {A} (m : MC A) : M State A :=
  fun s =>
    match m (sourceCache s) with
    | (r, c') => (r, set_sourceCache c' s)
    end.

Definition modify (f : State -> State) : M State unit :=
  fun s => (Ret tt, f s).

Definition subscribe (handler : Handler) : M State unit :=
  s <- get ;;
  put (set_handlers (handlers s ++ [handler])%list s).

Definition unsubscribe (handler : Handler) : M State unit :=
  s <- get ;;
  put (set_handlers
         (List.filter (fun h => negb (h_id h =? h_id handler)%nat) (handlers s)) s).

(** The loop of [unsubscribe] as it is written: [i] runs from the last
    index down to 0 and [splice(i, 1)] takes the element at [i] out when
    it is the handler; [n] is [i + 1]. *)
Fixpoint unsubscribe_loop (handler : Handler) (n : nat) (hs : list Handler)
  : list Handler :=
  match n with
  | O => hs
  | S i =>
      unsubscribe_loop handler i
        match hs !! i with
        | Some h => if (h_id h =? h_id handler)%nat then delete i hs else hs
        | None => hs
        end
  end.

(** The invocations made by one dispatch, in registration order. *)
Definition deliveries (hs : list Handler) (stack : option Trace.t)
    (isWindowError : bool) (error : value) : list Call :=
  List.map (fun h => {| call_handler := h_id h;
                        call_stack := stack;
                        call_isWindowError := isWindowError;
                        call_error := error |}) hs.

(** The exception raised by the last subscriber that raised one, starting
  from [exception]. *)
Fixpoint last_raised (hs : list Handler) (stack : option Trace.t)
    (isWindowError : bool) (error : value) (exception : option exn) : option exn :=
  match hs with
  | [] => exception
  | h :: rest =>
      match h_run h stack isWindowError error with
      | Some inner => last_raised rest stack isWindowError error (Some inner)
      | None => last_raised rest stack isWindowError error exception
      end
  end.


Definition add_calls (l : list Call) (s : State) : State :=
  {| sourceCache := sourceCache s; handlers := handlers s; lastException := lastException s;
     lastExceptionStack := lastExceptionStack s; timers := timers s;
     calls := (calls s ++ l)%list |}.

(** The callback [report] schedules: after 2000 ms when the trace is
  incomplete, at once if not. *)
Definition report_timer (ex : value) (stack : Trace.t) : Timer :=
  {| timer_ex := ex;
     timer_delay := if Trace.incomplete stack is Some true then 2000 else 0 |}.

(** A callback whose error is neither [null] nor [undefined]: [report]
  schedules no other, since the trace computation raises on those. *)
Definition live_target (tm : Timer) : Prop := nullish (timer_ex tm) = false.

Section WithEnv.
Context (env : Env).

(** The loop of [notifyHandlers]: [exception] is the variable of that
    name ([None] is [null]). *)
Fixpoint notify_loop (hs : list Handler) (stack : option Trace.t)
    (isWindowError : bool) (error : value) (exception : option exn)
  : M State (option exn) :=
  match hs with
  | [] => ret exception
  | h :: rest =>
      modify (add_call {| call_handler := h_id h;
                          call_stack := stack;
                          call_isWindowError := isWindowError;
                          call_error := error |}) ;;;
      match h_run h stack isWindowError error with
      | Some inner => notify_loop rest stack isWindowError error (Some inner)
      | None => notify_loop rest stack isWindowError error exception
      end
  end.

Definition notifyHandlers (stack : option Trace.t) (isWindowError : bool)
    (error : value) : M State unit :=
  if isWindowError && negb (Config.collectWindowErrors (config env)) then ret tt
  else
    s <- get ;;
    exception <- notify_loop (handlers s) stack isWindowError error None ;;
    match exception with
    | Some e => if exn_truthy e then throw e else ret tt
    | None => ret tt
    end.

Definition processLastException : M State unit :=
  s <- get ;;
  let _lastExceptionStack := lastExceptionStack s in
  let _lastException := lastException s in
  put (set_last (VPrim PNull) None s) ;;;
  notifyHandlers _lastExceptionStack false _lastException.

(** The flush as the specification words it: "delivers
    [(trace, isWindowError=false, error)] to all subscribers, then
    clears Pending to Idle". *)
Definition flush_deliver_then_clear : M State unit :=
  s <- get ;;
  notifyHandlers (lastExceptionStack s) false (lastException s) ;;;
  modify (set_last (VPrim PNull) None).

(** The callback handed to [setTimeout]. *)
Definition timer_callback (ex : value) : M State unit :=
  s <- get ;;
  if same_value (lastException s) ex then processLastException else ret tt.

(** [report] from the computation of the trace to its last
    statement. *)
Definition report_pending (chain : option (list Fn)) (ex : value) : M State unit :=
  stack <- on_sourceCache (computeStackTrace env chain ex PUndef) ;;
  modify (set_last ex (Some stack)) ;;;
  modify (add_timer (report_timer ex stack)) ;;;
  throw (Raised ex).

(** [report(ex)]; [chain] is the caller chain the engine exposes to
    the trace computation of this call. *)
Definition report (chain : option (list Fn)) (ex : value) : M State unit :=
  s <- get ;;
  match lastExceptionStack s with
  | Some _ =>
      if same_value (lastException s) ex
      then ret tt   (* already caught by an inner catch block, ignore *)
      else processLastException ;;; report_pending chain ex
  | None => report_pending chain ex
  end.

(** The host runs the callbacks of expired timers one after the other;
    an exception leaving a callback goes to the host, not to the next
    callback. *)
Fixpoint run_timers (ts : list Timer) (s : State) : State :=
  match ts with
  | [] => s
  | t :: rest => run_timers rest (snd (timer_callback (timer_ex t) s))
  end.

Definition ERROR_TYPES_RE : re :=
  lit false "^(?:[Uu]ncaught (?:exception: )?)?(?:((?:Eval|Internal|Range|Reference|Syntax|Type|URI|)Error): )?(.*)$".

(** The parts of [ERROR_TYPES_RE]: the names of the error types, the
    optional [Uncaught], the optional name of the error and the rest of
    the line. *)
Definition error_kinds : re :=
  Alt (literally "Eval" Eps)
 (Alt (literally "Internal" Eps)
 (Alt (literally "Range" Eps)
 (Alt (literally "Reference" Eps)
 (Alt (literally "Syntax" Eps)
 (Alt (literally "Type" Eps)
 (Alt (literally "URI" Eps) Eps)))))).

Definition uncaught : re :=
  Rep true 0 (Some 1%nat)
    (Seq (Chr false false [IRange 85 85; IRange 117 117])
       (literally "ncaught "
          (Seq (Rep true 0 (Some 1%nat) (literally "exception: " Eps)) Eps))).

Definition error_name : re :=
  Rep true 0 (Some 1%nat)
    (Seq (Grp 1 (Seq error_kinds (literally "Error" Eps))) (literally ": " Eps)).

Definition rest_of_line : re :=
  Seq (Grp 2 (Seq (Rep true 0 None (Chr true false [IRange 10 10; IRange 13 13])) Eps))
    (Seq Eol Eps).

(** [errorWatchWindowOnError], up to the call of the handler that was
    installed before. *)
Definition errorWatchWindowOnError (chain : option (list Fn))
    (message url lineNo columnNo : prim) (errorObj : value) : M State unit :=
  s <- get ;;
  match lastExceptionStack s with
  | Some pending =>
      (fun s0 =>
         match augmentStackTraceWithInitialElement env url lineNo message
                 (sourceCache s0, pending) with
         | (r, (c', pending')) =>
             (match r with Ret _ => Ret tt | Throw e => Throw e end,
              set_last (lastException s0) (Some pending') (set_sourceCache c' s0))
         end) ;;;
      processLastException
  | None =>
      if value_truthy errorObj then
        stack <- on_sourceCache (computeStackTrace env chain errorObj PUndef) ;;
        notifyHandlers (Some stack) true errorObj
      else
        let groups := match message with
                      | PStr m => exec ERROR_TYPES_RE m
                      | _ => None
                      end in
        let name := match groups with Some g => group g 1 | None => PUndef end in
        let msg := match groups with Some g => group g 2 | None => message end in
        func <- on_sourceCache (guessFunctionName env url lineNo) ;;
        context <- on_sourceCache (gatherContext env url lineNo) ;;
        notifyHandlers
          (Some {| Trace.name := name;
                   Trace.message := msg;
                   Trace.mode := "onerror";
                   Trace.stack := Some [ {| Frame.url := url;
                                            Frame.line := lineNo;
                                            Frame.column := columnNo;
                                            Frame.func := func;
                                            Frame.context := context;
                                            Frame.args := None |} ];
                   Trace.incomplete := None;
                   Trace.partial := None |})
          true (VPrim PNull)
  end.

(** [errorWatchWindowOnUnhandledRejection(e)]; of the event only
    [e.reason] is read. *)
Definition errorWatchWindowOnUnhandledRejection (chain : option (list Fn))
    (reason : value) : M State unit :=
  stack <- on_sourceCache (computeStackTrace env chain reason PUndef) ;;
  notifyHandlers (Some stack) true reason.

End WithEnv.

End Report.

(** ** [src/resourceError.js] *)

Module ResourceError.
Import JS.
Local Open Scope js_scope.

(** The function objects other than the listener below: a function made
    by the page, or [function handleResourceError] of [report.js], one
    object per evaluation of the expression. *)
Inductive function : Type :=
| PageFunction (id : nat)
| HandleResourceError (serial : nat).

(** What [addEventListener] and [removeEventListener] receive: a function
    as above, or the function expression of [installResourceLoadError],
    one object per evaluation, closing over the [handler] of that call. *)
Inductive callback : Type :=
| Fn (f : function)
| ErrorListener (serial : nat) (handler : function).

Definition function_eqb (a b : function) : bool :=
  match a, b with
  | PageFunction x, PageFunction y => (x =? y)%nat
  | HandleResourceError x, HandleResourceError y => (x =? y)%nat
  | _, _ => false
  end.

(** [a === b] on function objects. *)
Definition callback_eqb (a b : callback) : bool :=
  match a, b with
  | Fn x, Fn y => function_eqb x y
  | ErrorListener x h, ErrorListener y h' => (x =? y)%nat && function_eqb h h'
  | _, _ => false
  end.

(** A registration on [window] for the type ['error']. *)
Record listener : Type := {
  l_callback : callback;
  l_capture : bool
}.

Definition listener_eqb (a b : listener) : bool :=
  callback_eqb (l_callback a) (l_callback b) && Bool.eqb (l_capture a) (l_capture b).

(** The two module-level variables, and the part of [window] the module
    touches: whether the two methods exist, the listeners registered for
    ['error'] in registration order, and the number of listener objects
    made so far. *)
Record State : Type := {
  isRegisterListener : bool;
  _handler : option function;
  has_addEventListener : bool;
  has_removeEventListener : bool;
  error_listeners : list listener;
  created : nat
}.

Definition initial_state (add remove : bool) (page : list listener) : State :=
  {| isRegisterListener := false;
     _handler := None;
     has_addEventListener := add;
     has_removeEventListener := remove;
     error_listeners := page;
     created := 0 |}.

Definition set_isRegisterListener (b : bool) (s : State) : State :=
  {| isRegisterListener := b; _handler := _handler s;
     has_addEventListener := has_addEventListener s;
     has_removeEventListener := has_removeEventListener s;
     error_listeners := error_listeners s; created := created s |}.
Definition set__handler (h : option function) (s : State) : State :=
  {| isRegisterListener := isRegisterListener s; _handler := h;
     has_addEventListener := has_addEventListener s;
     has_removeEventListener := has_removeEventListener s;
     error_listeners := error_listeners s; created := created s |}.

(** [window.addEventListener('error', callback, capture)]: a registration
    that exists already is not repeated. *)
Definition addEventListener (callback : callback) (capture : bool) (s : State) : State :=
  let l := {| l_callback := callback; l_capture := capture |} in
  {| isRegisterListener := isRegisterListener s; _handler := _handler s;
     has_addEventListener := has_addEventListener s;
     has_removeEventListener := has_removeEventListener s;
     error_listeners :=
       if existsb (listener_eqb l) (error_listeners s) then error_listeners s
       else (error_listeners s ++ [l])%list;
     created := created s |}.

(** [window.removeEventListener('error', callback)]: the registration of
    this very function object without capture, if there is one. *)
Definition removeEventListener (callback : callback) (s : State) : State :=
  let l := {| l_callback := callback; l_capture := false |} in
  {| isRegisterListener := isRegisterListener s; _handler := _handler s;
     has_addEventListener := has_addEventListener s;
     has_removeEventListener := has_removeEventListener s;
     error_listeners := List.filter (fun l' => negb (listener_eqb l l')) (error_listeners s);
     created := created s |}.

(** Evaluating the function expression: a new object. *)
Definition new_listener (handler : function) : M State callback :=
  s <- get ;;
  put {| isRegisterListener := isRegisterListener s; _handler := _handler s;
         has_addEventListener := has_addEventListener s;
         has_removeEventListener := has_removeEventListener s;
         error_listeners := error_listeners s; created := S (created s) |} ;;;
  ret (ErrorListener (created s) handler).

(** The ['error'] event of a resource that failed to load, as far as the
    listener reads it; [ev_object] is the event as a value, which is what
    the handler receives. *)
Record Event : Type := {
  ev_object : value;
  target_is_window : bool;
  localName : prim;
  src : prim;
  href : prim;
  currentSrc : prim
}.

(** The object literal built by the listener; [stack: null] is the trace
    without a frame array. *)
Definition resource_stack (e : Event) : Trace.t :=
  {| Trace.message := PStr (to_string (localName e) +:+ " is load error");
     Trace.mode := "resource";
     Trace.name := or_else (or_else (src e) (href e)) (currentSrc e);
     Trace.stack := None;
     Trace.incomplete := None;
     Trace.partial := None |}.

(** The body of the listener, [handler] being the behaviour of the
    function it closes over. *)
Definition listener_body {S} (handler : Trace.t -> bool -> value -> M S unit)
    (e : Event) : M S unit :=
  try_catch
    (if negb (target_is_window e)
     then handler (resource_stack e) true (ev_object e)
     else ret tt)
    (fun e' => throw e').

Section WithEnv.
Context (env : Env).

Definition installResourceLoadError (handler : function) : M State unit :=
  s <- get ;;
  (if negb (isRegisterListener s) && Config.collectSourceErrors (config env) then
     put (set__handler (Some handler) s) ;;;
     match window env with
     | None => throw (Engine "ReferenceError" "window is not defined")
     | Some _ =>
         if has_addEventListener s then
           listener <- new_listener handler ;;
           s' <- get ;;
           put (addEventListener listener true s')
         else ret tt
     end
   else ret tt) ;;;
  s' <- get ;;
  put (set_isRegisterListener true s').

Definition uninstallResourceLoadError : M State unit :=
  s <- get ;;
  match _handler s with
  | Some handler =>
      if isRegisterListener s && Config.collectSourceErrors (config env) then
        match window env with
        | None => throw (Engine "ReferenceError" "window is not defined")
        | Some _ =>
            (if has_removeEventListener s
             then put (removeEventListener (Fn handler) s)
             else ret tt) ;;;
            s' <- get ;;
            put (set_isRegisterListener false (set__handler None s'))
        end
      else ret tt
  | None => ret tt
  end.

End WithEnv.

End ResourceError.

(** ** [src/report.js]: the hooks on [window] *)

Module Hooks.
Import JS ComputeStackTrace.
Local Open Scope js_scope.

(** The value of [window.onerror] or [window.onunhandledrejection], and
    of the variables that save it. *)
Inductive hook : Type :=
| HUndefined
| HNull
| HPage (id : nat)     (* a function of the page *)
| HErrorWatch.         (* the function of this module *)

(** The module-level variables of [report.js] that [Report.State] does
    not hold, and the two properties of [window]. *)
Record Globals : Type := {
  window_onerror : hook;
  window_onunhandledrejection : hook;
  _oldOnerrorHandler : hook;
  _onErrorHandlerInstalled : option bool;
  _oldOnunhandledrejectionHandler : hook;
  _onUnhandledRejectionHandlerInstalled : option bool;
  evaluated : nat      (* evaluations of [function handleResourceError] so far *)
}.

(** Everything the three modules keep. *)
Record Page : Type := {
  report : Report.State;
  globals : Globals;
  resource : ResourceError.State
}.

(** The page as the module finds it when it is loaded. *)
Definition initial_page (onerror onunhandledrejection : hook)
    (resource : ResourceError.State) : Page :=
  {| report := Report.initial_state;
     globals := {| window_onerror := onerror;
                   window_onunhandledrejection := onunhandledrejection;
                   _oldOnerrorHandler := HUndefined;
                   _onErrorHandlerInstalled := None;
                   _oldOnunhandledrejectionHandler := HUndefined;
                   _onUnhandledRejectionHandlerInstalled := None;
                   evaluated := 0 |};
     resource := resource |}.

Definition on_report {A} (m : M Report.State A) : M Page A :=
  fun p =>
    match m (report p) with
    | (r, s') => (r, {| report := s'; globals := globals p; resource := resource p |})
    end.

Definition on_resource {A} (m : M ResourceError.State A) : M Page A :=
  fun p =>
    match m (resource p) with
    | (r, s') => (r, {| report := report p; globals := globals p; resource := s' |})
    end.

Definition get_globals : M Page Globals := fun p => (Ret (globals p), p).

Definition put_globals (g : Globals) : M Page unit :=
  fun p => (Ret tt, {| report := report p; globals := g; resource := resource p |}).

Section WithEnv.
Context (env : Env).

(** [window.onerror] read or written: [window] has to be declared. *)
Definition with_window {A} (m : M Page A) : M Page A :=
  match window env with
  | Some _ => m
  | None => throw (Engine "ReferenceError" "window is not defined")
  end.

Definition installGlobalHandler : M Page unit :=
  g <- get_globals ;;
  if _onErrorHandlerInstalled g is Some true then ret tt
  else
    with_window
      (put_globals {| window_onerror := HErrorWatch;
                      window_onunhandledrejection := window_onunhandledrejection g;
                      _oldOnerrorHandler := window_onerror g;
                      _onErrorHandlerInstalled := _onErrorHandlerInstalled g;
                      _oldOnunhandledrejectionHandler := _oldOnunhandledrejectionHandler g;
                      _onUnhandledRejectionHandlerInstalled :=
                        _onUnhandledRejectionHandlerInstalled g;
                      evaluated := S (evaluated g) |}) ;;;
    on_resource (ResourceError.installResourceLoadError env
                   (ResourceError.HandleResourceError (evaluated g))) ;;;
    g' <- get_globals ;;
    put_globals {| window_onerror := window_onerror g';
                   window_onunhandledrejection := window_onunhandledrejection g';
                   _oldOnerrorHandler := _oldOnerrorHandler g';
                   _onErrorHandlerInstalled := Some true;
                   _oldOnunhandledrejectionHandler := _oldOnunhandledrejectionHandler g';
                   _onUnhandledRejectionHandlerInstalled :=
                     _onUnhandledRejectionHandlerInstalled g';
                   evaluated := evaluated g' |}.

Definition uninstallGlobalHandler : M Page unit :=
  g <- get_globals ;;
  if _onErrorHandlerInstalled g is Some true then
    with_window
      (put_globals {| window_onerror := _oldOnerrorHandler g;
                      window_onunhandledrejection := window_onunhandledrejection g;
                      _oldOnerrorHandler := _oldOnerrorHandler g;
                      _onErrorHandlerInstalled := _onErrorHandlerInstalled g;
                      _oldOnunhandledrejectionHandler := _oldOnunhandledrejectionHandler g;
                      _onUnhandledRejectionHandlerInstalled :=
                        _onUnhandledRejectionHandlerInstalled g;
                      evaluated := evaluated g |}) ;;;
    on_resource (ResourceError.uninstallResourceLoadError env) ;;;
    g' <- get_globals ;;
    put_globals {| window_onerror := window_onerror g';
                   window_onunhandledrejection := window_onunhandledrejection g';
                   _oldOnerrorHandler := _oldOnerrorHandler g';
                   _onErrorHandlerInstalled := Some false;
                   _oldOnunhandledrejectionHandler := _oldOnunhandledrejectionHandler g';
                   _onUnhandledRejectionHandlerInstalled :=
                     _onUnhandledRejectionHandlerInstalled g';
                   evaluated := evaluated g' |}
  else ret tt.

Definition installGlobalUnhandledRejectionHandler : M Page unit :=
  g <- get_globals ;;
  if _onUnhandledRejectionHandlerInstalled g is Some true then ret tt
  else
    with_window
      (put_globals {| window_onerror := window_onerror g;
                      window_onunhandledrejection := HErrorWatch;
                      _oldOnerrorHandler := _oldOnerrorHandler g;
                      _onErrorHandlerInstalled := _onErrorHandlerInstalled g;
                      _oldOnunhandledrejectionHandler := window_onunhandledrejection g;
                      _onUnhandledRejectionHandlerInstalled := Some true;
                      evaluated := evaluated g |}).

Definition uninstallGlobalUnhandledRejectionHandler : M Page unit :=
  g <- get_globals ;;
  if _onUnhandledRejectionHandlerInstalled g is Some true then
    with_window
      (put_globals {| window_onerror := window_onerror g;
                      window_onunhandledrejection := _oldOnunhandledrejectionHandler g;
                      _oldOnerrorHandler := _oldOnerrorHandler g;
                      _onErrorHandlerInstalled := _onErrorHandlerInstalled g;
                      _oldOnunhandledrejectionHandler := _oldOnunhandledrejectionHandler g;
                      _onUnhandledRejectionHandlerInstalled := Some false;
                      evaluated := evaluated g |})
  else ret tt.

(** [report.subscribe(handler)] *)
Definition subscribe (handler : Report.Handler) : M Page unit :=
  installGlobalHandler ;;;
  installGlobalUnhandledRejectionHandler ;;;
  on_report (Report.subscribe handler).

(** [report.unsubscribe(handler)] *)
Definition unsubscribe (handler : Report.Handler) : M Page unit :=
  on_report (Report.unsubscribe handler) ;;;
  p <- get ;;
  if (length (Report.handlers (report p)) =? 0)%nat then
    uninstallGlobalHandler ;;;
    uninstallGlobalUnhandledRejectionHandler
  else ret tt.

(** Calling a function object with the three arguments of a handler:
    [handleResourceError] hands them to [notifyHandlers]; the body of a
    function of the page is not part of the module. *)
Definition call (f : ResourceError.function) (stack : Trace.t) (isWindowError : bool)
    (error : value) : M Page unit :=
  match f with
  | ResourceError.HandleResourceError _ =>
      on_report (Report.notifyHandlers env (Some stack) isWindowError error)
  | ResourceError.PageFunction _ => ret tt
  end.

(** An ['error'] event reaches the listeners of [window] in registration
    order: those registered for the capture phase, and all of them when
    [window] itself is the target.  An exception leaving a listener goes
    to the host, not to the next listener. *)
Definition run_listener (l : ResourceError.listener) (e : ResourceError.Event)
    : M Page unit :=
  if ResourceError.l_capture l || ResourceError.target_is_window e then
    match ResourceError.l_callback l with
    | ResourceError.ErrorListener _ handler =>
        ResourceError.listener_body (call handler) e
    | ResourceError.Fn _ => ret tt
    end
  else ret tt.

Fixpoint run_listeners (ls : list ResourceError.listener) (e : ResourceError.Event)
    (p : Page) : Page :=
  match ls with
  | [] => p
  | l :: rest => run_listeners rest e (snd (run_listener l e p))
  end.

Definition dispatch_error (e : ResourceError.Event) (p : Page) : Page :=
  run_listeners (ResourceError.error_listeners (resource p)) e p.

(** The calls a client makes on [report.subscribe] and
    [report.unsubscribe], one after the other; a call that raises ends
    the sequence. *)
Inductive request : Type :=
| Subscribe (handler : Report.Handler)
| Unsubscribe (handler : Report.Handler).

Definition serve (r : request) : M Page unit :=
  match r with
  | Subscribe handler => subscribe handler
  | Unsubscribe handler => unsubscribe handler
  end.

Fixpoint serve_all (rs : list request) : M Page unit :=
  match rs with
  | [] => ret tt
  | r :: rest => serve r ;;; serve_all rest
  end.

End WithEnv.

(** The hooks are in place exactly when somebody is subscribed;
    [onerror] and [onunhandledrejection] are what the page had on
    [window] before the module was used. *)
Definition hooked (onerror onunhandledrejection : hook) (p : Page) : Prop :=
  let g := globals p in
  match Report.handlers (report p) with
  | [] =>
      _onErrorHandlerInstalled g <> Some true
      /\ _onUnhandledRejectionHandlerInstalled g <> Some true
      /\ window_onerror g = onerror
      /\ window_onunhandledrejection g = onunhandledrejection
  | _ :: _ =>
      _onErrorHandlerInstalled g = Some true
      /\ _onUnhandledRejectionHandlerInstalled g = Some true
      /\ window_onerror g = HErrorWatch
      /\ window_onunhandledrejection g = HErrorWatch
      /\ _oldOnerrorHandler g = onerror
      /\ _oldOnunhandledrejectionHandler g = onunhandledrejection
  end.

(** The listeners that [k] calls of [installGlobalHandler] have
    registered on a page that had none. *)
Definition made (k : nat) : list ResourceError.listener :=
  List.map (fun i => {| ResourceError.l_callback :=
                          ResourceError.ErrorListener i (ResourceError.HandleResourceError i);
                        ResourceError.l_capture := true |})
    (seq 0 k).

(** Nobody is subscribed, and [k] listeners have been made. *)
Definition idle (remove : bool) (k : nat) (p : Page) : Prop :=
  Report.handlers (report p) = []
  /\ _onErrorHandlerInstalled (globals p) <> Some true
  /\ _onUnhandledRejectionHandlerInstalled (globals p) <> Some true
  /\ evaluated (globals p) = k
  /\ resource p
     = {| ResourceError.isRegisterListener := false;
          ResourceError._handler := None;
          ResourceError.has_addEventListener := true;
          ResourceError.has_removeEventListener := remove;
          ResourceError.error_listeners := made k;
          ResourceError.created := k |}.

End Hooks.

(** ** [wrap] *)

Module Wrap.
Import JS ComputeStackTrace Report.
Local Open Scope js_scope.

Section WithEnv.
Context (env : Env).

(** The object the engine made for an exception of its own. *)
Context (engine_error : string -> string -> Err.t).

(** The value bound by [catch (e)]. *)
Definition caught (e : exn) : value :=
  match e with
  | Raised v => v
  | Engine kind msg => VObj (engine_error kind msg)
  end.

(** [wrap(func)] applied: [func] stands for [func.apply(this, arguments)]
    and [chain] for the caller chain that the call of [report] exposes. *)
Definition wrap {A} (chain : option (list Fn)) (func : M State A) : M State A :=
  try_catch func
    (fun e => report env chain (caught e) ;;; throw e).

End WithEnv.

End Wrap.

(** ** Sample inputs *)

Module Samples.
Import JS ComputeStackTrace Report.

(** A page served from [localhost] with no script element. *)
Definition win : Window :=
  {| win_document := Some {| doc_domain := "localhost"; doc_scripts := [] |};
     win_location_href := "http://localhost/index.html";
     win_xhr := fun _ => None |}.

Definition env : Env := {| config := Config.default; window := Some win |}.

(** An error object with nothing but a name and a message. *)
Definition bare (ref : nat) (message : string) : Err.t :=
  {| Err.ref := ref;
     Err.name := PStr "Error";
     Err.message := PStr message;
     Err.description := PUndef;
     Err.stack := PUndef;
     Err.stacktrace := PUndef;
     Err.sourceURL := PUndef;
     Err.fileName := PUndef;
     Err.line := PUndef;
     Err.lineNumber := PUndef;
     Err.columnNumber := PUndef |}.

(** An error object carrying both trace properties. *)
Definition both : Err.t :=
  {| Err.ref := 7;
     Err.name := PStr "Error";
     Err.message := PStr "boom";
     Err.description := PUndef;
     Err.stack := PStr "    at f (http://localhost/app.js:10:3)";
     Err.stacktrace :=
       PStr ("Error thrown at line 10, column 3 in f() in http://localhost/app.js:"
               +:+ nl +:+ "    g();");
     Err.sourceURL := PUndef;
     Err.fileName := PUndef;
     Err.line := PUndef;
     Err.lineNumber := PUndef;
     Err.columnNumber := PUndef |}.

(** What the two trace properties of [both] parse to. *)
Definition both_frame (context : ctx) : Frame.t :=
  {| Frame.url := PStr "http://localhost/app.js";
     Frame.func := PStr "f";
     Frame.args := Some [];
     Frame.line := PNum 10;
     Frame.column := PNum 3;
     Frame.context := context |}.

Definition both_trace (mode : string) (context : ctx) : Trace.t :=
  {| Trace.name := PStr "Error";
     Trace.message := PStr "boom";
     Trace.mode := mode;
     Trace.stack := Some [both_frame context];
     Trace.incomplete := None;
     Trace.partial := None |}.

(** A subscriber that always raises an error object of its own. *)
Definition thrower : Handler :=
  {| h_id := 1; h_run := fun _ _ _ => Some (Engine "Error" "subscriber failed") |}.

(** A subscriber that raises [null]. *)
Definition null_thrower : Handler :=
  {| h_id := 2; h_run := fun _ _ _ => Some (Raised (VPrim PNull)) |}.

(** A subscriber that returns normally. *)
Definition quiet : Handler :=
  {| h_id := 3; h_run := fun _ _ _ => None |}.

Definition e1 : value := VObj (bare 1 "first").
Definition e2 : value := VObj (bare 2 "second").

Definition with_handlers (hs : list Handler) : State :=
  set_handlers hs initial_state.

(** The trace of [e1]: no strategy succeeds. *)
Definition trace_e1 : Trace.t :=
  {| Trace.name := PStr "Error";
     Trace.message := PStr "first";
     Trace.mode := "failed";
     Trace.stack := None;
     Trace.incomplete := None;
     Trace.partial := None |}.

(** The state left by [report(e1)] called when nothing is pending. *)
Definition pending_e1 (hs : list Handler) : State :=
  snd (report env None e1 (with_handlers hs)).

(** A frame of [app.js], line 10. *)
Definition frame_app_10 : Frame.t :=
  {| Frame.url := PStr "http://localhost/app.js";
     Frame.func := PStr "f";
     Frame.args := Some [];
     Frame.line := PNum 10;
     Frame.column := PNull;
     Frame.context := CNull |}.

(** A trace flagged incomplete whose top frame is [frame_app_10]. *)
Definition incomplete_trace : Trace.t :=
  {| Trace.name := PStr "Error";
     Trace.message := PStr "boom";
     Trace.mode := "callers";
     Trace.stack := Some [frame_app_10];
     Trace.incomplete := Some true;
     Trace.partial := None |}.

(** The result of [computeStackTrace] when every strategy has failed. *)
Definition failed_trace : Trace.t :=
  {| Trace.name := PStr "Error";
     Trace.message := PStr "boom";
     Trace.mode := "failed";
     Trace.stack := None;
     Trace.incomplete := None;
     Trace.partial := None |}.

(** A cache holding twelve lines for one URL. *)
Definition twelve_lines : list string :=
  ["l1"; "l2"; "l3"; "l4"; "l5"; "l6"; "l7"; "l8"; "l9"; "l10"; "l11"; "l12"].

Definition cache12 : gmap string (list string) :=
  {[ "http://localhost/app.js" := twelve_lines ]}.

(** A Firefox error object: no column in the trace, the column of the
    top frame in [columnNumber]. *)
Definition firefox3 : Err.t :=
  {| Err.ref := 9;
     Err.name := PStr "TypeError";
     Err.message := PStr "x is null";
     Err.description := PUndef;
     Err.stack := PStr ("f@http://localhost/app.js:10" +:+ nl +:+ "g@http://localhost/app.js:20");
     Err.stacktrace := PUndef;
     Err.sourceURL := PUndef;
     Err.fileName := PStr "http://localhost/app.js";
     Err.line := PUndef;
     Err.lineNumber := PNum 10;
     Err.columnNumber := PNum 4 |}.

(** A function of the page. *)
Definition caller (name : string) : Fn :=
  {| fn_is_computeStackTrace := false;
     fn_name := name;
     fn___name__ := PUndef;
     fn_source := "function " +:+ name +:+ "() { run(); }" |}.

(** The two functions of the module that the walk leaves out. *)
Definition the_computeStackTrace : Fn :=
  {| fn_is_computeStackTrace := true;
     fn_name := "computeStackTrace";
     fn___name__ := PUndef;
     fn_source := "function computeStackTrace(ex, depth) { }" |}.

Definition the_report : Fn :=
  {| fn_is_computeStackTrace := false;
     fn_name := "report";
     fn___name__ := PStr "ErrorWatch.report";
     fn_source := "function report(ex) { }" |}.

(** The ['error'] event of an image that failed to load. *)
Definition broken_image : ResourceError.Event :=
  {| ResourceError.ev_object := VObj (bare 20 "");
     ResourceError.target_is_window := false;
     ResourceError.localName := PStr "img";
     ResourceError.src := PStr "http://localhost/logo.png";
     ResourceError.href := PUndef;
     ResourceError.currentSrc := PStr "http://localhost/logo.png" |}.

(** A function that raises [e1]. *)
Definition failing : M State unit := throw (Raised e1).

(** A source of thirteen lines that agrees with [twelve_lines] on the
    first twelve. *)
Definition thirteen_lines : list string := (twelve_lines ++ ["function f() {"])%list.

Definition cache13 : gmap string (list string) :=
  {[ "http://localhost/app.js" := thirteen_lines ]}.

(** A page with remote fetching on, whose host serves one script. *)
Definition remote : Env :=
  {| config := Config.Make true true true 11 false "ErrorWatch.report";
     window :=
       Some {| win_document := Some {| doc_domain := "localhost"; doc_scripts := [] |};
               win_location_href := "http://localhost/index.html";
               win_xhr := fun url =>
                 if String.eqb url "http://localhost/app.js"
                 then Some ("var a = 1;" +:+ nl +:+ "  function f() {" +:+ nl +:+ "}")
                 else None |} |}.

End Samples.

(** * Properties *)

Import JS RegExp ComputeStackTrace Report.
Local Open Scope js_scope.

Arguments RegExp.exec : simpl never.
Arguments RegExp.exec_prim : simpl never.
Arguments RegExp.lit : simpl never.
Arguments RegExp.regexp : simpl never.
Arguments RegExp.replace : simpl never.

(** ** The monad *)

Lemma bind_ret_l {S A B} (a : A) (k : A -> M S B) (s : S) :
  bind (ret a) k s = k a s.
Proof. reflexivity. Qed.

Lemma bind_eq_ret {S A B} (m : M S A) (k : A -> M S B) (s s' : S) (a : A) :
  m s = (Ret a, s') -> bind m k s = k a s'.
Proof. intros H. unfold bind. now rewrite H. Qed.

(** ** The source cache with remote fetching off *)

Section SourceCache.
Context (env : Env).

  Hypothesis remoteFetching_off : Config.remoteFetching (config env) = false.

Lemma loadSource_off (u : string) : loadSource env u = "".
  Proof. unfold loadSource. now rewrite remoteFetching_off. Qed.

Lemma getSource_uncached (c : Cache) (u : string) :
    c !! u = None ->
    getSource env (PStr u) c = (Ret [], <[u := []]> c).
  Proof.
    intros Hc. unfold getSource, bind, get, put, ret. rewrite Hc.
    rewrite loadSource_off.
    destruct (exec (url_parts) u) as [m|]; [destruct (strict_eq _ _)|]; reflexivity.
  Qed.

Lemma getSource_all_empty (c : Cache) (url : prim) :
    all_empty c ->
    fst (getSource env url c) = Ret [] /\ all_empty (snd (getSource env url c)).
  Proof.
    intros Hc. destruct url as [| | b | n | | u]; try (split; [reflexivity | exact Hc]).
    destruct (c !! u) as [lines|] eqn:Hu.
    - unfold getSource, bind, get, ret. rewrite Hu. cbn.
      rewrite (Hc _ _ Hu). split; [reflexivity | exact Hc].
    - rewrite (getSource_uncached _ _ Hu). cbn. split; [reflexivity|].
      intros u' lines. rewrite lookup_insert. case_decide.
      + intros [= <-]. reflexivity.
      + apply Hc.
  Qed.

Lemma reachable_all_empty (c : Cache) : reachable env c -> all_empty c.
  Proof.
    induction 1 as [| c url _ IH].
    - intros u lines. rewrite lookup_empty. discriminate.
    - apply getSource_all_empty, IH.
  Qed.

Lemma getSource_empty_eq (c : Cache) (url : prim) :
    all_empty c -> exists c', getSource env url c = (Ret [], c') /\ all_empty c'.
  Proof.
    intros Hc. destruct (getSource_all_empty c url Hc) as [H1 H2].
    destruct (getSource env url c) as [r c'] eqn:E. cbn in *. subst r. eauto.
  Qed.

Lemma guessFunctionName_all_empty (c : Cache) (url lineNo : prim) :
    all_empty c ->
    exists c', guessFunctionName env url lineNo c = (Ret (PStr UNKNOWN_FUNCTION), c')
               /\ all_empty c'.
  Proof.
    intros Hc. destruct (getSource_empty_eq c url Hc) as (c' & E & Hc').
    exists c'. split; [|exact Hc'].
    unfold guessFunctionName. now rewrite (bind_eq_ret _ _ _ _ _ E).
  Qed.

Lemma gatherContext_all_empty (c : Cache) (url line : prim) :
    all_empty c ->
    exists c', gatherContext env url line c = (Ret CNull, c') /\ all_empty c'.
  Proof.
    intros Hc. destruct (getSource_empty_eq c url Hc) as (c' & E & Hc').
    exists c'. split; [|exact Hc'].
    unfold gatherContext. now rewrite (bind_eq_ret _ _ _ _ _ E).
  Qed.

End SourceCache.

(** C10. With [remoteFetching = false], [getSource] answers the empty list
  of lines for every URL that is not cached yet (and caches it); hence,
  whatever the module has cached so far, [guessFunctionName(url, line)]
  is ['?'] and [gatherContext(url, line)] is [null] for every [url] and
  [line]. *)
Theorem remoteFetching_off_no_source (env : Env)
    (Hoff : Config.remoteFetching (config env) = false) :
  (forall (c : Cache) (u : string),
      c !! u = None -> getSource env (PStr u) c = (Ret [], <[u := []]> c))
  /\ (forall (c : Cache) (url line : prim),
        reachable env c ->
        fst (guessFunctionName env url line c) = Ret (PStr "?")
        /\ fst (gatherContext env url line c) = Ret CNull).
Proof.
  split.
  - intros c u. now apply getSource_uncached.
  - intros c url line Hc.
    apply (reachable_all_empty env Hoff) in Hc.
    destruct (guessFunctionName_all_empty env Hoff c url line Hc) as (c1 & E1 & _).
    destruct (gatherContext_all_empty env Hoff c url line Hc) as (c2 & E2 & _).
    rewrite E1, E2. split; reflexivity.
Qed.

(** ** The context window *)

Lemma array_get_nonneg {A} (l : list A) (i : Z) :
  0 <= i -> array_get l (PNum i) = l !! Z.to_nat i.
Proof.
  intros Hi. unfold array_get.
  destruct (Z.leb_spec 0 i) as [_|Hlt]; [reflexivity | lia].
Qed.

Lemma context_loop_slice (source : list string) (n : nat) :
  forall s : Z,
    0 <= s -> (Z.to_nat s + n <= length source)%nat ->
    context_loop source s n = firstn n (skipn (Z.to_nat s) source).
Proof.
  induction n as [|n IH]; intros s Hs Hlen; [reflexivity|].
  cbn [context_loop]. rewrite array_get_nonneg by exact Hs.
  destruct (lookup_lt_is_Some_2 source (Z.to_nat s)) as [l Hl]; [lia|].
  rewrite Hl, (drop_S _ _ _ Hl). cbn [firstn]. f_equal.
  rewrite IH by lia. f_equal. f_equal. lia.
Qed.

(** The value [gatherContext] answers once the lines are known and not
  empty, for a numeric [line] and eleven lines of context. *)
Lemma gatherContext_number (env : Env) (c c' : Cache) (url : prim)
    (source : list string) (line : Z) :
  Config.linesOfContext (config env) = 11 ->
  getSource env url c = (Ret source, c') ->
  length source <> 0%nat ->
  gatherContext env url (PNum line) c =
    (Ret (nonempty_or_null
            (context_loop source (Z.max 0 (line - 5 - 1))
               (Z.to_nat (Z.min (Z.of_nat (length source)) (line + 6 - 1)
                          - Z.max 0 (line - 5 - 1))))), c').
Proof.
  intros Hcfg Hsrc Hlen. unfold gatherContext.
  rewrite (bind_eq_ret _ _ _ _ _ Hsrc), Hcfg.
  destruct (Nat.eqb_spec (length source) 0) as [E|_]; [contradiction|].
  reflexivity.
Qed.


(** X26. The window for a line given as a number, with
  [linesOfContext = 11]: a line at least 6 lines away from both ends of
  the file gets exactly 11 lines, the target in the middle (5 before, 5
  after); a line among the first five gets fewer lines, the target among
  them; a file without lines (whatever the line is), or an empty clipped
  window, gets [null]. *)
Theorem gatherContext_window (env : Env) (c c' : Cache) (url : prim)
    (source : list string)
    (Hcfg : Config.linesOfContext (config env) = 11)
    (Hsrc : getSource env url c = (Ret source, c')) :
  (forall line : Z,
      6 <= line -> line + 5 <= Z.of_nat (length source) ->
      exists window : list string,
        gatherContext env url (PNum line) c = (Ret (CArr (List.map PStr window)), c')
        /\ length window = 11%nat
        /\ window = firstn 11 (skipn (Z.to_nat (line - 6)) source)
        /\ window !! 5%nat = source !! Z.to_nat (line - 1)
        /\ is_Some (window !! 5%nat))
  /\ (forall line : Z,
        1 <= line < 6 -> line <= Z.of_nat (length source) ->
        exists window : list string,
          gatherContext env url (PNum line) c = (Ret (CArr (List.map PStr window)), c')
          /\ (length window < 11)%nat
          /\ window = firstn (Z.to_nat (line + 5)) source
          /\ window !! Z.to_nat (line - 1) = source !! Z.to_nat (line - 1)
          /\ is_Some (window !! Z.to_nat (line - 1)))
  /\ (length source = 0%nat ->
      forall line : prim, gatherContext env url line c = (Ret CNull, c'))
  /\ (forall line : Z,
        Z.min (Z.of_nat (length source)) (line + 5) <= Z.max 0 (line - 6) ->
        gatherContext env url (PNum line) c = (Ret CNull, c')).
Proof.
  repeat split.
  - (* a full window *)
    intros line Hlo Hhi.
    exists (firstn 11 (skipn (Z.to_nat (line - 6)) source)).
    assert (Hlen : length source <> 0%nat) by lia.
    rewrite (gatherContext_number env c c' url source line Hcfg Hsrc Hlen).
    replace (Z.max 0 (line - 5 - 1)) with (line - 6) by lia.
    replace (Z.to_nat (Z.min (Z.of_nat (length source)) (line + 6 - 1) - (line - 6)))
      with 11%nat by lia.
    rewrite context_loop_slice by lia.
    assert (Hw : length (firstn 11 (skipn (Z.to_nat (line - 6)) source)) = 11%nat).
    { rewrite length_take, length_drop. lia. }
    assert (H5 : firstn 11 (skipn (Z.to_nat (line - 6)) source) !! 5%nat
                 = source !! Z.to_nat (line - 1)).
    { rewrite lookup_take_lt by lia. rewrite lookup_drop. f_equal. lia. }
    repeat split.
    + destruct (firstn 11 (skipn (Z.to_nat (line - 6)) source)) eqn:E;
        [discriminate Hw | reflexivity].
    + exact Hw.
    + exact H5.
    + rewrite H5. apply lookup_lt_is_Some_2. lia.
  - (* near the top of the file *)
    intros line [Hlo Hhi] Hin.
    exists (firstn (Z.to_nat (line + 5)) source).
    assert (Hlen : length source <> 0%nat) by lia.
    rewrite (gatherContext_number env c c' url source line Hcfg Hsrc Hlen).
    replace (Z.max 0 (line - 5 - 1)) with 0 by lia.
    rewrite context_loop_slice by lia.
    change (skipn (Z.to_nat 0) source) with source.
    assert (Heq : firstn (Z.to_nat (Z.min (Z.of_nat (length source)) (line + 6 - 1) - 0)) source
                  = firstn (Z.to_nat (line + 5)) source).
    { destruct (Z.le_gt_cases (line + 5) (Z.of_nat (length source))).
      - f_equal. lia.
      - rewrite !take_ge by lia. reflexivity. }
    rewrite Heq.
    assert (Ht : firstn (Z.to_nat (line + 5)) source !! Z.to_nat (line - 1)
                 = source !! Z.to_nat (line - 1)).
    { apply lookup_take_lt. lia. }
    assert (Hs : is_Some (source !! Z.to_nat (line - 1))).
    { apply lookup_lt_is_Some_2. lia. }
    repeat split.
    + destruct (firstn (Z.to_nat (line + 5)) source) eqn:E; [|reflexivity].
      rewrite lookup_nil in Ht. rewrite <- Ht in Hs. destruct Hs; discriminate.
    + rewrite length_take. lia.
    + exact Ht.
    + rewrite Ht. exact Hs.
  - (* no lines at all *)
    intros Hlen line. unfold gatherContext.
    rewrite (bind_eq_ret _ _ _ _ _ Hsrc), Hlen. reflexivity.
  - (* an empty window *)
    intros line Hempty.
    destruct (Nat.eq_dec (length source) 0%nat) as [Hlen|Hlen].
    + unfold gatherContext.
      rewrite (bind_eq_ret _ _ _ _ _ Hsrc), Hlen. reflexivity.
    + rewrite (gatherContext_number env c c' url source line Hcfg Hsrc Hlen).
      replace (Z.to_nat (Z.min (Z.of_nat (length source)) (line + 6 - 1)
                         - Z.max 0 (line - 5 - 1))) with 0%nat by lia.
      reflexivity.
Qed.

(** ** The orchestrator *)

Section Orchestrator.
Context (env : Env).
Hypothesis debug_off : Config.debug (config env) = false.

Lemma attempt_first_non_null (strategy : MC (option Trace.t)) (rest : MC Trace.t)
    (c : Cache) :
  attempt env strategy rest c = first_non_null [strategy] rest c.
Proof.
  unfold attempt, bind, try_catch. cbn [first_non_null]. rewrite debug_off.
  destruct (strategy c) as [[[t|]|e] c']; reflexivity.
Qed.

Lemma first_non_null_cons (strategy : MC (option Trace.t))
    (rest : list (MC (option Trace.t))) (otherwise : MC Trace.t) (c : Cache) :
  first_non_null (strategy :: rest) otherwise c
  = first_non_null [strategy] (first_non_null rest otherwise) c.
Proof. reflexivity. Qed.

Lemma first_non_null_returns (strategies : list (MC (option Trace.t)))
    (otherwise : MC Trace.t) :
  (forall c, exists t c', otherwise c = (Ret t, c')) ->
  forall c, exists t c', first_non_null strategies otherwise c = (Ret t, c').
Proof.
  intros Hlast. induction strategies as [|strategy rest IH]; intros c; [apply Hlast|].
  cbn [first_non_null]. destruct (strategy c) as [[[t|]|e] c']; eauto.
Qed.

Lemma failed_returns (ex : value) (c : Cache) :
  nullish ex = false ->
  exists t, failed ex c = (Ret t, c)
            /\ Trace.mode t = "failed" /\ Trace.stack t = None.
Proof.
  intros Hex. destruct ex as [[| | b | n | | s]|o]; try discriminate Hex;
    eexists; (split; [reflexivity | split; reflexivity]).
Qed.

End Orchestrator.

(** With [debug] off the nest of [try] blocks is the search for the first
    trace, in the order of the blocks. *)
Lemma computeStackTrace_first_non_null (env : Env) (chain : option (list Fn))
    (ex : value) (depth : prim) (c : Cache) :
  Config.debug (config env) = false ->
  computeStackTrace env chain ex depth c
  = first_non_null
      [ computeStackTraceFromStacktraceProp env ex;
        computeStackTraceFromStackProp env ex;
        computeStackTraceFromOperaMultiLineMessage env ex;
        walkingCallerChain env chain ex (add (depth_or_zero depth) (PNum 1)) ]
      (failed ex) c.
Proof.
  intros Hdebug. unfold computeStackTrace.
  rewrite (attempt_first_non_null env Hdebug), first_non_null_cons.
  cbn [first_non_null].
  destruct (computeStackTraceFromStacktraceProp env ex c) as [[[t|]|e] c1];
    try reflexivity;
    rewrite (attempt_first_non_null env Hdebug); cbn [first_non_null];
    (destruct (computeStackTraceFromStackProp env ex c1) as [[[t1|]|e1] c2];
     try reflexivity;
     rewrite (attempt_first_non_null env Hdebug); cbn [first_non_null];
     (destruct (computeStackTraceFromOperaMultiLineMessage env ex c2) as [[[t2|]|e2] c3];
      try reflexivity;
      rewrite (attempt_first_non_null env Hdebug); reflexivity)).
Qed.





(** For a value that is neither [null] nor [undefined] and has none of
  the trace properties, when the multi-line strategy gives nothing and
  the caller chain cannot be read, the result is the ['failed'] object,
  which has no frame array. *)
Lemma computeStackTrace_unrecoverable (env : Env) (ex : value) (depth : prim)
    (c c' : Cache) :
  Config.debug (config env) = false ->
  nullish ex = false ->
  (forall o, ex = VObj o ->
             truthy (Err.stacktrace o) = false /\ truthy (Err.stack o) = false) ->
  no_result (computeStackTraceFromOperaMultiLineMessage env ex) c c' ->
  exists t,
    computeStackTrace env None ex depth c = (Ret t, c')
    /\ Trace.mode t = "failed" /\ Trace.stack t = None /\ Trace.frames t = [].
Proof.
  intros Hdebug Hex Hfields Hmulti.
  rewrite (computeStackTrace_first_non_null env None ex depth c Hdebug).
  destruct (failed_returns ex c' Hex) as (t & Ht & Hmode & Hstack).
  exists t. split; [|split; [exact Hmode | split; [exact Hstack|]]].
  2:{ unfold Trace.frames. now rewrite Hstack. }
  assert (H1 : computeStackTraceFromStacktraceProp env ex c = (Ret None, c)).
  { destruct ex as [[| | b | n | | s]|o]; try discriminate Hex; try reflexivity.
    destruct (Hfields o eq_refl) as [H _].
    unfold computeStackTraceFromStacktraceProp, bind, prop, ret. now rewrite H. }
  assert (H2 : computeStackTraceFromStackProp env ex c = (Ret None, c)).
  { destruct ex as [[| | b | n | | s]|o]; try discriminate Hex; try reflexivity.
    destruct (Hfields o eq_refl) as [_ H].
    unfold computeStackTraceFromStackProp, bind, prop, ret. now rewrite H. }
  cbn [first_non_null]. rewrite H1, H2.
  destruct Hmulti as [H3|[e H3]]; rewrite H3; cbn; exact Ht.
Qed.

(** C3, at the value [undefined] (the reason of [Promise.reject()], or
  what [throw undefined] raises): every strategy raises and is caught,
  then the final [return] reads [ex.name] outside any [try] and raises. *)
Theorem computeStackTrace_undefined_raises :
  fst (computeStackTrace Samples.env None (VPrim PUndef) PUndef ∅)
  = Throw (Engine "TypeError" "Cannot read properties of undefined or null")
  /\ fst (computeStackTrace Samples.env None (VPrim PNull) PUndef ∅)
     = Throw (Engine "TypeError" "Cannot read properties of undefined or null").
Proof. split; reflexivity. Qed.

(** ** Dispatch to the subscribers *)

Section Dispatch.
Context (env : Env).

Lemma add_calls_nil (s : State) : add_calls [] s = s.
Proof. destruct s. unfold add_calls. cbn. now rewrite app_nil_r. Qed.

Lemma notify_loop_eq (hs : list Handler) (stack : option Trace.t)
    (isWindowError : bool) (error : value) :
  forall (exception : option exn) (s : State),
    notify_loop hs stack isWindowError error exception s
    = (Ret (last_raised hs stack isWindowError error exception),
       add_calls (deliveries hs stack isWindowError error) s).
Proof.
  induction hs as [|h rest IH]; intros exception s.
  - cbn. now rewrite add_calls_nil.
  - cbn [notify_loop last_raised deliveries List.map].
    unfold bind at 1, modify.
    destruct (h_run h stack isWindowError error) as [inner|];
      rewrite IH; f_equal; unfold add_calls, add_call; cbn;
      now rewrite <- app_assoc.
Qed.

(** What a dispatch that is not gated does: every subscriber is invoked
  once, in order, with the same three arguments; the outcome is the last
  exception raised when that value is truthy, a normal return if not. *)
Lemma notifyHandlers_eq (stack : option Trace.t) (isWindowError : bool)
    (error : value) (s : State) :
  isWindowError && negb (Config.collectWindowErrors (config env)) = false ->
  notifyHandlers env stack isWindowError error s
  = (match last_raised (handlers s) stack isWindowError error None with
     | Some e => if exn_truthy e then Throw e else Ret tt
     | None => Ret tt
     end,
     add_calls (deliveries (handlers s) stack isWindowError error) s).
Proof.
  intros Hgate. unfold notifyHandlers. rewrite Hgate.
  unfold bind at 1, get. unfold bind. rewrite notify_loop_eq.
  destruct (last_raised _ _ _ _ _) as [e|]; [destruct (exn_truthy e)|]; reflexivity.
Qed.

Lemma last_raised_none (hs : list Handler) (stack : option Trace.t)
    (isWindowError : bool) (error : value) (exception : option exn) :
  Forall (fun h => h_run h stack isWindowError error = None) hs ->
  last_raised hs stack isWindowError error exception = exception.
Proof.
  induction 1 as [|h rest Hh _ IH]; [reflexivity|].
  cbn. now rewrite Hh.
Qed.

Lemma last_raised_app (hs1 hs2 : list Handler) (stack : option Trace.t)
    (isWindowError : bool) (error : value) (exception : option exn) :
  last_raised (hs1 ++ hs2) stack isWindowError error exception
  = last_raised hs2 stack isWindowError error
      (last_raised hs1 stack isWindowError error exception).
Proof.
  revert exception. induction hs1 as [|h rest IH]; intros exception; [reflexivity|].
  cbn. destruct (h_run h stack isWindowError error); apply IH.
Qed.

(** The dispatch policy for exceptions that are truthy values: with
  subscribers [before ++ h :: after] where [h] raises [e] and none of
  [after] raises, all subscribers are invoked and [e] alone is raised,
  whatever the subscribers in [before] raised; when no subscriber
  raises, the dispatch returns normally. *)
Lemma notifyHandlers_policy (stack : option Trace.t) (error : value) (s : State) :
  (forall before h after e,
      handlers s = (before ++ h :: after)%list ->
      h_run h stack false error = Some e ->
      Forall (fun h' => h_run h' stack false error = None) after ->
      exn_truthy e = true ->
      notifyHandlers env stack false error s
      = (Throw e, add_calls (deliveries (handlers s) stack false error) s))
  /\ (Forall (fun h => h_run h stack false error = None) (handlers s) ->
      notifyHandlers env stack false error s
      = (Ret tt, add_calls (deliveries (handlers s) stack false error) s)).
Proof.
  split.
  - intros before h after e Hhs Hh Hafter He.
    rewrite notifyHandlers_eq by reflexivity.
    rewrite Hhs at 1. rewrite last_raised_app. cbn [last_raised]. rewrite Hh.
    rewrite last_raised_none by exact Hafter. now rewrite He.
  - intros Hnone. rewrite notifyHandlers_eq by reflexivity.
    now rewrite last_raised_none by exact Hnone.
Qed.

End Dispatch.

(** C7, at a subscriber that raises [null]: the subscriber is invoked, its
  exception is stored, and the dispatch returns normally because the
  test [if (exception)] takes the stored value for "no exception"; the
  same happens when an earlier subscriber raised an error object. *)
Theorem notifyHandlers_falsy_exception_lost :
  Samples.null_thrower.(h_run) None false Samples.e1 = Some (Raised (VPrim PNull))
  /\ fst (notifyHandlers Samples.env None false Samples.e1
            (Samples.with_handlers [Samples.null_thrower])) = Ret tt
  /\ fst (notifyHandlers Samples.env None false Samples.e1
            (Samples.with_handlers [Samples.thrower; Samples.null_thrower])) = Ret tt
  /\ calls (snd (notifyHandlers Samples.env None false Samples.e1
                   (Samples.with_handlers [Samples.thrower; Samples.null_thrower])))
     = deliveries [Samples.thrower; Samples.null_thrower] None false Samples.e1.
Proof. repeat split; reflexivity. Qed.

(** ** The pending report *)

Section Pending.
Context (env : Env).

Lemma processLastException_eq (s : State) :
  processLastException env s
  = notifyHandlers env (lastExceptionStack s) false (lastException s)
      (set_last (VPrim PNull) None s).
Proof. reflexivity. Qed.

Lemma processLastException_state (s : State) :
  snd (processLastException env s)
  = add_calls (deliveries (handlers s) (lastExceptionStack s) false (lastException s))
      (set_last (VPrim PNull) None s).
Proof.
  rewrite processLastException_eq, notifyHandlers_eq by reflexivity. reflexivity.
Qed.

Lemma same_value_null (x : value) :
  nullish x = false -> same_value (VPrim PNull) x = false.
Proof. destruct x as [[| | | | |]|]; intros H; try reflexivity; discriminate H. Qed.

Lemma same_value_obj_refl (o : Err.t) : same_value (VObj o) (VObj o) = true.
Proof. cbn. apply Nat.eqb_refl. Qed.


(** Once nothing is pending, the callbacks of [report] do nothing. *)
Lemma run_timers_idle (ts : list Timer) (s : State) :
  lastExceptionStack s = None ->
  lastException s = VPrim PNull ->
  Forall live_target ts ->
  run_timers env ts s = s.
Proof.
  intros Hstack Hex Hts. induction Hts as [|tm ts Htm _ IH]; [reflexivity|].
  cbn [run_timers]. unfold timer_callback, bind, get at 1.
  rewrite Hex, (same_value_null _ Htm). cbn. exact IH.
Qed.

(** While a report is pending, the first callback whose error is the
  pending one flushes it; the callbacks before it and after it do
  nothing. *)
Lemma run_timers_pending (ts : list Timer) (s : State) (ex : value) (t : Trace.t) :
  lastException s = ex ->
  lastExceptionStack s = Some t ->
  Forall live_target ts ->
  Exists (fun tm => same_value ex (timer_ex tm) = true) ts ->
  run_timers env ts s
  = add_calls (deliveries (handlers s) (Some t) false ex) (set_last (VPrim PNull) None s).
Proof.
  intros Hex Hstack Hts. induction Hts as [|tm ts Htm Hts IH]; intros Hsome.
  - inversion Hsome.
  - cbn [run_timers]. unfold timer_callback, bind, get at 1. rewrite Hex.
    destruct (same_value ex (timer_ex tm)) eqn:Hsame.
    + rewrite processLastException_state, Hstack, Hex.
      apply run_timers_idle; [reflexivity | reflexivity | exact Hts].
    + cbn. apply IH. inversion Hsome as [? ? H|? ? H]; subst; [congruence | exact H].
Qed.

Hypothesis debug_off : Config.debug (config env) = false.

Lemma computeStackTrace_returns (chain : option (list Fn)) (ex : value)
    (depth : prim) (c : Cache) :
  nullish ex = false ->
  exists t c', computeStackTrace env chain ex depth c = (Ret t, c').
Proof.
  intros Hex. rewrite (computeStackTrace_first_non_null env chain ex depth c debug_off).
  apply first_non_null_returns. intros c0.
  destruct (failed_returns ex c0 Hex) as (t & Ht & _). eauto.
Qed.

(** From the computation of the trace on, [report] stores the error and
  its trace, schedules the flush and raises the error. *)
Lemma report_pending_eq (chain : option (list Fn)) (ex : value) (s : State) :
  nullish ex = false ->
  exists t c',
    computeStackTrace env chain ex PUndef (sourceCache s) = (Ret t, c')
    /\ report_pending env chain ex s
       = (Throw (Raised ex),
          add_timer (report_timer ex t) (set_last ex (Some t) (set_sourceCache c' s))).
Proof.
  intros Hex.
  destruct (computeStackTrace_returns chain ex PUndef (sourceCache s) Hex) as (t & c' & E).
  exists t, c'. split; [exact E|].
  unfold report_pending, bind at 1, on_sourceCache. rewrite E. reflexivity.
Qed.

Lemma report_idle (chain : option (list Fn)) (ex : value) (s : State) :
  lastExceptionStack s = None ->
  report env chain ex s = report_pending env chain ex s.
Proof. intros H. unfold report, bind at 1, get. now rewrite H. Qed.

Lemma report_same (chain : option (list Fn)) (ex : value) (s : State) (t : Trace.t) :
  lastExceptionStack s = Some t ->
  same_value (lastException s) ex = true ->
  report env chain ex s = (Ret tt, s).
Proof. intros H1 H2. unfold report, bind at 1, get. now rewrite H1, H2. Qed.

Lemma report_other (chain : option (list Fn)) (ex : value) (s : State) (t : Trace.t) :
  lastExceptionStack s = Some t ->
  same_value (lastException s) ex = false ->
  report env chain ex s
  = bind (processLastException env) (fun _ => report_pending env chain ex) s.
Proof. intros H1 H2. unfold report, bind at 1, get. now rewrite H1, H2. Qed.

(** How a call of [report] can end with a report pending: by the early
    return, or by its last statement, having stored the error, its trace
    and one callback. *)
Lemma report_pending_inv (chain : option (list Fn)) (ex : value) (s s1 : State)
    (r : outcome unit) (t : Trace.t) :
  report_pending env chain ex s = (r, s1) ->
  lastExceptionStack s = None ->
  lastExceptionStack s1 = Some t ->
  r = Throw (Raised ex)
  /\ exists c', s1 = add_timer (report_timer ex t)
                       (set_last ex (Some t) (set_sourceCache c' s)).
Proof.
  unfold report_pending, bind at 1, on_sourceCache.
  destruct (computeStackTrace env chain ex PUndef (sourceCache s)) as [[t'|e] c'];
    cbn; intros [= <- <-] Hidle Hpending; cbn in Hpending.
  - injection Hpending as ->. split; [reflexivity | now exists c'].
  - congruence.
Qed.

Lemma report_inv (chain : option (list Fn)) (ex : value) (s s1 : State)
    (e : exn) (t : Trace.t) :
  report env chain ex s = (Throw e, s1) ->
  lastExceptionStack s1 = Some t ->
  e = Raised ex
  /\ exists s0, s1 = add_timer (report_timer ex t) (set_last ex (Some t) s0)
               /\ timers s0 = timers s
               /\ handlers s0 = handlers s.
Proof.
  unfold report, bind at 1, get.
  destruct (lastExceptionStack s) as [t0|] eqn:Hslot.
  - destruct (same_value (lastException s) ex); [discriminate|].
    unfold bind. pose proof (processLastException_state s) as Hstate.
    destruct (processLastException env s) as [[[]|e'] s'] eqn:Ep; cbn [snd] in Hstate.
    + intros Hrun Hpending.
      destruct (report_pending_inv chain ex s' s1 (Throw e) t Hrun) as [He (c' & ->)];
        [now rewrite Hstate | exact Hpending |].
      split; [congruence|]. eexists. split; [reflexivity|].
      rewrite Hstate. split; reflexivity.
    + intros [= <- <-] Hpending. rewrite Hstate in Hpending. discriminate Hpending.
  - intros Hrun Hpending.
    destruct (report_pending_inv chain ex s s1 (Throw e) t Hrun Hslot Hpending)
      as [He (c' & ->)].
    split; [congruence|]. eexists. split; [reflexivity|]. split; reflexivity.
Qed.



End Pending.

(** C9 (as amended). The flush first empties the slot and then delivers
  [(trace, false, error)] to every subscriber: it is the dispatch run
  from the state in which nothing is pending, so the slot is empty
  afterwards whether or not a subscriber's exception leaves the
  dispatch. *)
Theorem processLastException_clears_then_delivers (env : Env) (s : State) :
  processLastException env s
  = notifyHandlers env (lastExceptionStack s) false (lastException s)
      (set_last (VPrim PNull) None s)
  /\ calls (snd (processLastException env s))
     = (calls s ++ deliveries (handlers s) (lastExceptionStack s) false (lastException s))%list
  /\ lastExceptionStack (snd (processLastException env s)) = None
  /\ lastException (snd (processLastException env s)) = VPrim PNull.
Proof.
  split; [apply processLastException_eq|].
  rewrite processLastException_state. repeat split; reflexivity.
Qed.

(** C9, as it was stated: with a subscriber that raises, delivering first
  and clearing afterwards would leave the report pending, whereas the
  code leaves nothing pending. *)
Lemma processLastException_order_counterexample :
  fst (processLastException Samples.env (Samples.pending_e1 [Samples.thrower]))
  = Throw (Engine "Error" "subscriber failed")
  /\ lastExceptionStack
       (snd (processLastException Samples.env (Samples.pending_e1 [Samples.thrower])))
     = None
  /\ lastExceptionStack
       (snd (flush_deliver_then_clear Samples.env (Samples.pending_e1 [Samples.thrower])))
     <> None
  /\ processLastException Samples.env (Samples.pending_e1 [Samples.thrower])
     <> flush_deliver_then_clear Samples.env (Samples.pending_e1 [Samples.thrower]).
Proof.
  assert (H : lastExceptionStack
                (snd (flush_deliver_then_clear Samples.env
                        (Samples.pending_e1 [Samples.thrower]))) <> None)
    by (vm_compute; discriminate).
  repeat split; try reflexivity; try exact H.
  intros E. apply H. now rewrite <- E.
Qed.

(** C2 (as amended). [report(e)] re-raises [e] when it reaches its last
  statement: when nothing is pending, or when a report for a different
  error is pending and flushing it raises nothing ([e] being neither
  [null] nor [undefined]).  When a report for the same error (by
  identity) is already pending it returns normally and changes nothing.
  When a subscriber's exception leaves the flush of a different pending
  report, that exception is what [report(e)] raises. *)
Theorem report_reraises (env : Env) (chain : option (list Fn)) (ex : value) (s : State)
    (Hdebug : Config.debug (config env) = false) :
  (forall t,
      lastExceptionStack s = Some t ->
      same_value (lastException s) ex = true ->
      report env chain ex s = (Ret tt, s))
  /\ (nullish ex = false ->
      lastExceptionStack s = None ->
      fst (report env chain ex s) = Throw (Raised ex))
  /\ (nullish ex = false ->
      forall t,
        lastExceptionStack s = Some t ->
        same_value (lastException s) ex = false ->
        fst (processLastException env s) = Ret tt ->
        fst (report env chain ex s) = Throw (Raised ex))
  /\ (forall t e,
        lastExceptionStack s = Some t ->
        same_value (lastException s) ex = false ->
        fst (processLastException env s) = Throw e ->
        report env chain ex s = (Throw e, snd (processLastException env s))).
Proof.
  repeat split.
  - intros t. apply report_same.
  - intros Hex Hidle. rewrite report_idle by exact Hidle.
    destruct (report_pending_eq env Hdebug chain ex s Hex) as (t & c' & _ & E).
    now rewrite E.
  - intros Hex t Hstack Hother Hflush.
    rewrite (report_other env chain ex s t Hstack Hother). unfold bind.
    destruct (processLastException env s) as [r s'] eqn:E. cbn in Hflush. subst r.
    destruct (report_pending_eq env Hdebug chain ex s' Hex) as (t' & c' & _ & E').
    now rewrite E'.
  - intros t e Hstack Hother Hflush.
    rewrite (report_other env chain ex s t Hstack Hother). unfold bind.
    destruct (processLastException env s) as [r s'] eqn:E. cbn in Hflush. now subst r.
Qed.

(** C2, as it was stated: a second [report] of the error that is pending
  returns normally instead of raising it. *)
Lemma report_reraises_counterexample :
  fst (report Samples.env None Samples.e1 (Samples.pending_e1 [Samples.quiet])) = Ret tt
  /\ fst (report Samples.env None Samples.e1 (Samples.pending_e1 [Samples.quiet]))
     <> Throw (Raised Samples.e1).
Proof. split; [reflexivity | vm_compute; discriminate]. Qed.

Lemma report_reraises_witness :
  fst (report Samples.env None Samples.e1 (Samples.with_handlers [Samples.quiet]))
  = Throw (Raised Samples.e1).
Proof.
  apply (proj1 (proj2 (report_reraises Samples.env None Samples.e1
                         (Samples.with_handlers [Samples.quiet]) eq_refl)));
    reflexivity.
Defined.


(** From a state in which nothing is pending, and with [debug] off, the
    first call does raise the error and leave its report pending. *)
Lemma report_from_idle (env : Env) (chain : option (list Fn)) (o : Err.t) (s : State) :
  Config.debug (config env) = false ->
  lastExceptionStack s = None ->
  exists t s1,
    report env chain (VObj o) s = (Throw (Raised (VObj o)), s1)
    /\ lastExceptionStack s1 = Some t
    /\ calls s1 = calls s /\ handlers s1 = handlers s.
Proof.
  intros Hdebug Hidle.
  destruct (report_pending_eq env Hdebug chain (VObj o) s eq_refl) as (t & c' & _ & E).
  rewrite <- (report_idle env chain (VObj o) s Hidle) in E.
  eexists t, _. split; [exact E|]. repeat split.
Qed.





(** ** The pattern of [findSourceInLine] *)

Lemma escape_class_lit :
  lit false "[\-\[\]{}()*+?.,\\\^$|#]" = Grp 0 (Seq (Chr false false syntax_items) Eps).
Proof. reflexivity. Qed.

Lemma append_assoc (a b c : string) : (a +:+ b) +:+ c = a +:+ b +:+ c.
Proof.
  induction a as [|x a IH]; [reflexivity|].
  change (String x ((a +:+ b) +:+ c) = String x (a +:+ b +:+ c)). now rewrite IH.
Qed.

Lemma string_length_append (a b : string) :
  String.length (a +:+ b) = (String.length a + String.length b)%nat.
Proof.
  induction a as [|x a IH]; [reflexivity|].
  change (S (String.length (a +:+ b)) = S (String.length a + String.length b)).
  now rewrite IH.
Qed.

Lemma take_one (c : ascii) (s : string) : take 1 (String c s) = String c "".
Proof. unfold take. cbn. destruct s; reflexivity. Qed.

Lemma take_zero (s : string) : take 0 s = "".
Proof. unfold take. destruct s; reflexivity. Qed.

Lemma take_S (n : nat) (c : ascii) (s : string) :
  take (S n) (String c s) = String c (take n s).
Proof. reflexivity. Qed.

Section OneCharacterClass.
Context (negated ci : bool) (items : list item).
Let r : re := Grp 0 (Seq (Chr negated ci items) Eps).
Let p : ascii -> bool := class_matches negated ci items.

(** The leftmost character of the class, if there is one. *)
Lemma search_class (s : string) :
  forall prev pos,
    match search r prev s pos with
    | None => forall f, map_class p f s = s
    | Some (i, st) =>
        exists n c post,
          i = (pos + n)%nat
          /\ (forall f, map_class p f s
                        = take n s +:+ f (String c "") +:+ map_class p f post)
          /\ lookup_cap 0 (m_caps st) = PStr (String c "")
          /\ m_rest st = post /\ m_pos st = S i
          /\ (String.length post < String.length s)%nat
    end.
Proof.
  induction s as [|c s IH]; intros prev pos.
  - cbn. reflexivity.
  - cbn [search]. unfold r at 1. cbn [rmatch m_rest m_pos m_caps m_prev].
    fold p. destruct (p c) eqn:Hp.
    + exists 0%nat, c, s. cbn [m_caps m_rest m_pos lookup_cap Nat.eqb].
      replace (S pos - pos)%nat with 1%nat by lia. rewrite take_one.
      repeat split; try lia.
      * intros f. cbn [map_class]. now rewrite Hp, take_zero.
      * cbn. lia.
    + specialize (IH (Some c) (S pos)). fold r.
      destruct (search r (Some c) s (S pos)) as [[i st]|].
      * destruct IH as (n & d & post & -> & Hmap & Hcap & Hrest & Hpos & Hlen).
        exists (S n), d, post.
        split; [lia|]. split; [|split; [exact Hcap|split; [exact Hrest|split]]].
        -- intros f. cbn [map_class]. now rewrite Hp, Hmap, take_S.
        -- rewrite Hpos. lia.
        -- cbn. lia.
      * intros f. cbn [map_class]. now rewrite Hp, IH.
Qed.

Lemma replace_loop_class (f : string -> string) (fuel : nat) :
  forall s prev pos,
    (String.length s < fuel)%nat ->
    replace_loop fuel true r f prev s pos = map_class p f s.
Proof.
  induction fuel as [|fuel IH]; intros s prev pos Hfuel; [lia|].
  cbn [replace_loop]. pose proof (search_class s prev pos) as Hs.
  destruct (search r prev s pos) as [[i st]|].
  - destruct Hs as (n & c & post & -> & Hmap & Hcap & Hrest & Hpos & Hlen).
    rewrite Hcap, Hrest, Hpos. cbn [negb].
    destruct (Nat.eqb_spec (S (pos + n)) (pos + n)) as [E|_]; [lia|].
    replace (pos + n - pos)%nat with n by lia.
    rewrite IH by lia. rewrite Hmap.
    now rewrite append_assoc.
  - now rewrite Hs.
Qed.

(** A global replace of a one-character class is a map over the
  characters. *)
Lemma replace_class (f : string -> string) (s : string) :
  replace true r f s = map_class p f s.
Proof. unfold replace. apply replace_loop_class. lia. Qed.

End OneCharacterClass.

Lemma escapeRegExp_eq (s : string) : escapeRegExp s = escape_chars s.
Proof.
  unfold escapeRegExp. rewrite escape_class_lit, replace_class.
  induction s as [|c s IH]; [reflexivity|].
  cbn [map_class escape_chars]. fold (is_syntax c). rewrite IH.
  destruct (is_syntax c); reflexivity.
Qed.

Ltac each_ascii c := destruct c as [[] [] [] [] [] [] [] []].

Lemma parse_quantifier_plain (c : ascii) (s : string) :
  is_syntax c = false -> parse_quantifier (String c s) = None.
Proof. each_ascii c; intros H; first [reflexivity | vm_compute in H; discriminate H]. Qed.

Lemma parse_escape_syntax (c : ascii) (s : string) :
  is_syntax c = true -> parse_escape (String c s) = Some (ECode (nat_of_ascii c), s).
Proof. each_ascii c; intros H; first [reflexivity | vm_compute in H; discriminate H]. Qed.

Lemma parse_term_plain (c : ascii) (fuel : nat) (s : string) (n : nat) :
  is_syntax c = false ->
  parse_term false (S fuel) (String c s) n
  = (let '(q, rest) := quantified (literal false (nat_of_ascii c)) s in Some (q, rest, n)).
Proof. each_ascii c; intros H; first [reflexivity | vm_compute in H; discriminate H]. Qed.

Lemma parse_alt_plain (c : ascii) (fuel : nat) (s : string) (n : nat) :
  is_syntax c = false ->
  parse_alt false (S fuel) (String c s) n
  = match parse_term false fuel (String c s) n with
    | Some (a, s', n') =>
        match parse_alt false fuel s' n' with
        | Some (b, s'', n'') => Some (Seq a b, s'', n'')
        | None => None
        end
    | None => None
    end.
Proof. each_ascii c; intros H; first [reflexivity | vm_compute in H; discriminate H]. Qed.

Lemma parse_alt_backslash (fuel : nat) (s : string) (n : nat) :
  parse_alt false (S fuel) (String "\" s) n
  = match parse_term false fuel (String "\" s) n with
    | Some (a, s', n') =>
        match parse_alt false fuel s' n' with
        | Some (b, s'', n'') => Some (Seq a b, s'', n'')
        | None => None
        end
    | None => None
    end.
Proof. reflexivity. Qed.

Lemma parse_term_backslash (fuel : nat) (s : string) (n : nat) :
  parse_term false (S fuel) (String "\" s) n
  = match parse_escape s with
    | Some (EBoundary b, s'') => Some (Wb b, s'', n)
    | Some (EClass i, s'') =>
        let '(q, rest) := quantified (Chr false false [i]) s'' in Some (q, rest, n)
    | Some (ECode c, s'') =>
        let '(q, rest) := quantified (literal false c) s'' in Some (q, rest, n)
    | None => None
    end.
Proof. reflexivity. Qed.

(** What follows an escaped text is never read as a quantifier. *)
Lemma quantified_escaped (a : re) (text tail : string) :
  parse_quantifier tail = None ->
  quantified a (escape_chars text +:+ tail) = (a, escape_chars text +:+ tail).
Proof.
  intros Htail. unfold quantified.
  destruct text as [|c text]; cbn [escape_chars].
  - change ("" +:+ tail) with tail. now rewrite Htail.
  - destruct (is_syntax c) eqn:Hc; [reflexivity|].
    change (String c (escape_chars text) +:+ tail)
      with (String c (escape_chars text +:+ tail)).
    now rewrite (parse_quantifier_plain c _ Hc).
Qed.

Lemma parse_alt_escaped (text : string) :
  forall fuel n,
    (String.length text + 3 <= fuel)%nat ->
    exists r, parse_alt false fuel (escape_chars text +:+ "\b") n = Some (r, "", n).
Proof.
  induction text as [|c text IH]; intros fuel n Hfuel.
  - do 3 (destruct fuel as [|fuel]; [cbn in Hfuel; lia|]).
    eexists. reflexivity.
  - destruct fuel as [|fuel]; [lia|]. cbn in Hfuel.
    destruct fuel as [|fuel]; [lia|].
    destruct (IH (S fuel) n ltac:(lia)) as [r Hr].
    cbn [escape_chars]. destruct (is_syntax c) eqn:Hc.
    + change (String "\" (String c (escape_chars text)) +:+ "\b")
        with (String "\" (String c (escape_chars text +:+ "\b"))).
      rewrite parse_alt_backslash, parse_term_backslash.
      rewrite (parse_escape_syntax c _ Hc).
      rewrite quantified_escaped by reflexivity.
      rewrite Hr. eexists. reflexivity.
    + change (String c (escape_chars text) +:+ "\b")
        with (String c (escape_chars text +:+ "\b")).
      rewrite (parse_alt_plain c _ _ _ Hc).
      rewrite (parse_term_plain c _ _ _ Hc).
      rewrite quantified_escaped by reflexivity.
      rewrite Hr. eexists. reflexivity.
Qed.

Lemma escape_chars_length (s : string) :
  (String.length s <= String.length (escape_chars s))%nat.
Proof.
  induction s as [|c s IH]; [reflexivity|].
  cbn [escape_chars]. destruct (is_syntax c); cbn; lia.
Qed.

(** The pattern [findSourceInLine] builds is always well formed. *)
Lemma regexp_word (fragment : string) :
  exists r, regexp false ("\b" +:+ escapeRegExp fragment +:+ "\b") = Some r.
Proof.
  rewrite escapeRegExp_eq. unfold regexp.
  set (E := escape_chars fragment +:+ "\b").
  change ("\b" +:+ E) with (String "\" (String "b" E)).
  assert (Hlen : (String.length fragment + 2 <= String.length E)%nat).
  { unfold E. rewrite string_length_append. pose proof (escape_chars_length fragment).
    cbn. lia. }
  cbn [String.length].
  set (F := (4 * S (S (String.length E)) + 4)%nat).
  assert (HF : exists F3, F = S (S (S F3)) /\ (String.length fragment + 3 <= S F3)%nat).
  { exists (F - 3)%nat. unfold F. lia. }
  destruct HF as (F3 & -> & HF3).
  destruct (parse_alt_escaped fragment (S F3) 1%nat HF3) as [r Hr]. fold E in Hr.
  change (parse_disj false (S (S (S F3))) (String "\" (String "b" E)) 1)
    with (match parse_alt false (S (S F3)) (String "\" (String "b" E)) 1 with
          | Some (a, String "|" s', n') =>
              match parse_disj false (S (S F3)) s' n' with
              | Some (b, s'', n'') => Some (Alt a b, s'', n'')
              | None => None
              end
          | other => other
          end).
  rewrite parse_alt_backslash, parse_term_backslash.
  change (parse_escape (String "b" E)) with (Some (EBoundary true, E)).
  cbv iota beta. rewrite Hr. eexists. reflexivity.
Qed.

(** ** Augmentation *)

Section Augmentation.
Context (env : Env).

Lemma getSource_returns (url : prim) (c : Cache) :
  exists lines c', getSource env url c = (Ret lines, c').
Proof.
  destruct url as [| | b | n | | u]; try (eexists _, _; reflexivity).
  unfold getSource, bind, get. destruct (c !! u); eexists _, _; reflexivity.
Qed.

Lemma guessFunctionName_returns (url lineNo : prim) (c : Cache) :
  exists name c', guessFunctionName env url lineNo c = (Ret name, c').
Proof.
  destruct (getSource_returns url c) as (lines & c' & E).
  unfold guessFunctionName. rewrite (bind_eq_ret _ _ _ _ _ E).
  destruct (length lines =? 0)%nat; eexists _, _; reflexivity.
Qed.

Lemma gatherContext_returns (url line : prim) (c : Cache) :
  exists context c', gatherContext env url line c = (Ret context, c').
Proof.
  destruct (getSource_returns url c) as (lines & c' & E).
  unfold gatherContext. rewrite (bind_eq_ret _ _ _ _ _ E).
  destruct (length lines =? 0)%nat; eexists _, _; reflexivity.
Qed.

Lemma findSourceInLine_returns (fragment : string) (url line : prim) (c : Cache) :
  exists column c', findSourceInLine env fragment url line c = (Ret column, c').
Proof.
  destruct (getSource_returns url c) as (lines & c' & E).
  destruct (regexp_word fragment) as [r Hr].
  unfold findSourceInLine. rewrite (bind_eq_ret _ _ _ _ _ E).
  unfold new_RegExp. rewrite Hr. rewrite bind_ret_l.
  destruct (to_number (sub line (PNum 1))) as [l|]; [|eexists _, _; reflexivity].
  destruct (l <? Z.of_nat (length lines)); [|eexists _, _; reflexivity].
  destruct (exec_prim r _); eexists _, _; reflexivity.
Qed.

(** The candidate top frame is always built; it carries the url and the
  line it was given. *)
Lemma initial_element_returns (url lineNo message : prim) (c : Cache) :
  exists initial c',
    initial_element env url lineNo message c = (Ret initial, c')
    /\ Frame.url initial = url /\ Frame.line initial = lineNo.
Proof.
  destruct (guessFunctionName_returns url lineNo c) as (func & c1 & E1).
  destruct (gatherContext_returns url lineNo c1) as (context & c2 & E2).
  unfold initial_element.
  rewrite (bind_eq_ret _ _ _ _ _ E1), (bind_eq_ret _ _ _ _ _ E2).
  destruct (exec_prim quotedName message) as [reference|].
  - destruct (findSourceInLine_returns (group_string reference 1) url lineNo c2)
      as (column & c3 & E3).
    rewrite (bind_eq_ret _ _ _ _ _ E3). eexists _, _. repeat split.
  - rewrite bind_ret_l. eexists _, _. repeat split.
Qed.

End Augmentation.

(** C4 (as amended). For a trace that has a frame array and a url and line
  that are both truthy, the candidate top frame [initial] is built and
  [incomplete] is set to [false]; then: top frame with the same url and
  the same line, the frames are unchanged and the answer is [false]; top
  frame with the same url, no line, and the function name of the
  candidate, its line and context are written in place (same number of
  frames) and the answer is [false]; in every other case the candidate
  becomes the new top frame, [partial] is set to [true] and the answer is
  [true].  When url or line is falsy, [incomplete] is set to [true],
  nothing else changes and the answer is [false]. *)
Theorem augmentStackTraceWithInitialElement_policy (env : Env) (c : Cache)
    (stackInfo : Trace.t) (url lineNo message : prim) :
  (truthy url && truthy lineNo = true ->
   forall frames : list Frame.t,
     Trace.stack stackInfo = Some frames ->
     exists (initial : Frame.t) (c' : Cache),
       initial_element env url lineNo message c = (Ret initial, c')
       /\ Frame.url initial = url
       /\ Frame.line initial = lineNo
       /\ (forall top below,
              frames = top :: below ->
              strict_eq (Frame.url top) url = true ->
              strict_eq (Frame.line top) lineNo = true ->
              augmentStackTraceWithInitialElement env url lineNo message (c, stackInfo)
              = (Ret false, (c', Trace.set_incomplete false stackInfo)))
       /\ (forall top below,
              frames = top :: below ->
              strict_eq (Frame.url top) url = true ->
              strict_eq (Frame.line top) lineNo = false ->
              truthy (Frame.line top) = false ->
              strict_eq (Frame.func top) (Frame.func initial) = true ->
              augmentStackTraceWithInitialElement env url lineNo message (c, stackInfo)
              = (Ret false,
                 (c', Trace.set_stack
                        (Frame.set_context (Frame.context initial)
                           (Frame.set_line lineNo top) :: below)
                        (Trace.set_incomplete false stackInfo))))
       /\ ((frames = []
            \/ exists top below,
                 frames = top :: below
                 /\ (strict_eq (Frame.url top) url = false
                     \/ (strict_eq (Frame.line top) lineNo = false
                         /\ (truthy (Frame.line top) = true
                             \/ strict_eq (Frame.func top) (Frame.func initial) = false)))) ->
           augmentStackTraceWithInitialElement env url lineNo message (c, stackInfo)
           = (Ret true,
              (c', Trace.set_partial true
                     (Trace.set_stack (initial :: frames)
                        (Trace.set_incomplete false stackInfo))))))
  /\ (truthy url && truthy lineNo = false ->
      augmentStackTraceWithInitialElement env url lineNo message (c, stackInfo)
      = (Ret false, (c, Trace.set_incomplete true stackInfo))).
Proof.
  split.
  - intros Hpresent frames Hstack.
    destruct (initial_element_returns env url lineNo message c)
      as (initial & c' & E & Hu & Hl).
    exists initial, c'. split; [exact E|]. split; [exact Hu|]. split; [exact Hl|].
    assert (Hrun : augmentStackTraceWithInitialElement env url lineNo message (c, stackInfo)
                   = match frames with
                     | [] => unshift initial []
                     | top :: below =>
                         if strict_eq (Frame.url top) (Frame.url initial) then
                           if strict_eq (Frame.line top) (Frame.line initial) then ret false
                           else if negb (truthy (Frame.line top))
                                   && strict_eq (Frame.func top) (Frame.func initial) then
                             modify_trace
                               (Trace.set_stack
                                  (Frame.set_context (Frame.context initial)
                                     (Frame.set_line (Frame.line initial) top) :: below)) ;;;
                             ret false
                           else unshift initial (top :: below)
                         else unshift initial (top :: below)
                     end%js (c', Trace.set_incomplete false stackInfo)).
    { unfold augmentStackTraceWithInitialElement. rewrite Hpresent.
      unfold bind at 1, modify_trace at 1. cbn [fst snd].
      unfold bind at 1, on_cache. cbn [fst snd]. rewrite E.
      unfold bind at 1, get_trace. cbn [snd Trace.stack Trace.set_incomplete].
      rewrite Hstack. reflexivity. }
    rewrite Hrun, Hu, Hl. repeat split.
    + intros top below -> Hurl Hline. now rewrite Hurl, Hline.
    + intros top below -> Hurl Hline Hnone Hfunc.
      now rewrite Hurl, Hline, Hnone, Hfunc.
    + intros [->|(top & below & -> & Hother)]; [reflexivity|].
      destruct Hother as [Hurl|[Hline [Hsome|Hfunc]]].
      * now rewrite Hurl.
      * rewrite Hline, Hsome. now destruct (strict_eq (Frame.url top) url).
      * rewrite Hline, Hfunc, andb_false_r.
        now destruct (strict_eq (Frame.url top) url).
  - intros Hmissing. unfold augmentStackTraceWithInitialElement.
    now rewrite Hmissing.
Qed.

(** C4, as it was stated: on the top frame that has the url and the line
  already, the trace does change (its [incomplete] flag goes from [true]
  to [false]); and on the ['failed'] object, which has no frame array,
  the call raises. *)
Lemma augmentStackTraceWithInitialElement_counterexample :
  augmentStackTraceWithInitialElement Samples.env
    (PStr "http://localhost/app.js") (PNum 10) (PStr "boom")
    (∅, Samples.incomplete_trace)
  = (Ret false,
     ({[ "http://localhost/app.js" := [] ]},
      Trace.set_incomplete false Samples.incomplete_trace))
  /\ Trace.set_incomplete false Samples.incomplete_trace <> Samples.incomplete_trace
  /\ fst (augmentStackTraceWithInitialElement Samples.env
            (PStr "http://localhost/app.js") (PNum 10) (PStr "boom")
            (∅, Samples.failed_trace))
     = Throw (Engine "TypeError" "Cannot read properties of undefined (reading 'length')").
Proof.
  split; [|split].
  - vm_compute. reflexivity.
  - discriminate.
  - vm_compute. reflexivity.
Qed.

Lemma augmentStackTraceWithInitialElement_policy_witness :
  (exists c' : Cache,
      augmentStackTraceWithInitialElement Samples.env
        (PStr "http://localhost/app.js") (PNum 10) (PStr "boom")
        (∅, Samples.incomplete_trace)
      = (Ret false, (c', Trace.set_incomplete false Samples.incomplete_trace)))
  /\ augmentStackTraceWithInitialElement Samples.env
       PUndef (PNum 10) (PStr "boom") (∅, Samples.incomplete_trace)
     = (Ret false, (∅, Trace.set_incomplete true Samples.incomplete_trace)).
Proof.
  split.
  - destruct (proj1 (augmentStackTraceWithInitialElement_policy Samples.env ∅
                       Samples.incomplete_trace
                       (PStr "http://localhost/app.js") (PNum 10) (PStr "boom"))
                eq_refl [Samples.frame_app_10] eq_refl)
      as (initial & c' & _ & _ & _ & Hsame & _).
    exists c'. apply (Hsame Samples.frame_app_10 []); reflexivity.
  - apply (proj2 (augmentStackTraceWithInitialElement_policy Samples.env ∅
                    Samples.incomplete_trace PUndef (PNum 10) (PStr "boom"))).
    reflexivity.
Defined.

(** ** Instances *)

Lemma remoteFetching_off_no_source_witness :
  getSource Samples.env (PStr "http://localhost/app.js") ∅
  = (Ret [], {[ "http://localhost/app.js" := [] ]})
  /\ fst (guessFunctionName Samples.env (PStr "http://localhost/app.js") (PNum 10) ∅)
     = Ret (PStr "?")
  /\ fst (gatherContext Samples.env (PStr "http://localhost/app.js") (PNum 10) ∅)
     = Ret CNull.
Proof.
  split.
  - apply (proj1 (remoteFetching_off_no_source Samples.env eq_refl)). reflexivity.
  - apply (proj2 (remoteFetching_off_no_source Samples.env eq_refl)). constructor.
Defined.

Lemma gatherContext_window_witness :
  (exists window : list string,
      gatherContext Samples.env (PStr "http://localhost/app.js") (PNum 6) Samples.cache12
      = (Ret (CArr (List.map PStr window)), Samples.cache12)
      /\ length window = 11%nat
      /\ window = firstn 11 (skipn (Z.to_nat (6 - 6)) Samples.twelve_lines)
      /\ window !! 5%nat = Samples.twelve_lines !! Z.to_nat (6 - 1)
      /\ is_Some (window !! 5%nat))
  /\ (exists window : list string,
        gatherContext Samples.env (PStr "http://localhost/app.js") (PNum 2) Samples.cache12
        = (Ret (CArr (List.map PStr window)), Samples.cache12)
        /\ (length window < 11)%nat
        /\ window = firstn (Z.to_nat (2 + 5)) Samples.twelve_lines
        /\ window !! Z.to_nat (2 - 1) = Samples.twelve_lines !! Z.to_nat (2 - 1)
        /\ is_Some (window !! Z.to_nat (2 - 1)))
  /\ gatherContext Samples.env (PStr "http://localhost/app.js") (PNum 40) Samples.cache12
     = (Ret CNull, Samples.cache12).
Proof.
  pose proof (gatherContext_window Samples.env Samples.cache12 Samples.cache12
                (PStr "http://localhost/app.js") Samples.twelve_lines eq_refl eq_refl)
    as (Hfull & Htop & _ & Hempty).
  split; [|split].
  - apply Hfull; cbn; lia.
  - apply Htop; cbn; lia.
  - apply Hempty. cbn. lia.
Defined.

(** ** What the operations do to the cache *)

Section Preserves.
Context (P : Cache -> Prop).

Lemma preserves_ret {A} (a : A) : preserves P (ret a).
Proof. intros c Hc. exact Hc. Qed.

Lemma preserves_throw {A} (e : exn) : preserves P (@throw Cache A e).
Proof. intros c Hc. exact Hc. Qed.

Lemma preserves_bind {A B} (m : MC A) (k : A -> MC B) :
  preserves P m -> (forall a, preserves P (k a)) -> preserves P (bind m k).
Proof.
  intros Hm Hk c Hc. unfold bind. specialize (Hm c Hc).
  destruct (m c) as [[a|e] c']; cbn in *; [now apply Hk | exact Hm].
Qed.

Lemma preserves_try_catch {A} (m : MC A) (h : exn -> MC A) :
  preserves P m -> (forall e, preserves P (h e)) -> preserves P (try_catch m h).
Proof.
  intros Hm Hh c Hc. unfold try_catch. specialize (Hm c Hc).
  destruct (m c) as [[a|e] c']; cbn in *; [exact Hm | now apply Hh].
Qed.

Lemma preserves2_ret {A} (a : A) : preserves2 P (ret a).
Proof. intros c Hc. exact Hc. Qed.

Lemma preserves2_throw {A} (e : exn) : preserves2 P (@throw (Cache * Trace.t) A e).
Proof. intros c Hc. exact Hc. Qed.

Lemma preserves2_bind {A B} (m : M (Cache * Trace.t) A) (k : A -> M (Cache * Trace.t) B) :
  preserves2 P m -> (forall a, preserves2 P (k a)) -> preserves2 P (bind m k).
Proof.
  intros Hm Hk c Hc. unfold bind. specialize (Hm c Hc).
  destruct (m c) as [[a|e] c']; cbn in *; [now apply Hk | exact Hm].
Qed.

Lemma preserves2_on_cache {A} (m : MC A) : preserves P m -> preserves2 P (on_cache m).
Proof.
  intros Hm [c t] Hc. unfold on_cache. cbn in *. specialize (Hm c Hc).
  destruct (m c) as [r c']. exact Hm.
Qed.

Lemma preserves2_modify_trace (f : Trace.t -> Trace.t) : preserves2 P (modify_trace f).
Proof. intros s Hs. exact Hs. Qed.

Lemma preserves2_get_trace : preserves2 P get_trace.
Proof. intros s Hs. exact Hs. Qed.

End Preserves.

Create HintDb preserves.
#[local] Hint Resolve preserves_ret preserves_throw preserves2_ret preserves2_throw
  preserves2_modify_trace preserves2_get_trace : preserves.

Ltac preserves_step :=
  match goal with
  | |- preserves _ (bind _ _) => apply preserves_bind; [|intros ?]
  | |- preserves _ (try_catch _ _) => apply preserves_try_catch; [|intros ?]
  | |- preserves2 _ (bind _ _) => apply preserves2_bind; [|intros ?]
  | |- preserves2 _ (on_cache _) => apply preserves2_on_cache
  | |- preserves _ (type_error _) => apply preserves_throw
  | |- preserves2 _ (type_error _) => apply preserves2_throw
  | |- preserves _ (match ?x with _ => _ end) => destruct x
  | |- preserves2 _ (match ?x with _ => _ end) => destruct x
  | |- preserves _ (let _ := _ in _) => cbv zeta
  | |- preserves2 _ (let _ := _ in _) => cbv zeta
  | _ => solve [auto with preserves]
  end.

Ltac preserves_tac := repeat preserves_step.

(** Every operation of the module touches the cache through [getSource]
  alone: a property of caches that [getSource] keeps is kept by all of
  them. *)
Section Reachable.
Context (env : Env) (P : Cache -> Prop).
Hypothesis getSource_keeps : forall url : prim, preserves P (getSource env url).

Lemma preserves_getSource (url : prim) : preserves P (getSource env url).
Proof. apply getSource_keeps. Qed.
#[local] Hint Resolve preserves_getSource : preserves.

Lemma preserves_guessFunctionName (url lineNo : prim) :
  preserves P (guessFunctionName env url lineNo).
Proof. unfold guessFunctionName. preserves_tac. Qed.
#[local] Hint Resolve preserves_guessFunctionName : preserves.

Lemma preserves_gatherContext (url line : prim) :
  preserves P (gatherContext env url line).
Proof. unfold gatherContext. preserves_tac. Qed.
#[local] Hint Resolve preserves_gatherContext : preserves.

Lemma preserves_new_RegExp (ci : bool) (pattern : string) :
  preserves P (new_RegExp ci pattern).
Proof. unfold new_RegExp. preserves_tac. Qed.
#[local] Hint Resolve preserves_new_RegExp : preserves.

Lemma preserves_findSourceInLine (fragment : string) (url line : prim) :
  preserves P (findSourceInLine env fragment url line).
Proof. unfold findSourceInLine. preserves_tac. Qed.
#[local] Hint Resolve preserves_findSourceInLine : preserves.

Lemma preserves_findSourceInUrls (r : re) (urls : list prim) :
  preserves P (findSourceInUrls env r urls).
Proof. induction urls as [|u rest IH]; cbn [findSourceInUrls]; preserves_tac. Qed.
#[local] Hint Resolve preserves_findSourceInUrls : preserves.

Lemma preserves_findSourceByFunctionBody (func : Fn) :
  preserves P (findSourceByFunctionBody env func).
Proof. unfold findSourceByFunctionBody. preserves_tac. Qed.
#[local] Hint Resolve preserves_findSourceByFunctionBody : preserves.

Lemma preserves_prop (p : Err.t -> prim) (ex : value) : preserves P (prop p ex).
Proof. unfold prop. preserves_tac. Qed.
#[local] Hint Resolve preserves_prop : preserves.

Lemma preserves_prop_or (a b : Err.t -> prim) (ex : value) : preserves P (prop_or a b ex).
Proof. unfold prop_or. preserves_tac. Qed.
#[local] Hint Resolve preserves_prop_or : preserves.

Lemma preserves_split_method (v : prim) : preserves P (split_method v).
Proof. unfold split_method. preserves_tac. Qed.
#[local] Hint Resolve preserves_split_method : preserves.

Lemma preserves_replace_method (next : option string) (f : string -> string) :
  preserves P (replace_method next f).
Proof. unfold replace_method. preserves_tac. Qed.
#[local] Hint Resolve preserves_replace_method : preserves.

Lemma preserves_push_element (element : Frame.t) (stack : list Frame.t) :
  preserves P (push_element env element stack).
Proof. unfold push_element. preserves_tac. Qed.
#[local] Hint Resolve preserves_push_element : preserves.

Lemma preserves_stack_lines (ex : value) (lines : list string) :
  forall i stack, preserves P (stack_lines env ex lines i stack).
Proof.
  induction lines as [|l rest IH]; intros i stack; cbn [stack_lines]; preserves_tac.
Qed.
#[local] Hint Resolve preserves_stack_lines : preserves.

Lemma preserves_computeStackTraceFromStackProp (ex : value) :
  preserves P (computeStackTraceFromStackProp env ex).
Proof. unfold computeStackTraceFromStackProp. preserves_tac. Qed.
#[local] Hint Resolve preserves_computeStackTraceFromStackProp : preserves.

Lemma preserves_stacktrace_element (l : string) (next : option string) (stack : list Frame.t) :
  preserves P (stacktrace_element env l next stack).
Proof. unfold stacktrace_element. preserves_tac. Qed.
#[local] Hint Resolve preserves_stacktrace_element : preserves.

Lemma preserves_stacktrace_lines (lines : list string) :
  forall stack, preserves P (stacktrace_lines env lines stack).
Proof.
  assert (H : forall n lines, (length lines <= n)%nat ->
                forall stack, preserves P (stacktrace_lines env lines stack)).
  { induction n as [|n IH]; intros [|l after] Hlen stack; cbn [stacktrace_lines];
      try (cbn in Hlen; lia); preserves_tac; apply IH; cbn in Hlen; lia. }
  intros stack. now apply (H (length lines)).
Qed.
#[local] Hint Resolve preserves_stacktrace_lines : preserves.

Lemma preserves_computeStackTraceFromStacktraceProp (ex : value) :
  preserves P (computeStackTraceFromStacktraceProp env ex).
Proof. unfold computeStackTraceFromStacktraceProp. preserves_tac. Qed.
#[local] Hint Resolve preserves_computeStackTraceFromStacktraceProp : preserves.

Lemma preserves_multiline_item (w : Window) (blocks : list Script) (l : string)
    (next : option string) :
  preserves P (multiline_item env w blocks l next).
Proof. unfold multiline_item. preserves_tac. Qed.
#[local] Hint Resolve preserves_multiline_item : preserves.

Lemma preserves_multiline_element (w : Window) (blocks : list Script) (l : string)
    (next : option string) (stack : list Frame.t) :
  preserves P (multiline_element env w blocks l next stack).
Proof. unfold multiline_element. preserves_tac. Qed.
#[local] Hint Resolve preserves_multiline_element : preserves.

Lemma preserves_multiline_lines (w : Window) (blocks : list Script) (lines : list string) :
  forall stack, preserves P (multiline_lines env w blocks lines stack).
Proof.
  assert (H : forall n lines, (length lines <= n)%nat ->
                forall stack, preserves P (multiline_lines env w blocks lines stack)).
  { induction n as [|n IH]; intros [|l after] Hlen stack; cbn [multiline_lines];
      try (cbn in Hlen; lia); preserves_tac; apply IH; cbn in Hlen; lia. }
  intros stack. now apply (H (length lines)).
Qed.
#[local] Hint Resolve preserves_multiline_lines : preserves.

Lemma preserves_computeStackTraceFromOperaMultiLineMessage (ex : value) :
  preserves P (computeStackTraceFromOperaMultiLineMessage env ex).
Proof. unfold computeStackTraceFromOperaMultiLineMessage. preserves_tac. Qed.
#[local] Hint Resolve preserves_computeStackTraceFromOperaMultiLineMessage : preserves.

Lemma preserves_initial_element (url lineNo message : prim) :
  preserves P (initial_element env url lineNo message).
Proof. unfold initial_element. preserves_tac. Qed.
#[local] Hint Resolve preserves_initial_element : preserves.

Lemma preserves2_unshift (initial : Frame.t) (stack : list Frame.t) :
  preserves2 P (unshift initial stack).
Proof. unfold unshift. preserves_tac. Qed.
#[local] Hint Resolve preserves2_unshift : preserves.

Lemma preserves2_augment (url lineNo message : prim) :
  preserves2 P (augmentStackTraceWithInitialElement env url lineNo message).
Proof. unfold augmentStackTraceWithInitialElement. preserves_tac. Qed.
#[local] Hint Resolve preserves2_augment : preserves.

Lemma preserves_walk_item (ex : value) (curr : Fn) : preserves P (walk_item env ex curr).
Proof. unfold walk_item. preserves_tac. Qed.
#[local] Hint Resolve preserves_walk_item : preserves.

Lemma preserves_walk (ex : value) (chain : list Fn) :
  forall funcs stack, preserves P (walk env ex chain funcs stack).
Proof.
  induction chain as [|curr callers IH]; intros funcs stack; cbn [walk]; preserves_tac.
Qed.
#[local] Hint Resolve preserves_walk : preserves.

Lemma preserves_with_trace {A} (result : Trace.t) (m : M (Cache * Trace.t) A) :
  preserves2 P m -> preserves P (with_trace result m).
Proof.
  intros Hm c Hc. unfold with_trace. specialize (Hm (c, result) Hc).
  destruct (m (c, result)) as [[a|e] [c' t']]; exact Hm.
Qed.

Lemma preserves_walker (chain : option (list Fn)) (ex : value) (depth : prim) :
  preserves P (computeStackTraceByWalkingCallerChain env chain ex depth).
Proof.
  unfold computeStackTraceByWalkingCallerChain. preserves_tac.
  apply preserves_with_trace. auto with preserves.
Qed.
#[local] Hint Resolve preserves_walker : preserves.

Lemma preserves_attempt (strategy : MC (option Trace.t)) (rest : MC Trace.t) :
  preserves P strategy -> preserves P rest -> preserves P (attempt env strategy rest).
Proof. intros Hs Hr. unfold attempt. preserves_tac. Qed.

Lemma preserves_computeStackTrace (chain : option (list Fn)) (ex : value) (depth : prim) :
  preserves P (computeStackTrace env chain ex depth).
Proof.
  unfold computeStackTrace, walkingCallerChain, failed.
  repeat (apply preserves_attempt); preserves_tac.
Qed.

End Reachable.

(** The caches reachable through [getSource] are closed under every
  operation of the module. *)
Lemma reachable_closed (env : Env) (c : Cache) (Hc : reachable env c) :
  (forall chain ex depth, reachable env (snd (computeStackTrace env chain ex depth c)))
  /\ (forall url lineNo, reachable env (snd (guessFunctionName env url lineNo c)))
  /\ (forall url line, reachable env (snd (gatherContext env url line c)))
  /\ (forall url lineNo message stackInfo,
        reachable env
          (fst (snd (augmentStackTraceWithInitialElement env url lineNo message
                       (c, stackInfo))))).
Proof.
  assert (H : forall url : prim, preserves (reachable env) (getSource env url))
    by (intros url c0 Hc0; now constructor).
  repeat split; intros.
  - now apply (preserves_computeStackTrace env _ H).
  - now apply (preserves_guessFunctionName env _ H).
  - now apply (preserves_gatherContext env _ H).
  - now apply (preserves2_augment env _ H url lineNo message (c, stackInfo)).
Qed.

(** ** Values that cannot be traced *)

(** On [null] and [undefined] every strategy raises, and so does the last
  statement, whatever the configuration and the caller chain. *)
Lemma computeStackTrace_nullish_raises (env : Env) (chain : option (list Fn))
    (ex : value) (depth : prim) (c : Cache) :
  nullish ex = true ->
  exists e c', computeStackTrace env chain ex depth c = (Throw e, c').
Proof.
  intros Hex.
  assert (Hprop : forall (p : Err.t -> prim) c0,
             prop p ex c0
             = (Throw (Engine "TypeError" "Cannot read properties of undefined or null"), c0)).
  { intros p c0. destruct ex as [[| | | | |]|]; try discriminate Hex; reflexivity. }
  unfold computeStackTrace, attempt.
  unfold computeStackTraceFromStacktraceProp at 1.
  unfold bind at 1, try_catch at 1, bind at 1. rewrite Hprop.
  destruct (Config.debug (config env)); [eexists _, _; reflexivity|].
  cbn [ret]. unfold computeStackTraceFromStackProp at 1.
  unfold bind at 1, try_catch at 1, bind at 1. rewrite Hprop.
  cbn [ret]. unfold computeStackTraceFromOperaMultiLineMessage at 1.
  unfold bind at 1, try_catch at 1, bind at 1. rewrite Hprop.
  cbn [ret]. unfold bind at 1, try_catch at 1.
  assert (Hwalk : forall d c0, exists e c1,
             walkingCallerChain env chain ex d c0 = (Throw e, c1)).
  { intros d c0. unfold walkingCallerChain, computeStackTraceByWalkingCallerChain.
    destruct chain as [callers|]; [|eexists _, _; reflexivity].
    unfold bind at 1, bind at 1.
    destruct (walk env ex callers ∅ [] c0) as [[stack|e] c1]; [|eexists _, _; reflexivity].
    unfold bind at 1. rewrite Hprop. eexists _, _; reflexivity. }
  destruct (Hwalk (add (depth_or_zero depth) (PNum 1)) c) as (e & c1 & E).
  rewrite E. cbn [ret]. unfold failed, bind. rewrite Hprop. eexists _, _; reflexivity.
Qed.

(** ** The timer queue *)

Section Timers.
Context (env : Env).

Lemma processLastException_timers (s : State) :
  timers (snd (processLastException env s)) = timers s.
Proof. rewrite processLastException_state. reflexivity. Qed.

Lemma report_pending_live_targets (chain : option (list Fn)) (ex : value) (s : State) :
  Forall live_target (timers s) ->
  Forall live_target (timers (snd (report_pending env chain ex s))).
Proof.
  intros Hs. unfold report_pending, bind at 1, on_sourceCache.
  destruct (nullish ex) eqn:Hex.
  - destruct (computeStackTrace_nullish_raises env chain ex PUndef (sourceCache s) Hex)
      as (e & c' & E).
    rewrite E. exact Hs.
  - destruct (computeStackTrace env chain ex PUndef (sourceCache s)) as [[t|e] c'];
      [|exact Hs].
    cbn. apply Forall_app. split; [exact Hs|]. constructor; [exact Hex | constructor].
Qed.

(** [report] schedules callbacks for traced values only: the hypothesis
  on the timer queue made below holds in every state the module
  reaches from [initial_state]. *)
Lemma report_live_targets (chain : option (list Fn)) (ex : value) (s : State) :
  Forall live_target (timers s) ->
  Forall live_target (timers (snd (report env chain ex s))).
Proof.
  intros Hs. unfold report, bind at 1, get.
  destruct (lastExceptionStack s) as [t|]; [|now apply report_pending_live_targets].
  destruct (same_value (lastException s) ex); [exact Hs|].
  unfold bind. pose proof (processLastException_timers s) as Ht.
  destruct (processLastException env s) as [[[]|e] s']; cbn [snd] in Ht |- *.
  - apply report_pending_live_targets. now rewrite Ht.
  - now rewrite Ht.
Qed.

End Timers.

(** ** The cache over time *)

Lemma getSource_grows (env : Env) (url : prim) (c : Cache) :
  c ⊆ snd (getSource env url c).
Proof.
  destruct url as [| | b | n | | u]; try reflexivity.
  unfold getSource, bind, get, put, ret.
  destruct (c !! u) as [lines|] eqn:Hu; cbn; [reflexivity|].
  now apply insert_subseteq.
Qed.

(** X1. [getSource] answers without raising, and what it answered for a
    URL is what it answers from then on, whatever the host has become:
    a URL is fetched at most once, and a fetch that failed is never tried
    again. *)
Theorem getSource_cached_forever (env : Env) (url : prim) (c : Cache) :
  exists (lines : list string) (c1 : Cache),
    getSource env url c = (Ret lines, c1)
    /\ c ⊆ c1
    /\ forall (env' : Env) (c2 : Cache),
         c1 ⊆ c2 -> getSource env' url c2 = (Ret lines, c2).
Proof.
  destruct url as [| | b | n | | u];
    try (exists [], c; split; [reflexivity | split; [reflexivity | intros; reflexivity]]).
  unfold getSource, bind, get, put, ret.
  destruct (c !! u) as [lines|] eqn:Hu.
  - exists lines, c. split; [reflexivity | split; [reflexivity|]].
    intros env' c2 Hsub. now rewrite (lookup_weaken _ _ _ _ Hu Hsub).
  - eexists _, _. split; [reflexivity | split; [now apply insert_subseteq|]].
    intros env' c2 Hsub.
    rewrite (lookup_weaken _ c2 u _ (lookup_insert_eq _ _ _) Hsub). reflexivity.
Qed.

(** X2. The cache only grows: no operation of the module removes or
    replaces the lines cached for a URL. *)
Theorem sourceCache_only_grows (env : Env) (c : Cache) :
  (forall chain ex depth, c ⊆ snd (computeStackTrace env chain ex depth c))
  /\ (forall chain fresh depth, c ⊆ snd (computeStackTraceOfCaller env chain fresh depth c))
  /\ (forall url lineNo, c ⊆ snd (guessFunctionName env url lineNo c))
  /\ (forall url line, c ⊆ snd (gatherContext env url line c))
  /\ (forall url lineNo message stackInfo,
        c ⊆ fst (snd (augmentStackTraceWithInitialElement env url lineNo message
                        (c, stackInfo)))).
Proof.
  assert (H : forall url : prim, preserves (fun c' => c ⊆ c') (getSource env url)).
  { intros url c1 Hc1. etrans; [exact Hc1 | apply getSource_grows]. }
  repeat split; intros.
  - now apply (preserves_computeStackTrace env _ H).
  - now apply (preserves_computeStackTrace env _ H).
  - now apply (preserves_guessFunctionName env _ H).
  - now apply (preserves_gatherContext env _ H).
  - now apply (preserves2_augment env _ H url lineNo message (c, stackInfo)).
Qed.

(** ** Escaped text as a pattern *)

Lemma parse_alt_literally (tail : string) (rtail : re) (n F0 : nat) :
  parse_quantifier tail = None ->
  (1 <= F0)%nat ->
  (forall fuel, (F0 <= fuel)%nat -> parse_alt false fuel tail n = Some (rtail, "", n)) ->
  forall text fuel,
    (String.length text + F0 <= fuel)%nat ->
    parse_alt false fuel (escape_chars text +:+ tail) n
    = Some (literally text rtail, "", n).
Proof.
  intros Hq HF0 Htail. induction text as [|c text IH]; intros fuel Hfuel.
  - apply Htail. cbn in Hfuel. lia.
  - destruct fuel as [|fuel]; [cbn in Hfuel; lia|]. cbn in Hfuel.
    destruct fuel as [|fuel]; [lia|].
    specialize (IH (S fuel) ltac:(lia)).
    cbn [escape_chars literally]. destruct (is_syntax c) eqn:Hc.
    + change (String "\" (String c (escape_chars text)) +:+ tail)
        with (String "\" (String c (escape_chars text +:+ tail))).
      rewrite parse_alt_backslash, parse_term_backslash.
      rewrite (parse_escape_syntax c _ Hc).
      rewrite quantified_escaped by exact Hq.
      now rewrite IH.
    + change (String c (escape_chars text) +:+ tail)
        with (String c (escape_chars text +:+ tail)).
      rewrite (parse_alt_plain c _ _ _ Hc).
      rewrite (parse_term_plain c _ _ _ Hc).
      rewrite quantified_escaped by exact Hq.
      now rewrite IH.
Qed.

Lemma append_empty_r (s : string) : s +:+ "" = s.
Proof.
  induction s as [|c s IH]; [reflexivity|].
  change (String c (s +:+ "") = String c s). now rewrite IH.
Qed.

Lemma regexp_escaped (text : string) :
  regexp false (escapeRegExp text) = Some (Grp 0 (literally text Eps)).
Proof.
  rewrite escapeRegExp_eq. unfold regexp.
  pose proof (escape_chars_length text) as Hlen.
  set (F := (4 * String.length (escape_chars text) + 4)%nat).
  assert (HF : exists F1, F = S F1 /\ (String.length text + 1 <= F1)%nat).
  { exists (F - 1)%nat. unfold F. lia. }
  destruct HF as (F1 & -> & HF1).
  assert (E : parse_alt false F1 (escape_chars text) 1 = Some (literally text Eps, "", 1%nat)).
  { rewrite <- (append_empty_r (escape_chars text)) at 1.
    apply (parse_alt_literally "" Eps 1 1); [reflexivity | lia | | exact HF1].
    intros [|fuel] Hf; [lia | reflexivity]. }
  cbn [parse_disj]. now rewrite E.
Qed.

Lemma literal_matches (c d : ascii) :
  class_matches false false [IRange (nat_of_ascii c) (nat_of_ascii c)] d = Ascii.eqb c d.
Proof.
  unfold class_matches. cbn [existsb item_matches andb orb xorb].
  destruct (Ascii.eqb_spec c d) as [->|Hne].
  - now rewrite Nat.leb_refl.
  - destruct (Nat.leb_spec (nat_of_ascii c) (nat_of_ascii d)) as [H1|H1]; [|reflexivity].
    destruct (Nat.leb_spec (nat_of_ascii d) (nat_of_ascii c)) as [H2|H2]; [|reflexivity].
    exfalso. apply Hne. rewrite <- (ascii_nat_embedding c), <- (ascii_nat_embedding d).
    f_equal. lia.
Qed.

Lemma rmatch_literally (tail : re) (k : mst -> option mst) (text : string) :
  forall st,
    rmatch (literally text tail) st k
    = match prefix_at text (m_rest st) with
      | Some rest =>
          rmatch tail (MSt (prev_after text (m_prev st)) rest
                         (m_pos st + String.length text) (m_caps st)) k
      | None => None
      end.
Proof.
  induction text as [|c text IH]; intros st.
  - cbn [literally prefix_at prev_after String.length]. destruct st as [p r n caps].
    cbn [m_rest m_prev m_pos m_caps]. now rewrite Nat.add_0_r.
  - cbn [literally]. unfold literal.
    change (rmatch (Seq ?a ?b) st k) with (rmatch a st (fun st' => rmatch b st' k)).
    cbn [rmatch]. cbn [prefix_at]. destruct (m_rest st) as [|d s']; [reflexivity|].
    rewrite literal_matches. destruct (Ascii.eqb c d) eqn:E; [|reflexivity].
    rewrite IH. cbn [m_rest m_prev m_pos m_caps prev_after String.length].
    apply Ascii.eqb_eq in E. subst d.
    destruct (prefix_at text s'); [|reflexivity].
    now replace (S (m_pos st) + String.length text)%nat
      with (m_pos st + S (String.length text))%nat by lia.
Qed.

Lemma prefix_at_spec (p s rest : string) :
  prefix_at p s = Some rest <-> s = p +:+ rest.
Proof.
  revert s. induction p as [|a p IH]; intros s.
  - cbn. split; [now intros [= ->] | now intros ->].
  - destruct s as [|b s]; cbn [prefix_at].
    + split; [discriminate|]. discriminate.
    + change (String a p +:+ rest) with (String a (p +:+ rest)).
      destruct (Ascii.eqb_spec a b) as [->|Hne].
      * rewrite IH. split; [now intros -> | now intros [= ->]].
      * split; [discriminate | intros [= E _]; congruence].
Qed.

Lemma take_append (p rest : string) : take (String.length p) (p +:+ rest) = p.
Proof.
  induction p as [|a p IH].
  - cbn. apply take_zero.
  - change (String a p +:+ rest) with (String a (p +:+ rest)).
    cbn [String.length]. now rewrite take_S, IH.
Qed.

(** The leftmost match of an escaped text is its leftmost occurrence. *)
Lemma search_escaped (text s : string) :
  forall prev pos,
    option_map (fun p : nat * mst => Result (fst p) (m_caps (snd p)))
      (search (Grp 0 (literally text Eps)) prev s pos)
    = option_map (fun i => Result i [(0%nat, Some text)]) (index_of_from pos text s).
Proof.
  induction s as [|c s IH]; intros prev pos.
  - cbn [search index_of_from rmatch]. rewrite rmatch_literally.
    cbn [m_rest]. destruct (prefix_at text "") as [rest|] eqn:E; [|reflexivity].
    apply prefix_at_spec in E. cbn [rmatch option_map fst snd m_caps m_pos m_rest].
    replace (pos + String.length text - pos)%nat with (String.length text) by lia.
    rewrite E at 1. now rewrite take_append.
  - cbn [search index_of_from rmatch]. rewrite rmatch_literally.
    cbn [m_rest]. destruct (prefix_at text (String c s)) as [rest|] eqn:E.
    + apply prefix_at_spec in E. cbn [rmatch option_map fst snd m_caps m_pos m_rest].
      replace (pos + String.length text - pos)%nat with (String.length text) by lia.
      rewrite E at 1. now rewrite take_append.
    + apply IH.
Qed.

(** X3. [escapeRegExp] makes a text into a pattern for that text: the
    pattern is always well formed, and running it on a subject finds the
    text at the place [indexOf] finds it, the match being the text. *)
Theorem escapeRegExp_literal (text : string) :
  exists r : re,
    regexp false (escapeRegExp text) = Some r
    /\ forall s : string,
         exec r s = match index_of text s with
                    | Some i => Some (Result i [(0%nat, Some text)])
                    | None => None
                    end.
Proof.
  exists (Grp 0 (literally text Eps)). split; [apply regexp_escaped|].
  intros s. unfold exec, index_of.
  pose proof (search_escaped text s None 0) as H.
  destruct (search _ None s 0) as [[i st]|]; destruct (index_of_from 0 text s) as [j|];
    cbn in H; congruence.
Qed.

(** ** A fragment in a line *)

Lemma regexp_word_eq (fragment : string) :
  regexp false ("\b" +:+ escapeRegExp fragment +:+ "\b")
  = Some (Grp 0 (Seq (Wb true) (literally fragment (Seq (Wb true) Eps)))).
Proof.
  rewrite escapeRegExp_eq. unfold regexp.
  set (E := escape_chars fragment +:+ "\b").
  change ("\b" +:+ E) with (String "\" (String "b" E)).
  assert (Hlen : (String.length fragment + 2 <= String.length E)%nat).
  { unfold E. rewrite string_length_append. pose proof (escape_chars_length fragment).
    cbn. lia. }
  cbn [String.length].
  set (F := (4 * S (S (String.length E)) + 4)%nat).
  assert (HF : exists F3, F = S (S (S F3)) /\ (String.length fragment + 2 <= S F3)%nat).
  { exists (F - 3)%nat. unfold F. lia. }
  destruct HF as (F3 & -> & HF3).
  assert (Hr : parse_alt false (S F3) E 1
               = Some (literally fragment (Seq (Wb true) Eps), "", 1%nat)).
  { apply (parse_alt_literally "\b" (Seq (Wb true) Eps) 1 2); [reflexivity | lia | | exact HF3].
    intros [|[|fuel]] Hf; [lia | lia | reflexivity]. }
  change (parse_disj false (S (S (S F3))) (String "\" (String "b" E)) 1)
    with (match parse_alt false (S (S F3)) (String "\" (String "b" E)) 1 with
          | Some (a, String "|" s', n') =>
              match parse_disj false (S (S F3)) s' n' with
              | Some (b, s'', n'') => Some (Alt a b, s'', n'')
              | None => None
              end
          | other => other
          end).
  rewrite parse_alt_backslash, parse_term_backslash.
  change (parse_escape (String "b" E)) with (Some (EBoundary true, E)).
  cbv iota beta. now rewrite Hr.
Qed.

(** A search answers the leftmost position at which the expression
    matches. *)
Lemma search_leftmost (r : re) (s : string) :
  forall (prev : option ascii) (pos : nat),
    match search r prev s pos with
    | Some (i, st) =>
        exists pre suf,
          s = pre +:+ suf /\ i = (pos + String.length pre)%nat
          /\ rmatch r (MSt (prev_after pre prev) suf i []) Some = Some st
          /\ forall pre' suf',
               s = pre' +:+ suf' -> (String.length pre' < String.length pre)%nat ->
               rmatch r (MSt (prev_after pre' prev) suf' (pos + String.length pre') []) Some
               = None
    | None =>
        forall pre' suf',
          s = pre' +:+ suf' ->
          rmatch r (MSt (prev_after pre' prev) suf' (pos + String.length pre') []) Some = None
    end.
Proof.
  induction s as [|c s IH]; intros prev pos; cbn [search].
  - destruct (rmatch r (MSt prev "" pos []) Some) as [st|] eqn:E.
    + exists "", "". cbn [String.length prev_after]. rewrite Nat.add_0_r.
      repeat split; [exact E|]. intros pre' suf' _ Hlt. cbn in Hlt. lia.
    + intros [|a pre'] suf' Hs; [|discriminate Hs].
      change (EmptyString +:+ suf') with suf' in Hs. subst suf'. cbn [String.length prev_after]. now rewrite Nat.add_0_r.
  - destruct (rmatch r (MSt prev (String c s) pos []) Some) as [st|] eqn:E.
    + exists "", (String c s). cbn [String.length prev_after]. rewrite Nat.add_0_r.
      repeat split; [exact E|]. intros pre' suf' _ Hlt. cbn in Hlt. lia.
    + specialize (IH (Some c) (S pos)).
      destruct (search r (Some c) s (S pos)) as [[i st]|].
      * destruct IH as (pre & suf & -> & -> & Hm & Hmin).
        exists (String c pre), suf. split; [reflexivity|]. split; [cbn; lia|].
        split; [exact Hm|].
        intros [|a pre'] suf' Hs Hlt.
        -- change (EmptyString +:+ suf') with suf' in Hs. subst suf'.
           cbn [String.length prev_after]. now rewrite Nat.add_0_r.
        -- change (String a pre' +:+ suf') with (String a (pre' +:+ suf')) in Hs.
           change (String c pre +:+ suf) with (String c (pre +:+ suf)) in Hs.
           injection Hs as <- Hs. cbn [String.length prev_after] in *.
           replace (pos + S (String.length pre'))%nat with (S pos + String.length pre')%nat
             by lia.
           apply Hmin; [exact Hs | lia].
      * intros [|a pre'] suf' Hs.
        -- change (EmptyString +:+ suf') with suf' in Hs. subst suf'.
           cbn [String.length prev_after]. now rewrite Nat.add_0_r.
        -- change (String a pre' +:+ suf') with (String a (pre' +:+ suf')) in Hs.
           injection Hs as <- Hs. cbn [String.length prev_after].
           replace (pos + S (String.length pre'))%nat with (S pos + String.length pre')%nat
             by lia.
           now apply IH.
Qed.

(** The pattern of [findSourceInLine] matches at a position exactly when
    the fragment stands there as a word. *)
Lemma rmatch_word (fragment : string) (prev : option ascii) (suf : string) (i : nat) :
  is_Some (rmatch (Grp 0 (Seq (Wb true) (literally fragment (Seq (Wb true) Eps))))
             (MSt prev suf i []) Some)
  <-> exists post, suf = fragment +:+ post
                   /\ boundary prev suf = true
                   /\ boundary (prev_after fragment prev) post = true.
Proof.
  cbn [rmatch]. unfold word_before, word_after. cbn [m_prev m_rest].
  fold (boundary prev suf).
  destruct (boundary prev suf) eqn:Hb; cbn [Bool.eqb].
  - rewrite rmatch_literally. cbn [m_rest m_prev m_pos m_caps].
    destruct (prefix_at fragment suf) as [post|] eqn:Ep.
    + apply prefix_at_spec in Ep. cbn [rmatch]. unfold word_before, word_after.
      cbn [m_prev m_rest]. fold (boundary (prev_after fragment prev) post).
      destruct (boundary (prev_after fragment prev) post) eqn:Hb2; cbn [Bool.eqb].
      * split; [intros _ | eauto]. exists post. now rewrite Hb2.
      * split; [intros [x Hx]; discriminate Hx|].
        intros (post' & Hs & _ & Hb'). rewrite Ep in Hs.
        assert (post' = post) as ->.
        { clear -Hs. induction fragment as [|a f IH]; [exact (eq_sym Hs)|].
          change (String a f +:+ ?p) with (String a (f +:+ p)) in Hs.
          injection Hs as Hs. now apply IH. }
        congruence.
    + split; [intros [x Hx]; discriminate Hx|].
      intros (post & Hs & _). apply prefix_at_spec in Hs. congruence.
  - split; [intros [x Hx]; discriminate Hx|]. intros (post & _ & Hb' & _). discriminate Hb'.
Qed.

Lemma prev_after_app (a b : string) (prev : option ascii) :
  prev_after (a +:+ b) prev = prev_after b (prev_after a prev).
Proof.
  revert prev. induction a as [|c a IH]; intros prev; [reflexivity|].
  change (String c a +:+ b) with (String c (a +:+ b)). cbn [prev_after]. apply IH.
Qed.

(** X4. [findSourceInLine] never raises.  For a line that the source
    has, it answers the column of the leftmost place where the fragment
    stands in that line as a word of its own ([\b] on both sides), and
    [null] when there is no such place. *)
Theorem findSourceInLine_whole_word (env : Env) (fragment : string) (url : prim) (line : Z)
    (c c' : Cache) (source : list string) (text : string)
    (Hsrc : getSource env url c = (Ret source, c'))
    (Hline : 1 <= line)
    (Htext : source !! Z.to_nat (line - 1) = Some text) :
  exists column : prim,
    findSourceInLine env fragment url (PNum line) c = (Ret column, c')
    /\ ((column = PNull /\ forall pre post, ~ whole_word fragment text pre post)
        \/ exists pre post : string,
             column = PNum (Z.of_nat (String.length pre))
             /\ whole_word fragment text pre post
             /\ forall pre' post',
                  whole_word fragment text pre' post' ->
                  (String.length pre <= String.length pre')%nat).
Proof.
  unfold findSourceInLine. rewrite (bind_eq_ret _ _ _ _ _ Hsrc).
  unfold new_RegExp. rewrite regexp_word_eq, bind_ret_l.
  cbn [sub to_number].
  pose proof (lookup_lt_Some _ _ _ Htext) as Hlt.
  destruct (Z.ltb_spec (line - 1) (Z.of_nat (length source))) as [_|Hge]; [|lia].
  unfold exec_prim, line_at. rewrite array_get_nonneg by lia. rewrite Htext.
  cbn [to_string]. unfold exec.
  set (r := Grp 0 (Seq (Wb true) (literally fragment (Seq (Wb true) Eps)))).
  assert (Hword : forall pre post,
             whole_word fragment text pre post ->
             is_Some (rmatch r (MSt (prev_after pre None) (fragment +:+ post)
                                  (0 + String.length pre) []) Some)).
  { intros pre post (_ & Hb1 & Hb2). apply rmatch_word. exists post.
    split; [reflexivity|]. split; [exact Hb1|]. now rewrite <- prev_after_app. }
  pose proof (search_leftmost r text None 0) as Hs.
  destruct (search r None text 0) as [[i st]|].
  - destruct Hs as (pre & suf & Etext & -> & Hm & Hmin).
    eexists. split; [reflexivity|]. right. cbn [index].
    destruct (proj1 (rmatch_word fragment _ _ _) (ex_intro _ st Hm)) as (post & -> & Hb1 & Hb2).
    exists pre, post. split; [reflexivity|]. split.
    + split; [exact Etext|]. split; [exact Hb1|]. now rewrite prev_after_app.
    + intros pre' post' Hw.
      destruct (Nat.le_gt_cases (String.length pre) (String.length pre')) as [Hle|Hgt];
        [exact Hle | exfalso].
      destruct (Hword pre' post' Hw) as [x Hx].
      rewrite (Hmin pre' (fragment +:+ post') (proj1 Hw) Hgt) in Hx. discriminate Hx.
  - eexists. split; [reflexivity|]. left. split; [reflexivity|].
    intros pre post Hw. destruct (Hword pre post Hw) as [x Hx].
    rewrite (Hs pre (fragment +:+ post) (proj1 Hw)) in Hx. discriminate Hx.
Qed.

Lemma findSourceInLine_whole_word_witness :
  exists column : prim,
    findSourceInLine Samples.env "l3" (PStr "http://localhost/app.js") (PNum 3) Samples.cache12
    = (Ret column, Samples.cache12)
    /\ ((column = PNull /\ forall pre post, ~ whole_word "l3" "l3" pre post)
        \/ exists pre post : string,
             column = PNum (Z.of_nat (String.length pre))
             /\ whole_word "l3" "l3" pre post
             /\ forall pre' post',
                  whole_word "l3" "l3" pre' post' ->
                  (String.length pre <= String.length pre')%nat).
Proof.
  apply (findSourceInLine_whole_word Samples.env "l3" (PStr "http://localhost/app.js") 3
           Samples.cache12 Samples.cache12 Samples.twelve_lines "l3").
  - reflexivity.
  - lia.
  - reflexivity.
Defined.

(** ** Line numbers given as strings *)

Lemma digit_not_space (c : ascii) : is_digit c = true -> is_space c = false.
Proof. each_ascii c; intros H; first [reflexivity | vm_compute in H; discriminate H]. Qed.

Lemma drop_while_digits (s : string) :
  all_chars is_digit s = true -> drop_while is_space s = s.
Proof.
  destruct s as [|c s]; [reflexivity|]. cbn [all_chars drop_while].
  intros H. apply andb_prop in H as [Hc _]. now rewrite (digit_not_space c Hc).
Qed.

Lemma all_chars_rev (p : ascii -> bool) (s : string) :
  forall acc, all_chars p (rev_string acc s) = all_chars p s && all_chars p acc.
Proof.
  induction s as [|c s IH]; intros acc; [reflexivity|].
  cbn [rev_string all_chars]. rewrite IH. cbn [all_chars].
  destruct (p c), (all_chars p s), (all_chars p acc); reflexivity.
Qed.

Lemma rev_string_rev (s : string) :
  forall a b, rev_string a (rev_string b s) = rev_string (s +:+ a) b.
Proof.
  induction s as [|c s IH]; intros a b; [reflexivity|].
  cbn [rev_string]. rewrite IH. reflexivity.
Qed.

Lemma trim_digits (s : string) : all_chars is_digit s = true -> trim s = s.
Proof.
  intros H. unfold trim. rewrite (drop_while_digits s H).
  rewrite drop_while_digits by (rewrite all_chars_rev, H; reflexivity).
  rewrite rev_string_rev. cbn [rev_string].
  induction s as [|c s IH]; [reflexivity|].
  change (String c s +:+ "") with (String c (s +:+ "")). f_equal.
  apply IH. cbn [all_chars] in H. now apply andb_prop in H as [_ H].
Qed.

Lemma string_to_number_digits (s : string) :
  s <> "" -> all_chars is_digit s = true ->
  string_to_number s = Some (digits_value 0 s).
Proof.
  intros Hs H. unfold string_to_number. rewrite (trim_digits s H).
  destruct s as [|c s]; [contradiction|].
  assert (Hc : is_digit c = true) by (cbn [all_chars] in H; now apply andb_prop in H as [H _]).
  revert H. each_ascii c; first [ vm_compute in Hc; discriminate Hc | intros ->; reflexivity ].
Qed.

Lemma digits_value_app (s t : string) :
  forall acc, digits_value acc (s +:+ t) = digits_value (digits_value acc s) t.
Proof.
  induction s as [|c s IH]; intros acc; [reflexivity|].
  change (String c s +:+ t) with (String c (s +:+ t)). cbn [digits_value]. apply IH.
Qed.

Lemma all_chars_app (p : ascii -> bool) (s t : string) :
  all_chars p (s +:+ t) = all_chars p s && all_chars p t.
Proof.
  induction s as [|c s IH]; [reflexivity|].
  change (String c s +:+ t) with (String c (s +:+ t)). cbn [all_chars].
  rewrite IH. now rewrite andb_assoc.
Qed.

Lemma context_loop_clip (source : list string) (s e : Z) :
  0 <= s ->
  context_loop source s (Z.to_nat (Z.min (Z.of_nat (length source)) e - s))
  = firstn (Z.to_nat (e - s)) (skipn (Z.to_nat s) source).
Proof.
  intros Hs. destruct (Z.le_gt_cases s (Z.of_nat (length source))) as [Hin|Hout].
  - rewrite context_loop_slice by lia.
    destruct (Z.le_gt_cases e (Z.of_nat (length source))).
    + f_equal. lia.
    + rewrite !take_ge by (rewrite length_drop; lia). reflexivity.
  - replace (Z.to_nat (Z.min (Z.of_nat (length source)) e - s)) with 0%nat by lia.
    rewrite drop_ge by lia. now rewrite take_nil.
Qed.

(** X5. A line number given as a string of digits (the signature allows
    it) goes through [-] as a number but through [+] as a text: the
    window starts five lines before the line, as for a number, and runs
    up to line [10 * line + 5] instead of [line + 5]. *)
Theorem gatherContext_string_line (env : Env) (c c' : Cache) (url : prim)
    (source : list string) (s : string)
    (Hcfg : Config.linesOfContext (config env) = 11)
    (Hsrc : getSource env url c = (Ret source, c'))
    (Hlen : length source <> 0%nat)
    (Hs : s <> "")
    (Hdigits : all_chars is_digit s = true) :
  let line := digits_value 0 s in
  let window :=
    firstn (Z.to_nat (10 * line + 5 - Z.max 0 (line - 6)))
      (skipn (Z.to_nat (Z.max 0 (line - 6))) source) in
  gatherContext env url (PStr s) c = (Ret (nonempty_or_null window), c')
  /\ (6 <= line -> 10 * line + 5 <= Z.of_nat (length source) ->
      length window = Z.to_nat (9 * line + 11)).
Proof.
  intros line window. split.
  - unfold gatherContext. rewrite (bind_eq_ret _ _ _ _ _ Hsrc), Hcfg.
    destruct (Nat.eqb_spec (length source) 0) as [E|_]; [contradiction|].
    change (11 / 2) with 5. change (5 + Z.rem 11 2) with 6.
    assert (Hsub : forall (t : string) (n k : Z),
               string_to_number t = Some n -> sub (PStr t) (PNum k) = PNum (n - k)).
    { intros t n k Ht. unfold sub. cbn [to_number]. now rewrite Ht. }
    rewrite (Hsub s line 5) by (apply string_to_number_digits; assumption).
    cbn [add]. change (to_string (PNum 6)) with "6".
    rewrite (Hsub (s +:+ "6") (10 * line + 6) 1).
    2:{ rewrite string_to_number_digits.
        - rewrite digits_value_app. reflexivity.
        - destruct s; [contradiction | discriminate].
        - rewrite all_chars_app, Hdigits. reflexivity. }
    cbn [sub to_number].
    unfold max_with, min_with. cbn [to_number].
    rewrite context_loop_clip by lia.
    unfold window. replace (line - 5 - 1) with (line - 6) by lia.
    replace (10 * line + 6 - 1) with (10 * line + 5) by lia. reflexivity.
  - intros H6 Hfile. unfold window. rewrite length_take, length_drop. lia.
Qed.

Lemma gatherContext_string_line_witness :
  gatherContext Samples.env (PStr "http://localhost/app.js") (PStr "1") Samples.cache12
  = (Ret (CArr (List.map PStr Samples.twelve_lines)), Samples.cache12)
  /\ gatherContext Samples.env (PStr "http://localhost/app.js") (PNum 1) Samples.cache12
     = (Ret (CArr (List.map PStr (firstn 6 Samples.twelve_lines))), Samples.cache12).
Proof.
  split; [|reflexivity].
  apply (proj1 (gatherContext_string_line Samples.env Samples.cache12 Samples.cache12
                  (PStr "http://localhost/app.js") Samples.twelve_lines "1"
                  eq_refl eq_refl ltac:(discriminate) ltac:(discriminate) eq_refl)).
Defined.

(** ** The lines read by [guessFunctionName] *)

Lemma guess_loop_agree (s1 s2 : list string) (lineNo : Z) (n : nat) :
  forall (i : Z) (line : string),
    (forall j, i <= j < i + Z.of_nat n ->
               array_get s1 (PNum (lineNo - j)) = array_get s2 (PNum (lineNo - j))) ->
    guess_loop s1 (PNum lineNo) n i line = guess_loop s2 (PNum lineNo) n i line.
Proof.
  induction n as [|n IH]; intros i line H; [reflexivity|].
  cbn [guess_loop]. unfold line_at. cbn [sub to_number].
  rewrite (H i) by lia.
  destruct (exec reGuessFunction _); [reflexivity|].
  destruct (exec reFunctionArgNames _); [reflexivity|].
  apply IH. intros j Hj. apply H. lia.
Qed.

(** X6. [guessFunctionName] reads ten entries of the source and no
    more: those of index [lineNo - 9] to [lineNo], counted from 0, that
    is the line the trace names, the eight lines above it and the line
    below it.  Two sources that agree on these entries get the same
    name. *)
Theorem guessFunctionName_window (env : Env) (u : string) (lineNo : Z)
    (c1 c2 : Cache) (s1 s2 : list string)
    (H1 : c1 !! u = Some s1)
    (H2 : c2 !! u = Some s2)
    (Hs1 : s1 <> [])
    (Hs2 : s2 <> [])
    (Hwindow : forall i : Z, lineNo - 9 <= i <= lineNo ->
                 array_get s1 (PNum i) = array_get s2 (PNum i)) :
  exists name : prim,
    guessFunctionName env (PStr u) (PNum lineNo) c1 = (Ret name, c1)
    /\ guessFunctionName env (PStr u) (PNum lineNo) c2 = (Ret name, c2).
Proof.
  assert (E : forall c s, c !! u = Some s -> s <> [] ->
                guessFunctionName env (PStr u) (PNum lineNo) c
                = (Ret (guess_loop s (PNum lineNo) maxLines 0 ""), c)).
  { intros c s Hc Hs. unfold guessFunctionName, getSource, bind, get, ret.
    rewrite Hc. destruct s; [contradiction | reflexivity]. }
  exists (guess_loop s1 (PNum lineNo) maxLines 0 "").
  rewrite (E c1 s1 H1 Hs1), (E c2 s2 H2 Hs2).
  rewrite (guess_loop_agree s1 s2 lineNo maxLines 0 ""); [split; reflexivity|].
  intros j Hj. apply Hwindow. unfold maxLines in Hj. lia.
Qed.

Lemma guessFunctionName_window_witness :
  exists name : prim,
    guessFunctionName Samples.env (PStr "http://localhost/app.js") (PNum 11) Samples.cache12
    = (Ret name, Samples.cache12)
    /\ guessFunctionName Samples.env (PStr "http://localhost/app.js") (PNum 11) Samples.cache13
       = (Ret name, Samples.cache13).
Proof.
  apply (guessFunctionName_window Samples.env "http://localhost/app.js" 11
           Samples.cache12 Samples.cache13 Samples.twelve_lines Samples.thirteen_lines
           eq_refl eq_refl ltac:(discriminate) ltac:(discriminate)).
  intros i Hi. cbn [array_get].
  destruct (Z.leb_spec 0 i) as [Hpos|]; [|reflexivity].
  unfold Samples.thirteen_lines. symmetry. apply lookup_app_l. cbn. lia.
Defined.

(** ** Positions in a source *)

Lemma newline_free_app (a b : string) :
  newline_free (a +:+ b) = newline_free a && newline_free b.
Proof. apply all_chars_app. Qed.

Lemma split_on_newline_free (s : string) :
  forall cur, newline_free cur = true ->
    Forall (fun l => newline_free l = true) (split_on (ascii_of_nat 10) cur s).
Proof.
  induction s as [|c s IH]; intros cur Hcur; cbn [split_on].
  - constructor; [|constructor]. unfold newline_free in *. now rewrite all_chars_rev, Hcur.
  - destruct (Ascii.eqb c (ascii_of_nat 10)) eqn:E.
    + constructor; [|now apply IH]. unfold newline_free in *. now rewrite all_chars_rev, Hcur.
    + apply IH. unfold newline_free in *. cbn [all_chars]. now rewrite E.
Qed.

Lemma split_on_prefix (x s : string) :
  newline_free x = true ->
  forall cur, split_on (ascii_of_nat 10) cur (x +:+ s)
              = split_on (ascii_of_nat 10) (rev_string cur x) s.
Proof.
  induction x as [|c x IH]; intros Hx cur; [reflexivity|].
  change (String c x +:+ s) with (String c (x +:+ s)).
  unfold newline_free in Hx. cbn [all_chars] in Hx. apply andb_prop in Hx as [Hc Hx].
  cbn [split_on rev_string]. apply negb_true_iff in Hc. rewrite Hc. now apply IH.
Qed.

Lemma rev_rev_string (x : string) : rev_string "" (rev_string "" x) = x.
Proof. rewrite rev_string_rev. cbn [rev_string]. apply append_empty_r. Qed.

Lemma join_cons (x y : string) (l : list string) :
  join nl (x :: y :: l) = x +:+ nl +:+ join nl (y :: l).
Proof. reflexivity. Qed.

(** Splitting what was joined gives the lines back. *)
Lemma split_lines_join (lines : list string) :
  lines <> [] ->
  Forall (fun l => newline_free l = true) lines ->
  split_lines (join nl lines) = lines.
Proof.
  intros Hne H. unfold split_lines.
  induction lines as [|x [|y l] IH]; [contradiction | |].
  - cbn [join]. rewrite <- (append_empty_r x) at 1.
    rewrite split_on_prefix by (now inversion H). cbn [split_on].
    now rewrite rev_rev_string.
  - rewrite join_cons. inversion H as [|? ? Hx Hrest]; subst.
    rewrite split_on_prefix by exact Hx.
    change (nl +:+ join nl (y :: l)) with (String (ascii_of_nat 10) (join nl (y :: l))).
    cbn [split_on]. rewrite Ascii.eqb_refl, rev_rev_string. f_equal.
    apply IH; [discriminate | exact Hrest].
Qed.

Lemma join_snoc (l : list string) (a : string) :
  l <> [] -> join nl (l ++ [a]) = join nl l +:+ nl +:+ a.
Proof.
  induction l as [|x [|y l] IH]; intros Hne; [contradiction | reflexivity |].
  change ((x :: y :: l) ++ [a])%list with (x :: y :: (l ++ [a]))%list.
  rewrite !join_cons.
  change (y :: l ++ [a])%list with ((y :: l) ++ [a])%list.
  rewrite IH by discriminate. now rewrite !append_assoc.
Qed.

Lemma append_split (u v p s : string) :
  u +:+ v = p +:+ s ->
  (exists t, u = p +:+ t /\ s = t +:+ v) \/ (exists t, p = u +:+ t /\ v = t +:+ s).
Proof.
  revert p. induction u as [|c u IH]; intros p H.
  - right. exists p. split; [reflexivity | exact H].
  - destruct p as [|d p].
    + left. exists (String c u). split; [reflexivity | symmetry; exact H].
    + change (String c (u +:+ v) = String d (p +:+ s)) in H. injection H as -> H.
      destruct (IH p H) as [(t & -> & ->)|(t & -> & ->)]; [left | right]; exists t;
        split; reflexivity.
Qed.

(** A position in the joined text is a position in one of the lines. *)
Lemma join_position (lines : list string) :
  lines <> [] ->
  forall pre suf,
    join nl lines = pre +:+ suf ->
    exists (before after : list string) (a b : string),
      lines = (before ++ (a +:+ b) :: after)%list
      /\ pre = join nl (before ++ [a])
      /\ suf = b +:+ match after with [] => "" | _ => nl +:+ join nl after end.
Proof.
  induction lines as [|x [|y l] IH]; intros Hne pre suf H; [contradiction | |].
  - exists [], [], pre, suf. cbn [join] in H. subst x.
    split; [reflexivity|]. split; [reflexivity|]. now rewrite append_empty_r.
  - rewrite join_cons in H. destruct (append_split _ _ _ _ H) as [(t & -> & ->)|(t & -> & Ht)].
    + exists [], (y :: l), pre, t. repeat split.
    + destruct t as [|c t].
      * exists [], (y :: l), x, "". rewrite !append_empty_r.
        split; [reflexivity|]. split; [reflexivity|]. symmetry. exact Ht.
      * change (nl +:+ join nl (y :: l)) with (String (ascii_of_nat 10) (join nl (y :: l))) in Ht.
        change (String c t +:+ suf) with (String c (t +:+ suf)) in Ht.
        injection Ht as <- Ht.
        destruct (IH ltac:(discriminate) t suf Ht) as (before & after & a & b & E & -> & ->).
        exists (x :: before), after, a, b. rewrite E.
        split; [reflexivity|]. split; [|reflexivity].
        change ((x :: before) ++ [a])%list with (x :: (before ++ [a]))%list.
        destruct (before ++ [a])%list as [|z zs] eqn:Ez; [now destruct before|].
        now rewrite join_cons.
Qed.

Lemma last_index_skip (c : ascii) (y : string) (upto : nat) (x : string) :
  forall (i : nat) (found : Z),
    (i + String.length x <= upto)%nat ->
    last_index_upto c (x +:+ String c y) i upto found
    = last_index_upto c y (i + String.length x + 1) upto (Z.of_nat (i + String.length x)).
Proof.
  induction x as [|d x IH]; intros i found Hi.
  - change ("" +:+ String c y) with (String c y). cbn [last_index_upto String.length].
    destruct (Nat.ltb_spec upto i) as [H|_]; [cbn in Hi; lia|].
    rewrite Ascii.eqb_refl, !Nat.add_0_r. now replace (i + 1)%nat with (S i) by lia.
  - change (String d x +:+ String c y) with (String d (x +:+ String c y)).
    cbn [last_index_upto String.length] in *.
    destruct (Nat.ltb_spec upto i) as [H|_]; [lia|].
    rewrite IH by lia.
    now replace (S i + String.length x)%nat with (i + S (String.length x))%nat by lia.
Qed.

Lemma last_index_clean (c : ascii) (z : string) (upto : nat) (a : string) :
  all_chars (fun d => negb (Ascii.eqb d c)) a = true ->
  forall (i : nat) (found : Z),
    (i + String.length a = upto)%nat ->
    last_index_upto c (a +:+ z) i upto found
    = match z with
      | String d _ => if Ascii.eqb c d then Z.of_nat upto else found
      | EmptyString => found
      end.
Proof.
  induction a as [|e a IH]; intros Ha i found Hi.
  - change ("" +:+ z) with z. cbn in Hi. rewrite Nat.add_0_r in Hi. subst i.
    destruct z as [|d z]; [reflexivity|]. cbn [last_index_upto].
    rewrite Nat.ltb_irrefl. destruct z as [|d' z]; [reflexivity|].
    cbn [last_index_upto].
    destruct (Nat.ltb_spec upto (S upto)) as [_|H]; [reflexivity | lia].
  - change (String e a +:+ z) with (String e (a +:+ z)).
    cbn [all_chars] in Ha. apply andb_prop in Ha as [He Ha].
    cbn [last_index_upto String.length] in *.
    destruct (Nat.ltb_spec upto i) as [H|_]; [lia|].
    apply negb_true_iff in He. rewrite Ascii.eqb_sym, He.
    apply (IH Ha). lia.
Qed.

Section CachedLines.
Context (env : Env).

Let clean (c : Cache) : Prop :=
  forall (u : string) (lines : list string),
    c !! u = Some lines -> Forall (fun l => newline_free l = true) lines.

Lemma getSource_newline_free (url : prim) (c c' : Cache) (lines : list string) :
  clean c ->
  getSource env url c = (Ret lines, c') ->
  Forall (fun l => newline_free l = true) lines /\ clean c'.
Proof.
  intros Hc. destruct url as [| | b | n | | u]; try (intros [= <- <-]; split; [constructor | exact Hc]).
  unfold getSource, bind, get, put, ret.
  destruct (c !! u) as [cached|] eqn:Hu.
  - intros [= <- <-]. split; [exact (Hc _ _ Hu) | exact Hc].
  - intros [= <- <-].
    match goal with |- Forall _ ?l /\ _ => set (fresh := l) end.
    assert (Hfresh : Forall (fun l => newline_free l = true) fresh).
    { unfold fresh. destruct (String.eqb _ ""); [constructor|].
      now apply split_on_newline_free. }
    split; [exact Hfresh|].
    intros u' lines'. rewrite lookup_insert. case_decide.
    + intros [= <-]. exact Hfresh.
    + apply Hc.
Qed.

Lemma reachable_newline_free (c : Cache) : reachable env c -> clean c.
Proof.
  induction 1 as [|c url _ IH].
  - intros u lines. rewrite lookup_empty. discriminate.
  - destruct (getSource env url c) as [[lines|e] c'] eqn:E.
    + exact (proj2 (getSource_newline_free url c c' lines IH E)).
    + destruct (getSource_returns env url c) as (lines & c1 & E1). congruence.
Qed.

End CachedLines.

(** X7. [findSourceInUrls] answers for the first URL whose source the
    expression matches.  The text before the match is a number of whole
    lines and the beginning of the next one: the line answered is the
    number of that line, counted from 1, and the column the length of
    that beginning, counted from 0.  A match that starts on the line
    feed that ends a line gets that line and the column -1. *)
Theorem findSourceInUrls_location (env : Env) (r : re) (u : prim) (rest : list prim)
    (c c' : Cache) (lines : list string) (m : result)
    (Hc : reachable env c)
    (Hsrc : getSource env u c = (Ret lines, c'))
    (Hlines : lines <> [])
    (Hm : exec r (join nl lines) = Some m) :
  exists (loc : location) (before after : list string) (a b : string),
    findSourceInUrls env r (u :: rest) c = (Ret (Some loc), c')
    /\ loc_url loc = u
    /\ lines = (before ++ (a +:+ b) :: after)%list
    /\ take (index m) (join nl lines) = join nl (before ++ [a])
    /\ loc_line loc = Z.of_nat (length before) + 1
    /\ loc_column loc = match b, after with
                        | EmptyString, _ :: _ => -1
                        | _, _ => Z.of_nat (String.length a)
                        end.
Proof.
  pose proof (proj1 (getSource_newline_free env u c c' lines
                       (reachable_newline_free env c Hc) Hsrc)) as Hclean.
  assert (Hpos : exists pre suf, join nl lines = pre +:+ suf
                                 /\ index m = String.length pre).
  { unfold exec in Hm. pose proof (search_leftmost r (join nl lines) None 0) as Hs.
    destruct (search r None (join nl lines) 0) as [[i st]|]; [|discriminate Hm].
    injection Hm as <-. destruct Hs as (pre & suf & E & -> & _). now exists pre, suf. }
  destruct Hpos as (pre & suf & Esrc & Eidx).
  destruct (join_position lines Hlines pre suf Esrc) as (before & after & a & b & El & Epre & Esuf).
  assert (Hparts : Forall (fun l => newline_free l = true) before
                   /\ newline_free a = true /\ newline_free b = true).
  { rewrite El in Hclean. apply Forall_app in Hclean as [Hb Hrest].
    inversion Hrest as [|? ? Hab _]; subst. rewrite newline_free_app in Hab.
    apply andb_prop in Hab as [Ha Hb']. auto. }
  destruct Hparts as (Hbefore & Ha & Hb).
  eexists _, before, after, a, b. split.
  { cbn [findSourceInUrls]. rewrite (bind_eq_ret _ _ _ _ _ Hsrc).
    destruct lines as [|l0 ls]; [contradiction|]. cbn [length Nat.eqb].
    rewrite Hm. reflexivity. }
  cbn [loc_url loc_line loc_column].
  assert (Etake : take (index m) (join nl lines) = pre).
  { rewrite Esrc, Eidx. apply take_append. }
  split; [reflexivity|]. split; [exact El|]. split; [now rewrite Etake|]. split.
  - rewrite Etake, Epre, split_lines_join.
    + rewrite length_app. cbn. lia.
    + now destruct before.
    + apply Forall_app. split; [exact Hbefore | now repeat constructor].
  - rewrite Esrc, Eidx, Esuf.
    assert (Hclean_a : all_chars (fun d => negb (Ascii.eqb d (ascii_of_nat 10))) a = true)
      by exact Ha.
    set (tail := match after with [] => "" | _ :: _ => nl +:+ join nl after end).
    assert (Hlast : forall (i : nat) (found : Z),
               (i + String.length a)%nat = String.length pre ->
               last_index_upto (ascii_of_nat 10) (a +:+ b +:+ tail) i (String.length pre) found
               = match b, after with
                 | EmptyString, _ :: _ => Z.of_nat (String.length pre)
                 | _, _ => found
                 end).
    { intros i found Hi. rewrite (last_index_clean _ _ _ a Hclean_a i found Hi).
      destruct b as [|d b'].
      - change ("" +:+ tail) with tail. unfold tail. destruct after as [|y l]; reflexivity.
      - change (String d b' +:+ tail) with (String d (b' +:+ tail)).
        unfold newline_free in Hb. cbn [all_chars] in Hb. apply andb_prop in Hb as [Hd _].
        apply negb_true_iff in Hd. now rewrite Ascii.eqb_sym, Hd. }
    destruct before as [|x before'].
    + cbn [app join] in Epre. subst pre.
      rewrite (Hlast 0%nat (-1)) by reflexivity.
      generalize (Z.of_nat (String.length a)). intros z.
      destruct b as [|d b']; [destruct after|]. all: lia.
    + rewrite join_snoc in Epre by discriminate. subst pre.
      rewrite append_assoc. 
      change (nl +:+ a) with (String (ascii_of_nat 10) a).
      change (String (ascii_of_nat 10) a +:+ b +:+ tail)
        with (String (ascii_of_nat 10) (a +:+ b +:+ tail)).
      rewrite last_index_skip
        by (rewrite string_length_append; cbn [String.length]; lia).
      rewrite Hlast by (rewrite !string_length_append; cbn [String.length nl]; lia).
      rewrite !string_length_append. cbn [String.length nl].
      destruct b as [|d b']; [destruct after|]. all: lia.
Qed.

Lemma findSourceInUrls_location_witness :
  exists (loc : location) (before after : list string) (a b : string),
    findSourceInUrls Samples.remote (lit false "function") [PStr "http://localhost/app.js"] ∅
    = (Ret (Some loc), {[ "http://localhost/app.js" := ["var a = 1;"; "  function f() {"; "}"] ]})
    /\ loc_url loc = PStr "http://localhost/app.js"
    /\ ["var a = 1;"; "  function f() {"; "}"] = (before ++ (a +:+ b) :: after)%list
    /\ take 13 (join nl ["var a = 1;"; "  function f() {"; "}"]) = join nl (before ++ [a])
    /\ loc_line loc = Z.of_nat (length before) + 1
    /\ loc_column loc = match b, after with
                        | EmptyString, _ :: _ => -1
                        | _, _ => Z.of_nat (String.length a)
                        end.
Proof.
  apply (findSourceInUrls_location Samples.remote (lit false "function")
           (PStr "http://localhost/app.js") [] ∅
           {[ "http://localhost/app.js" := ["var a = 1;"; "  function f() {"; "}"] ]}
           ["var a = 1;"; "  function f() {"; "}"]
           {| index := 13; captures := [(0%nat, Some "function")] |}).
  - constructor.
  - vm_compute. reflexivity.
  - discriminate.
  - vm_compute. reflexivity.
Defined.

(** ** The top frame of a Gecko trace *)

(** X8. A Gecko trace whose top line carries no column, on an error
    object that has a [columnNumber] (Firefox records the column of the
    top frame there): the strategy writes the column into [stack[0]]
    before the first frame has been pushed, and so raises.  With [debug]
    off [computeStackTrace] drops the exception and goes on with the
    later strategies, so that the text of [stack] is not used at all;
    with [debug] on the exception reaches the caller. *)
Theorem computeStackTraceFromStackProp_gecko_top (env : Env) (chain : option (list Fn))
    (o : Err.t) (depth : prim) (c : Cache)
    (text l : string) (rest : list string) (parts : result)
    (Hstack : Err.stack o = PStr text)
    (Hsome : text <> "")
    (Hlines : split_lines text = l :: rest)
    (Hchrome : exec chrome l = None)
    (Hwinjs : exec winjs l = None)
    (Hgecko : exec gecko l = Some parts)
    (Heval : truthy (group parts 3) && contains " > eval" (group parts 3) = false)
    (Hcolumn : truthy (group parts 5) = false)
    (HcolumnNumber : Err.columnNumber o <> PUndef) :
  computeStackTraceFromStackProp env (VObj o) c
  = (Throw (Engine "TypeError" "Cannot set properties of undefined"), c)
  /\ (Config.debug (config env) = false ->
      truthy (Err.stacktrace o) = false ->
      computeStackTrace env chain (VObj o) depth c
      = first_non_null
          [ computeStackTraceFromOperaMultiLineMessage env (VObj o);
            walkingCallerChain env chain (VObj o) (add (depth_or_zero depth) (PNum 1)) ]
          (failed (VObj o)) c)
  /\ (Config.debug (config env) = true ->
      truthy (Err.stacktrace o) = false ->
      computeStackTrace env chain (VObj o) depth c
      = (Throw (Engine "TypeError" "Cannot set properties of undefined"), c)).
Proof.
  assert (Htext : truthy (PStr text) = true).
  { destruct text; [contradiction | reflexivity]. }
  assert (E : computeStackTraceFromStackProp env (VObj o) c
              = (Throw (Engine "TypeError" "Cannot set properties of undefined"), c)).
  { unfold computeStackTraceFromStackProp. cbn [prop]. rewrite bind_ret_l, Hstack, Htext.
    cbn [negb split_method]. rewrite bind_ret_l, bind_ret_l, Hlines.
    cbn [stack_lines]. rewrite Hchrome, Hwinjs, Hgecko, Heval, Hcolumn.
    cbn [Nat.eqb negb andb prop]. unfold bind, ret.
    destruct (Err.columnNumber o); try reflexivity. contradiction. }
  assert (Ealt : truthy (Err.stacktrace o) = false ->
                 computeStackTraceFromStacktraceProp env (VObj o) c = (Ret None, c)).
  { intros H. unfold computeStackTraceFromStacktraceProp. cbn [prop].
    now rewrite bind_ret_l, H. }
  split; [exact E|]. split.
  - intros Hdebug Halt.
    rewrite (computeStackTrace_first_non_null env chain (VObj o) depth c Hdebug).
    cbn [first_non_null]. now rewrite (Ealt Halt), E.
  - intros Hdebug Halt. unfold computeStackTrace, attempt.
    unfold bind at 1, try_catch at 1. rewrite (Ealt Halt).
    unfold bind at 1, try_catch at 1. rewrite E, Hdebug. reflexivity.
Qed.

Lemma computeStackTraceFromStackProp_gecko_top_witness :
  computeStackTraceFromStackProp Samples.env (VObj Samples.firefox3) ∅
  = (Throw (Engine "TypeError" "Cannot set properties of undefined"), ∅)
  /\ computeStackTrace Samples.env None (VObj Samples.firefox3) PUndef ∅
     = first_non_null
         [ computeStackTraceFromOperaMultiLineMessage Samples.env (VObj Samples.firefox3);
           walkingCallerChain Samples.env None (VObj Samples.firefox3) (PNum 1) ]
         (failed (VObj Samples.firefox3)) ∅.
Proof.
  destruct (computeStackTraceFromStackProp_gecko_top Samples.env None Samples.firefox3 PUndef ∅
              ("f@http://localhost/app.js:10" +:+ nl +:+ "g@http://localhost/app.js:20")
              "f@http://localhost/app.js:10" ["g@http://localhost/app.js:20"]
              {| index := 0;
                 captures :=
                   [(0%nat, Some "f@http://localhost/app.js:10");
                    (4%nat, Some "10"); (4%nat, None);
                    (3%nat, Some "http://localhost/app.js"); (1%nat, Some "f")] |}
              eq_refl ltac:(discriminate) eq_refl) as (H1 & H2 & _).
  - vm_compute. reflexivity.
  - vm_compute. reflexivity.
  - vm_compute. reflexivity.
  - reflexivity.
  - reflexivity.
  - discriminate.
  - split; [exact H1 | apply H2; reflexivity].
Defined.

(** ** The shape of a trace *)

Lemma bind_inv {S A B} (m : M S A) (k : A -> M S B) (s s'' : S) (b : B) :
  bind m k s = (Ret b, s'') ->
  exists a s', m s = (Ret a, s') /\ k a s' = (Ret b, s'').
Proof.
  unfold bind. destruct (m s) as [[a|e] s']; [eauto | discriminate].
Qed.

Tactic Notation "invert_bind" hyp(H) "as" ident(a) ident(s) ident(E) :=
  apply bind_inv in H; destruct H as (a & s & E & H).

Lemma prop_inv (p : Err.t -> prim) (ex : value) (c c' : Cache) (v : prim) :
  prop p ex c = (Ret v, c') ->
  c' = c /\ nullish ex = false /\ forall c0, prop p ex c0 = (Ret v, c0).
Proof.
  destruct ex as [[| | b | n | | s]|o]; cbn; intros [= <- <-]; repeat split.
Qed.

Section Shape.
Context (env : Env).

Let has_context (f : Frame.t) : Prop := ctx_truthy (Frame.context f) = true.
Let named (f : Frame.t) : Prop := truthy (Frame.func f) = true.

Lemma stacktrace_element_shape (l : string) (next : option string)
    (stack st : list Frame.t) (c c' : Cache) :
  stacktrace_element env l next stack c = (Ret st, c') ->
  st = stack \/ exists f, st = (stack ++ [f])%list /\ has_context f.
Proof.
  unfold stacktrace_element.
  destruct (match exec opera10Regex l with Some _ => _ | None => _ end) as [element|];
    [|intros [= <- <-]; now left].
  intros H. invert_bind H as func c1 Ef. invert_bind H as context c2 Ec. injection H as <- <-.
  right. eexists. split; [reflexivity|]. unfold has_context. cbn.
  destruct (ctx_truthy context) eqn:Ha; [exact Ha | reflexivity].
Qed.

Lemma stacktrace_lines_shape (lines : list string) :
  forall (stack st : list Frame.t) (c c' : Cache),
    stacktrace_lines env lines stack c = (Ret st, c') ->
    exists extra, st = (stack ++ extra)%list /\ Forall has_context extra.
Proof.
  assert (H : forall n lines, (length lines <= n)%nat ->
              forall stack st c c',
                stacktrace_lines env lines stack c = (Ret st, c') ->
                exists extra, st = (stack ++ extra)%list /\ Forall has_context extra).
  { induction n as [|n IH]; intros [|l after] Hlen stack st c c'; cbn [stacktrace_lines];
      try (cbn in Hlen; lia);
      try (intros [= <- <-]; exists []; split; [now rewrite app_nil_r | constructor]).
    intros H. invert_bind H as a c1 E.
    assert (Hstep : exists extra, a = (stack ++ extra)%list /\ Forall has_context extra).
    { destruct (stacktrace_element_shape _ _ _ _ _ _ E) as [->|(f & -> & Hf)].
      - exists []. split; [now rewrite app_nil_r | constructor].
      - exists [f]. split; [reflexivity | now constructor]. }
    destruct Hstep as (extra & -> & Hextra).
    destruct after as [|l' rest].
    - injection H as <- <-. eauto.
    - apply IH in H; [|cbn in Hlen |- *; lia].
      destruct H as (extra' & -> & Hextra').
      exists (extra ++ extra')%list. split; [now rewrite app_assoc|].
      now apply Forall_app. }
  intros stack st c c'. now apply (H (length lines)).
Qed.

Lemma stacktrace_strategy_shape (ex : value) (c c' : Cache) (t : Trace.t) :
  computeStackTraceFromStacktraceProp env ex c = (Ret (Some t), c') ->
  Trace.mode t = "stacktrace"
  /\ Trace.incomplete t = None /\ Trace.partial t = None
  /\ (forall c0, prop Err.name ex c0 = (Ret (Trace.name t), c0))
  /\ (forall c0, prop Err.message ex c0 = (Ret (Trace.message t), c0))
  /\ exists frames, Trace.stack t = Some frames /\ frames <> []
                    /\ Forall has_context frames.
Proof.
  unfold computeStackTraceFromStacktraceProp. intros H. invert_bind H as stacktrace c1 E1.
  destruct (negb (truthy stacktrace)); [discriminate H|].
  invert_bind H as lines c2 E2. invert_bind H as stack c3 E3.
  destruct (stacktrace_lines_shape _ _ _ _ _ E3) as (extra & Hst & Hextra).
  cbn [app] in Hst. subst stack.
  destruct extra as [|f extra]; [discriminate H|].
  invert_bind H as name c4 E4. invert_bind H as message c5 E5. injection H as <- <-.
  apply prop_inv in E4 as (_ & _ & E4). apply prop_inv in E5 as (_ & _ & E5).
  repeat split; try assumption. eexists. repeat split; [discriminate | exact Hextra].
Qed.

Lemma push_element_shape (element : Frame.t) (stack st : list Frame.t) (c c' : Cache) :
  named element ->
  push_element env element stack c = (Ret st, c') ->
  exists f, st = (stack ++ [f])%list /\ named f.
Proof.
  unfold push_element, named. intros Hn H. rewrite Hn in H. cbn [negb andb] in H.
  rewrite bind_ret_l in H. invert_bind H as context c1 E. injection H as <- <-.
  eexists. split; [reflexivity | exact Hn].
Qed.

Lemma or_else_unknown (v : prim) : truthy (or_else v (PStr UNKNOWN_FUNCTION)) = true.
Proof. unfold or_else. destruct (truthy v) eqn:E; [exact E | reflexivity]. Qed.

Lemma stack_lines_shape (ex : value) (lines : list string) :
  forall (i : nat) (stack st : list Frame.t) (c c' : Cache),
    Forall named stack ->
    stack_lines env ex lines i stack c = (Ret st, c') ->
    Forall named st /\ (length stack <= length st)%nat.
Proof.
  induction lines as [|l rest IH]; intros i stack st c c' Hstack; cbn [stack_lines].
  - intros [= <- <-]. split; [exact Hstack | lia].
  - destruct (exec chrome l) as [parts|].
    { intros H. invert_bind H as a c1 E.
      apply push_element_shape in E as (f & -> & Hf); [|apply or_else_unknown].
      apply IH in H; [|apply Forall_app; split; [exact Hstack | now constructor]].
      destruct H as [H1 H2]. split; [exact H1|]. rewrite length_app in H2. lia. }
    destruct (exec winjs l) as [parts|].
    { intros H. invert_bind H as a c1 E.
      apply push_element_shape in E as (f & -> & Hf); [|apply or_else_unknown].
      apply IH in H; [|apply Forall_app; split; [exact Hstack | now constructor]].
      destruct H as [H1 H2]. split; [exact H1|]. rewrite length_app in H2. lia. }
    destruct (exec gecko l) as [parts|]; [|apply IH; exact Hstack].
    intros H. invert_bind H as a c1 E. invert_bind H as a0 c2 E0.
    assert (Ha : Forall named a /\ length a = length stack).
    { destruct (if truthy (group parts 3) && contains " > eval" (group parts 3)
                then exec_prim geckoEval (group parts 3) else None).
      - injection E as <- <-. split; [exact Hstack | reflexivity].
      - destruct ((i =? 0)%nat && negb (truthy (group parts 5)));
          [|injection E as <- <-; split; [exact Hstack | reflexivity]].
        invert_bind E as a1 c3 E1. destruct (negb (strict_eq a1 PUndef));
          [|injection E as <- <-; split; [exact Hstack | reflexivity]].
        destruct stack as [|top below]; [discriminate E|].
        injection E as <- <-. split; [|reflexivity].
        inversion Hstack; subst. constructor; assumption. }
    destruct Ha as [Ha Hlen].
    apply push_element_shape in E0 as (f & -> & Hf); [|apply or_else_unknown].
    apply IH in H; [|apply Forall_app; split; [exact Ha | now constructor]].
    destruct H as [H1 H2]. split; [exact H1|]. rewrite length_app in H2. lia.
Qed.

Lemma stack_strategy_shape (ex : value) (c c' : Cache) (t : Trace.t) :
  computeStackTraceFromStackProp env ex c = (Ret (Some t), c') ->
  Trace.mode t = "stack"
  /\ Trace.incomplete t = None /\ Trace.partial t = None
  /\ (forall c0, prop Err.name ex c0 = (Ret (Trace.name t), c0))
  /\ (forall c0, prop Err.message ex c0 = (Ret (Trace.message t), c0))
  /\ exists frames, Trace.stack t = Some frames /\ frames <> []
                    /\ Forall named frames.
Proof.
  unfold computeStackTraceFromStackProp. intros H. invert_bind H as ex_stack c1 E1.
  destruct (negb (truthy ex_stack)); [discriminate H|].
  invert_bind H as lines c2 E2. invert_bind H as ex_message c3 E3. invert_bind H as stack c4 E4.
  apply stack_lines_shape in E4 as [Hnamed _]; [|constructor].
  destruct stack as [|top below]; [discriminate H|].
  invert_bind H as stack' c5 E5. invert_bind H as name c6 E6. injection H as <- <-.
  apply prop_inv in E3 as (_ & _ & E3). apply prop_inv in E6 as (_ & _ & E6).
  repeat split; try assumption.
  assert (Hst : stack' <> [] /\ Forall named stack').
  { destruct (exec_prim isUndefinedMessage ex_message).
    - destruct (truthy (Frame.line top) && negb (truthy (Frame.column top))).
      + invert_bind E5 as column c7 E7. injection E5 as <- <-. split; [discriminate|].
        inversion Hnamed; subst. constructor; assumption.
      + injection E5 as <- <-. split; [discriminate | exact Hnamed].
    - injection E5 as <- <-. split; [discriminate | exact Hnamed]. }
  destruct Hst. eexists. repeat split; eassumption.
Qed.

Lemma multiline_element_shape (w : Window) (blocks : list Script) (l : string)
    (next : option string) (stack st : list Frame.t) (c c' : Cache) :
  multiline_element env w blocks l next stack c = (Ret st, c') ->
  st = stack \/ exists f, st = (stack ++ [f])%list /\ has_context f.
Proof.
  unfold multiline_element. intros H. invert_bind H as item c1 E1.
  destruct item as [item|]; [|injection H as <- <-; now left].
  invert_bind H as func c2 E2. invert_bind H as context c3 E3. invert_bind H as context' c4 E4.
  injection H as <- <-.
  right. eexists. split; [reflexivity|]. unfold has_context. cbn.
  destruct context as [| |lines]; try (injection E4 as <- <-; reflexivity).
  destruct (lines !! _) as [[| | | | |midline]|]; try discriminate E4.
  invert_bind E4 as excerpt c5 E5. destruct (String.eqb _ _); injection E4 as <- <-; reflexivity.
Qed.

Lemma multiline_lines_shape (w : Window) (blocks : list Script) (lines : list string) :
  forall (stack st : list Frame.t) (c c' : Cache),
    multiline_lines env w blocks lines stack c = (Ret st, c') ->
    exists extra, st = (stack ++ extra)%list /\ Forall has_context extra.
Proof.
  assert (H : forall n lines, (length lines <= n)%nat ->
              forall stack st c c',
                multiline_lines env w blocks lines stack c = (Ret st, c') ->
                exists extra, st = (stack ++ extra)%list /\ Forall has_context extra).
  { induction n as [|n IH]; intros [|l after] Hlen stack st c c'; cbn [multiline_lines];
      try (cbn in Hlen; lia);
      try (intros [= <- <-]; exists []; split; [now rewrite app_nil_r | constructor]).
    intros H. invert_bind H as a c1 E.
    assert (Hstep : exists extra, a = (stack ++ extra)%list /\ Forall has_context extra).
    { destruct (multiline_element_shape _ _ _ _ _ _ _ _ E) as [->|(f & -> & Hf)].
      - exists []. split; [now rewrite app_nil_r | constructor].
      - exists [f]. split; [reflexivity | now constructor]. }
    destruct Hstep as (extra & -> & Hextra).
    destruct after as [|l' rest].
    - injection H as <- <-. eauto.
    - apply IH in H; [|cbn in Hlen |- *; lia].
      destruct H as (extra' & -> & Hextra').
      exists (extra ++ extra')%list. split; [now rewrite app_assoc|].
      now apply Forall_app. }
  intros stack st c c'. now apply (H (length lines)).
Qed.

Lemma multiline_strategy_shape (ex : value) (c c' : Cache) (t : Trace.t) :
  computeStackTraceFromOperaMultiLineMessage env ex c = (Ret (Some t), c') ->
  Trace.mode t = "multiline"
  /\ Trace.incomplete t = None /\ Trace.partial t = None
  /\ (forall c0, prop Err.name ex c0 = (Ret (Trace.name t), c0))
  /\ (exists (message : string) (lines : list string),
         (forall c0, prop Err.message ex c0 = (Ret (PStr message), c0))
         /\ split_lines message = lines
         /\ (4 <= length lines)%nat
         /\ Trace.message t = prim_of_line (head lines))
  /\ exists frames, Trace.stack t = Some frames /\ frames <> []
                    /\ Forall has_context frames.
Proof.
  unfold computeStackTraceFromOperaMultiLineMessage. intros H.
  invert_bind H as msg c1 E1. invert_bind H as lines c2 E2.
  destruct (Nat.ltb_spec (length lines) 4) as [Hlt|Hge]; [discriminate H|].
  destruct (window env) as [w|]; [|discriminate H].
  invert_bind H as stack c3 E3.
  destruct (multiline_lines_shape _ _ _ _ _ _ _ E3) as (extra & Hst & Hextra).
  cbn [app] in Hst. subst stack.
  destruct extra as [|f extra]; [discriminate H|].
  invert_bind H as name c4 E4. injection H as <- <-.
  apply prop_inv in E1 as (-> & _ & E1). apply prop_inv in E4 as (_ & _ & E4).
  destruct msg as [| | | | |message]; try discriminate E2. injection E2 as <- <-.
  repeat split; try assumption.
  - exists message, (split_lines message). repeat split; assumption.
  - eexists. repeat split; [discriminate | exact Hextra].
Qed.

Lemma augment_flags (url lineNo message : prim) (s s' : Cache * Trace.t) (b : bool) :
  augmentStackTraceWithInitialElement env url lineNo message s = (Ret b, s') ->
  Trace.mode (snd s') = Trace.mode (snd s)
  /\ Trace.name (snd s') = Trace.name (snd s)
  /\ Trace.message (snd s') = Trace.message (snd s)
  /\ Trace.incomplete (snd s') = Some (negb (truthy url && truthy lineNo))
  /\ (is_Some (Trace.stack (snd s)) -> is_Some (Trace.stack (snd s'))).
Proof.
  unfold augmentStackTraceWithInitialElement.
  destruct (truthy url && truthy lineNo).
  - intros H. invert_bind H as u s1 E. invert_bind H as initial s2 E0.
    invert_bind H as stackInfo s3 E1.
    unfold modify_trace in E. injection E as <- <-.
    unfold on_cache in E0. cbn [fst snd] in E0.
    destruct (initial_element env url lineNo message (fst s)) as [[x|e] cx];
      [|discriminate E0]. injection E0 as -> <-.
    unfold get_trace in E1. injection E1 as <- <-.
    cbn [snd Trace.stack Trace.set_incomplete] in H.
    destruct (Trace.stack (snd s)) as [[|top below]|] eqn:Hst; [| |discriminate H].
    + unfold unshift, bind, modify_trace, ret in H. injection H as <- <-.
      cbn. repeat split; eauto.
    + assert (Hun : forall r, unshift initial (top :: below)
                                (cx, Trace.set_incomplete false (snd s)) = r ->
                      r = (Ret true, (cx, Trace.set_partial true
                                            (Trace.set_stack (initial :: top :: below)
                                               (Trace.set_incomplete false (snd s)))))).
      { intros r <-. reflexivity. }
      destruct (strict_eq (Frame.url top) (Frame.url initial)).
      * destruct (strict_eq (Frame.line top) (Frame.line initial)).
        -- injection H as <- <-. cbn. rewrite Hst. repeat split; eauto.
        -- destruct (negb (truthy (Frame.line top))
                     && strict_eq (Frame.func top) (Frame.func initial)).
           ++ unfold bind, modify_trace, ret in H. injection H as <- <-.
              cbn. repeat split; eauto.
           ++ apply Hun in H. injection H as -> ->. cbn. repeat split; eauto.
      * apply Hun in H. injection H as -> ->. cbn. repeat split; eauto.
  - unfold bind, modify_trace, ret. intros [= <- <-]. cbn. repeat split; eauto.
Qed.

Lemma callers_strategy_shape (chain : option (list Fn)) (ex : value) (depth : prim)
    (c c' : Cache) (t : Trace.t) :
  computeStackTraceByWalkingCallerChain env chain ex depth c = (Ret t, c') ->
  Trace.mode t = "callers"
  /\ (forall c0, prop Err.name ex c0 = (Ret (Trace.name t), c0))
  /\ (forall c0, prop Err.message ex c0 = (Ret (Trace.message t), c0))
  /\ is_Some (Trace.incomplete t)
  /\ is_Some (Trace.stack t).
Proof.
  unfold computeStackTraceByWalkingCallerChain.
  destruct chain as [callers|]; [|discriminate].
  intros H. invert_bind H as stack c1 E. invert_bind H as name c2 E0. invert_bind H as message c3 E1.
  invert_bind H as url c4 E2. invert_bind H as lineNo c5 E3. invert_bind H as text c6 E4.
  apply prop_inv in E0 as (_ & _ & E0). apply prop_inv in E1 as (_ & _ & E1).
  unfold with_trace in H.
  destruct (augmentStackTraceWithInitialElement env url lineNo text _) as [[b|e] [cx tx]] eqn:Ea;
    [|discriminate H].
  injection H as <- <-.
  apply augment_flags in Ea as (Hm & Hn & Hmsg & Hinc & Hst). cbn [snd] in *.
  rewrite Hm, Hn, Hmsg, Hinc. repeat split; eauto.
Qed.

End Shape.

(** X9. With [debug] off, a value that is neither [null] nor
    [undefined] always gets a trace, of one of five shapes: ['stacktrace']
    and ['multiline'] traces have at least one frame and every frame has
    a context array; ['stack'] traces have at least one frame and every
    frame has a function name (['?'] at least: the name is never
    guessed from the source); ['callers'] traces have a frame array,
    possibly empty, and the [incomplete] flag; the ['failed'] trace has
    no frame array.  The name is the one of the error object. *)
Theorem computeStackTrace_shape (env : Env) (chain : option (list Fn))
    (ex : value) (depth : prim) (c : Cache)
    (Hdebug : Config.debug (config env) = false)
    (Hex : nullish ex = false) :
  exists (t : Trace.t) (c' : Cache),
    computeStackTrace env chain ex depth c = (Ret t, c')
    /\ Trace.name t = match ex with VObj o => Err.name o | VPrim _ => PUndef end
    /\ ((Trace.mode t = "stacktrace"
         /\ exists frames, Trace.stack t = Some frames /\ frames <> []
              /\ Forall (fun f => ctx_truthy (Frame.context f) = true) frames)
        \/ (Trace.mode t = "stack"
            /\ exists frames, Trace.stack t = Some frames /\ frames <> []
                 /\ Forall (fun f => truthy (Frame.func f) = true) frames)
        \/ (Trace.mode t = "multiline"
            /\ exists frames, Trace.stack t = Some frames /\ frames <> []
                 /\ Forall (fun f => ctx_truthy (Frame.context f) = true) frames)
        \/ (Trace.mode t = "callers"
            /\ is_Some (Trace.stack t) /\ is_Some (Trace.incomplete t))
        \/ (Trace.mode t = "failed"
            /\ Trace.stack t = None /\ Trace.incomplete t = None)).
Proof.
  assert (Hname : forall v, (forall c0 : Cache, prop Err.name ex c0 = (Ret v, c0)) ->
                    v = match ex with VObj o => Err.name o | VPrim _ => PUndef end).
  { intros v Hv. specialize (Hv c).
    destruct ex as [[| | b | n | | s]|o]; try discriminate Hex; now injection Hv as <-. }
  rewrite (computeStackTrace_first_non_null env chain ex depth c Hdebug).
  cbn [first_non_null].
  destruct (computeStackTraceFromStacktraceProp env ex c) as [[[t|]|e] c1] eqn:E1.
  { destruct (stacktrace_strategy_shape env ex c c1 t E1)
      as (Hm & _ & _ & Hn & _ & frames & Hs & Hne & Hf).
    exists t, c1. split; [reflexivity|]. split; [now apply Hname|].
    left. split; [exact Hm|]. now exists frames. }
  all: destruct (computeStackTraceFromStackProp env ex c1) as [[[t|]|e1] c2] eqn:E2.
  all: try (destruct (stack_strategy_shape env ex c1 c2 t E2)
              as (Hm & _ & _ & Hn & _ & frames & Hs & Hne & Hf);
            exists t, c2; split; [reflexivity|]; split; [now apply Hname|];
            right; left; split; [exact Hm|]; now exists frames).
  all: destruct (computeStackTraceFromOperaMultiLineMessage env ex c2) as [[[t|]|e2] c3] eqn:E3.
  all: try (destruct (multiline_strategy_shape env ex c2 c3 t E3)
              as (Hm & _ & _ & Hn & _ & frames & Hs & Hne & Hf);
            exists t, c3; split; [reflexivity|]; split; [now apply Hname|];
            right; right; left; split; [exact Hm|]; now exists frames).
  all: unfold walkingCallerChain, bind at 1.
  all: destruct (computeStackTraceByWalkingCallerChain env chain ex
                   (add (depth_or_zero depth) (PNum 1)) c3) as [[t|e3] c4] eqn:E4.
  all: try (destruct (callers_strategy_shape env chain ex _ c3 c4 t E4)
              as (Hm & Hn & _ & Hi & Hs);
            exists t, c4; split; [reflexivity|]; split; [now apply Hname|];
            right; right; right; left; repeat split; assumption).
  all: destruct ex as [[| | b | n | | s]|o]; try discriminate Hex;
    eexists _, _; (split; [reflexivity|]); (split; [reflexivity|]);
    right; right; right; right; repeat split.
Qed.

Lemma computeStackTrace_shape_witness :
  exists (t : Trace.t) (c' : Cache),
    computeStackTrace Samples.env None (VObj Samples.both) PUndef ∅ = (Ret t, c')
    /\ Trace.name t = PStr "Error"
    /\ ((Trace.mode t = "stacktrace"
         /\ exists frames, Trace.stack t = Some frames /\ frames <> []
              /\ Forall (fun f => ctx_truthy (Frame.context f) = true) frames)
        \/ (Trace.mode t = "stack"
            /\ exists frames, Trace.stack t = Some frames /\ frames <> []
                 /\ Forall (fun f => truthy (Frame.func f) = true) frames)
        \/ (Trace.mode t = "multiline"
            /\ exists frames, Trace.stack t = Some frames /\ frames <> []
                 /\ Forall (fun f => ctx_truthy (Frame.context f) = true) frames)
        \/ (Trace.mode t = "callers"
            /\ is_Some (Trace.stack t) /\ is_Some (Trace.incomplete t))
        \/ (Trace.mode t = "failed"
            /\ Trace.stack t = None /\ Trace.incomplete t = None)).
Proof.
  exact (computeStackTrace_shape Samples.env None (VObj Samples.both) PUndef ∅
           eq_refl eq_refl).
Defined.

(** X10. A raised primitive ([throw 'text'], [throw 42]): the trace
    carries neither a name nor a message, so the text that was raised is
    not in it; its mode is ['callers'] or ['failed'], and ['failed'] when
    the caller chain cannot be read. *)
Theorem computeStackTrace_primitive (env : Env) (chain : option (list Fn))
    (p : prim) (depth : prim) (c : Cache)
    (Hdebug : Config.debug (config env) = false)
    (Hp : nullish (VPrim p) = false) :
  exists (t : Trace.t) (c' : Cache),
    computeStackTrace env chain (VPrim p) depth c = (Ret t, c')
    /\ Trace.name t = PUndef
    /\ Trace.message t = PUndef
    /\ (Trace.mode t = "callers" \/ Trace.mode t = "failed")
    /\ (chain = None -> Trace.mode t = "failed" /\ Trace.stack t = None).
Proof.
  assert (Hprop : forall (f : Err.t -> prim) c0, prop f (VPrim p) c0 = (Ret PUndef, c0)).
  { intros f c0. destruct p; try discriminate Hp; reflexivity. }
  rewrite (computeStackTrace_first_non_null env chain (VPrim p) depth c Hdebug).
  cbn [first_non_null].
  assert (E1 : computeStackTraceFromStacktraceProp env (VPrim p) c = (Ret None, c)).
  { unfold computeStackTraceFromStacktraceProp, bind. now rewrite Hprop. }
  assert (E2 : computeStackTraceFromStackProp env (VPrim p) c = (Ret None, c)).
  { unfold computeStackTraceFromStackProp, bind. now rewrite Hprop. }
  assert (E3 : exists e, computeStackTraceFromOperaMultiLineMessage env (VPrim p) c
                         = (Throw e, c)).
  { unfold computeStackTraceFromOperaMultiLineMessage, bind. rewrite Hprop.
    eexists. reflexivity. }
  destruct E3 as [e E3]. rewrite E1, E2, E3.
  unfold walkingCallerChain, bind at 1.
  destruct (computeStackTraceByWalkingCallerChain env chain (VPrim p)
              (add (depth_or_zero depth) (PNum 1)) c) as [[t|e'] c4] eqn:E4.
  - destruct (callers_strategy_shape env chain _ _ c c4 t E4) as (Hm & Hn & Hmsg & _ & _).
    exists t, c4. split; [reflexivity|].
    specialize (Hn c). specialize (Hmsg c). rewrite Hprop in Hn, Hmsg.
    injection Hn as <-. injection Hmsg as <-.
    split; [reflexivity|]. split; [reflexivity|]. split; [now left|].
    intros ->. discriminate E4.
  - unfold failed, bind. rewrite !Hprop. eexists _, _. split; [reflexivity|].
    repeat split. now right.
Qed.

Lemma computeStackTrace_primitive_witness :
  exists (t : Trace.t) (c' : Cache),
    computeStackTrace Samples.env None (VPrim (PStr "out of cheese")) PUndef ∅ = (Ret t, c')
    /\ Trace.name t = PUndef
    /\ Trace.message t = PUndef
    /\ Trace.mode t = "failed" /\ Trace.stack t = None.
Proof.
  destruct (computeStackTrace_primitive Samples.env None (PStr "out of cheese") PUndef ∅
              eq_refl eq_refl) as (t & c' & E & Hn & Hm & _ & Hnone).
  exists t, c'. split; [exact E|]. split; [exact Hn|]. split; [exact Hm|].
  now apply Hnone.
Defined.

(** ** Walking the caller chain *)

(** X11. The functions of the module itself ([computeStackTrace], and
    the function whose [__name__] is [reportFuncName]) leave no trace in
    the walk: the frames, the cache and the outcome are those of the
    chain without them. *)
Theorem walk_skips_module_functions (env : Env) (ex : value) (chain : list Fn) :
  forall (funcs : gset string) (stack : list Frame.t) (c : Cache),
    walk env ex chain funcs stack c
    = walk env ex
        (List.filter
           (fun curr =>
              negb (fn_is_computeStackTrace curr
                    || strict_eq (fn___name__ curr)
                         (PStr (Config.reportFuncName (config env)))))
           chain)
        funcs stack c.
Proof.
  induction chain as [|curr callers IH]; intros funcs stack c; [reflexivity|].
  cbn [walk List.filter].
  destruct (fn_is_computeStackTrace curr || strict_eq _ _) eqn:Hskip; cbn [negb].
  - apply IH.
  - cbn [walk]. rewrite Hskip. unfold bind.
    destruct (walk_item env ex curr c) as [[item|e] c1]; [|reflexivity].
    destruct (bool_decide _); [reflexivity | apply IH].
Qed.

(** X12. The walk ends at the first function whose text was met before
    (a recursion): that function still gets its frame, and whatever the
    chain holds after it is not looked at. *)
Theorem walk_stops_at_recursion (env : Env) (ex : value) (curr : Fn) (after : list Fn)
    (Hcurr : fn_is_computeStackTrace curr
             || strict_eq (fn___name__ curr) (PStr (Config.reportFuncName (config env)))
             = false) :
  forall (before : list Fn) (funcs : gset string) (stack : list Frame.t) (c : Cache),
    fn_source curr ∈ funcs
    \/ Exists (fun f =>
                 fn_is_computeStackTrace f
                 || strict_eq (fn___name__ f) (PStr (Config.reportFuncName (config env)))
                 = false
                 /\ fn_source f = fn_source curr) before ->
    walk env ex (before ++ curr :: after) funcs stack c
    = walk env ex (before ++ [curr]) funcs stack c.
Proof.
  induction before as [|f before IH]; intros funcs stack c Hseen.
  - destruct Hseen as [Hin|Hex]; [|inversion Hex].
    cbn [app walk]. rewrite Hcurr. unfold bind.
    destruct (walk_item env ex curr c) as [[item|e] c1]; [|reflexivity].
    now rewrite (bool_decide_eq_true_2 _ Hin).
  - cbn [app walk].
    destruct (fn_is_computeStackTrace f || strict_eq _ _) eqn:Hskip.
    + apply IH. destruct Hseen as [Hin|Hex]; [now left|]. right.
      inversion Hex as [? ? [Hf _]|? ? Hrest]; subst; [congruence | exact Hrest].
    + unfold bind. destruct (walk_item env ex f c) as [[item|e] c1]; [|reflexivity].
      destruct (bool_decide _); [reflexivity|].
      apply IH. destruct Hseen as [Hin|Hex].
      * left. set_solver.
      * inversion Hex as [? ? [_ Hsrc]|? ? Hrest]; subst; [|now right].
        left. rewrite <- Hsrc. set_solver.
Qed.

Lemma walk_stops_at_recursion_witness :
  walk Samples.env Samples.e1
    ([Samples.caller "f"; Samples.caller "g"]
       ++ Samples.caller "f" :: [Samples.caller "h"]) ∅ [] ∅
  = walk Samples.env Samples.e1
      ([Samples.caller "f"; Samples.caller "g"] ++ [Samples.caller "f"]) ∅ [] ∅.
Proof.
  apply (walk_stops_at_recursion Samples.env Samples.e1 (Samples.caller "f")
           [Samples.caller "h"] eq_refl).
  right. constructor. split; reflexivity.
Defined.

(** ** The caller chain without sources *)

Section NoSource.
Context (env : Env).
Hypothesis remoteFetching_off : Config.remoteFetching (config env) = false.

Let bare (f : Frame.t) : Prop :=
  Frame.url f = PNull /\ Frame.line f = PNull /\ Frame.column f = PNull.

Lemma findSourceInUrls_all_empty (r : re) (urls : list prim) :
  forall c, all_empty c ->
    exists c', findSourceInUrls env r urls c = (Ret None, c') /\ all_empty c'.
Proof.
  induction urls as [|u rest IH]; intros c Hc; [now exists c|].
  destruct (getSource_empty_eq env remoteFetching_off c u Hc) as (c1 & E & Hc1).
  cbn [findSourceInUrls]. rewrite (bind_eq_ret _ _ _ _ _ E). cbn. now apply IH.
Qed.

Lemma new_RegExp_cases (ci : bool) (pattern : string) (c : Cache) :
  (exists r, new_RegExp ci pattern c = (Ret r, c))
  \/ exists e, new_RegExp ci pattern c = (Throw e, c).
Proof.
  unfold new_RegExp. destruct (regexp ci pattern); [left | right]; eexists; reflexivity.
Qed.

Lemma findSourceByFunctionBody_all_empty (func : Fn) (c : Cache) :
  all_empty c ->
  exists c', all_empty c'
             /\ (findSourceByFunctionBody env func c = (Ret None, c')
                 \/ exists e, findSourceByFunctionBody env func c = (Throw e, c')).
Proof.
  intros Hc. unfold findSourceByFunctionBody.
  destruct (window env) as [w|]; [|exists c; split; [exact Hc | right; eexists; reflexivity]].
  destruct (win_document w) as [d|]; [|exists c; split; [exact Hc | now left]].
  set (urls := PStr (win_location_href w) :: _).
  set (first := match exec codeRE (fn_source func) with Some _ => _ | None => _ end).
  assert (Hfirst : (exists r, first c = (Ret r, c)) \/ exists e, first c = (Throw e, c)).
  { unfold first. destruct (exec codeRE (fn_source func)); apply new_RegExp_cases. }
  destruct Hfirst as [[r Er]|[e Ee]].
  2:{ exists c. split; [exact Hc|]. right. exists e. unfold bind. now rewrite Ee. }
  rewrite (bind_eq_ret _ _ _ _ _ Er).
  destruct (findSourceInUrls_all_empty r urls c Hc) as (c1 & E1 & Hc1).
  rewrite (bind_eq_ret _ _ _ _ _ E1).
  destruct (exec eventRE (fn_source func)) as [parts|];
    [|exists c1; split; [exact Hc1 | now left]].
  match goal with |- context [new_RegExp true ?p] =>
    destruct (new_RegExp_cases true p c1) as [[r1 Er1]|[e Ee]] end.
  2:{ exists c1. split; [exact Hc1|]. right. exists e. unfold bind. now rewrite Ee. }
  rewrite (bind_eq_ret _ _ _ _ _ Er1).
  destruct (findSourceInUrls_all_empty r1 (code_units (win_location_href w)) c1 Hc1)
    as (c2 & E2 & Hc2).
  rewrite (bind_eq_ret _ _ _ _ _ E2).
  match goal with |- context [new_RegExp false ?p] =>
    destruct (new_RegExp_cases false p c2) as [[r2 Er2]|[e Ee]] end.
  2:{ exists c2. split; [exact Hc2|]. right. exists e. unfold bind. now rewrite Ee. }
  rewrite (bind_eq_ret _ _ _ _ _ Er2).
  destruct (findSourceInUrls_all_empty r2 urls c2 Hc2) as (c3 & E3 & Hc3).
  exists c3. split; [exact Hc3 | now left].
Qed.

Lemma walk_item_all_empty (ex : value) (curr : Fn) (c c' : Cache) (item : Frame.t) :
  all_empty c ->
  walk_item env ex curr c = (Ret item, c') ->
  all_empty c' /\ bare item /\ Frame.func item = walk_func curr.
Proof.
  intros Hc. unfold walk_item.
  destruct (findSourceByFunctionBody_all_empty curr c Hc) as (c1 & Hc1 & [E|[e E]]).
  - rewrite (bind_eq_ret _ _ _ _ _ E). intros [= <- <-]. repeat split. exact Hc1.
  - unfold bind. rewrite E. discriminate.
Qed.

Lemma walk_all_empty (ex : value) (chain : list Fn) :
  forall (funcs : gset string) (stack st : list Frame.t) (c c' : Cache),
    all_empty c ->
    walk env ex chain funcs stack c = (Ret st, c') ->
    all_empty c' /\ exists extra, st = (stack ++ extra)%list /\ Forall bare extra.
Proof.
  induction chain as [|curr callers IH]; intros funcs stack st c c' Hc; cbn [walk].
  - intros [= <- <-]. split; [exact Hc|]. exists []. now rewrite app_nil_r.
  - destruct (fn_is_computeStackTrace curr || strict_eq _ _); [now apply IH|].
    intros H. invert_bind H as item c1 E.
    destruct (walk_item_all_empty _ _ _ _ _ Hc E) as (Hc1 & Hitem & _).
    destruct (bool_decide _).
    + injection H as <- <-. split; [exact Hc1|]. exists [item]. split; [reflexivity|].
      now constructor.
    + destruct (IH _ _ _ _ _ Hc1 H) as (Hc' & extra & -> & Hextra).
      split; [exact Hc'|]. exists (item :: extra). split; [now rewrite <- app_assoc|].
      now constructor.
Qed.

Lemma initial_element_all_empty (url lineNo message : prim) (c c' : Cache)
    (initial : Frame.t) :
  all_empty c ->
  initial_element env url lineNo message c = (Ret initial, c') ->
  Frame.url initial = url /\ Frame.line initial = lineNo
  /\ Frame.func initial = PStr UNKNOWN_FUNCTION /\ Frame.context initial = CNull.
Proof.
  intros Hc. unfold initial_element.
  destruct (guessFunctionName_all_empty env remoteFetching_off c url lineNo Hc)
    as (c1 & E1 & Hc1).
  rewrite (bind_eq_ret _ _ _ _ _ E1).
  destruct (gatherContext_all_empty env remoteFetching_off c1 url lineNo Hc1)
    as (c2 & E2 & Hc2).
  rewrite (bind_eq_ret _ _ _ _ _ E2).
  intros H. invert_bind H as column c3 E3. injection H as <- <-. repeat split.
Qed.

Lemma callers_strategy_all_empty (chain : option (list Fn)) (ex : value) (depth : prim)
    (c c' : Cache) (t : Trace.t) :
  all_empty c ->
  computeStackTraceByWalkingCallerChain env chain ex depth c = (Ret t, c') ->
  exists frames,
    Forall bare frames
    /\ ((Trace.stack t = Some frames
         /\ Trace.incomplete t = Some true /\ Trace.partial t = None)
        \/ exists initial,
             Trace.stack t = Some (initial :: frames)
             /\ Trace.incomplete t = Some false /\ Trace.partial t = Some true
             /\ truthy (Frame.url initial) = true /\ truthy (Frame.line initial) = true
             /\ Frame.func initial = PStr UNKNOWN_FUNCTION
             /\ Frame.context initial = CNull).
Proof.
  intros Hc. unfold computeStackTraceByWalkingCallerChain.
  destruct chain as [callers|]; [|discriminate].
  intros H. invert_bind H as stack c1 E.
  destruct (walk_all_empty _ _ _ _ _ _ _ Hc E) as (Hc1 & extra & Hst & Hextra).
  cbn [app] in Hst. subst extra.
  invert_bind H as name c2 E0. invert_bind H as message c3 E1.
  invert_bind H as url c4 E2. invert_bind H as lineNo c5 E3. invert_bind H as text c6 E4.
  apply prop_inv in E0 as (-> & _ & _). apply prop_inv in E1 as (-> & _ & _).
  assert (Hsame : c6 = c1).
  { unfold prop_or in E2, E3, E4.
    invert_bind E2 as x2 d2 F2. apply prop_inv in F2 as (-> & _ & _).
    assert (c4 = c1) as ->.
    { destruct (truthy x2); [now injection E2 | now apply prop_inv in E2 as (-> & _)]. }
    invert_bind E3 as x3 d3 F3. apply prop_inv in F3 as (-> & _ & _).
    assert (c5 = c1) as ->.
    { destruct (truthy x3); [now injection E3 | now apply prop_inv in E3 as (-> & _)]. }
    invert_bind E4 as x4 d4 F4. apply prop_inv in F4 as (-> & _ & _).
    destruct (truthy x4); [now injection E4 | now apply prop_inv in E4 as (-> & _)]. }
  subst c6.
  set (frames := if truthy depth then _ else stack) in H.
  assert (Hframes : Forall bare frames).
  { unfold frames. destruct (truthy depth); [|exact Hextra].
    destruct (to_number depth); [|exact Hextra]. now apply Forall_drop. }
  exists frames. split; [exact Hframes|].
  unfold with_trace, augmentStackTraceWithInitialElement in H.
  destruct (truthy url && truthy lineNo) eqn:Hpresent.
  - right. apply andb_prop in Hpresent as [Hu Hl].
    unfold bind at 1, modify_trace at 1 in H. cbn [fst snd] in H.
    unfold bind at 1, on_cache in H. cbn [fst snd] in H.
    destruct (initial_element env url lineNo text c1) as [[initial|e] c7] eqn:Ei;
      [|discriminate H].
    destruct (initial_element_all_empty _ _ _ _ _ _ Hc1 Ei) as (Hiu & Hil & Hif & Hic).
    unfold bind at 1, get_trace in H. cbn [fst snd Trace.stack Trace.set_incomplete] in H.
    exists initial.
    assert (Hun : forall fs,
               unshift initial fs
                 (c7, Trace.set_incomplete false
                        {| Trace.name := name; Trace.message := message;
                           Trace.mode := "callers"; Trace.stack := Some frames;
                           Trace.incomplete := None; Trace.partial := None |})
               = (Ret true,
                  (c7, {| Trace.name := name; Trace.message := message;
                          Trace.mode := "callers"; Trace.stack := Some (initial :: fs);
                          Trace.incomplete := Some false; Trace.partial := Some true |}))).
    { intros fs. reflexivity. }
    destruct frames as [|top below].
    + rewrite Hun in H. injection H as <- <-. cbn. rewrite Hiu, Hil. repeat split; assumption.
    + assert (Hurl : strict_eq (Frame.url top) (Frame.url initial) = false).
      { pose proof (Forall_inv Hframes) as (Htop & _). rewrite Htop, Hiu.
        destruct url; try reflexivity; discriminate Hu. }
      rewrite Hurl, Hun in H. injection H as <- <-. cbn. rewrite Hiu, Hil.
      repeat split; assumption.
  - left. unfold bind, modify_trace, ret in H. cbn in H. injection H as <- <-.
    repeat split.
Qed.

End NoSource.

(** ** Traces from the caller chain *)

(** X13. With remote fetching off (the default) no source is ever
    available, so a trace built from the caller chain tells function
    names only: every walked frame has [url], [line] and [column] equal
    to [null].  The one exception is the frame that augmentation puts on
    top when the error object has a url and a line; its function is
    ['?'] and its context [null]. *)
Theorem callers_trace_without_source (env : Env) (chain : option (list Fn))
    (ex : value) (depth : prim) (c c' : Cache) (t : Trace.t)
    (Hoff : Config.remoteFetching (config env) = false)
    (Hc : reachable env c)
    (Hrun : computeStackTraceByWalkingCallerChain env chain ex depth c = (Ret t, c')) :
  exists frames : list Frame.t,
    Forall (fun f => Frame.url f = PNull /\ Frame.line f = PNull /\ Frame.column f = PNull)
      frames
    /\ ((Trace.stack t = Some frames
         /\ Trace.incomplete t = Some true /\ Trace.partial t = None)
        \/ exists initial : Frame.t,
             Trace.stack t = Some (initial :: frames)
             /\ Trace.incomplete t = Some false /\ Trace.partial t = Some true
             /\ truthy (Frame.url initial) = true /\ truthy (Frame.line initial) = true
             /\ Frame.func initial = PStr "?"
             /\ Frame.context initial = CNull).
Proof.
  apply (callers_strategy_all_empty env Hoff chain ex depth c c' t); [|exact Hrun].
  now apply (reachable_all_empty env Hoff).
Qed.

Lemma callers_trace_without_source_witness :
  exists frames : list Frame.t,
    Forall (fun f => Frame.url f = PNull /\ Frame.line f = PNull /\ Frame.column f = PNull)
      frames
    /\ ((Some [ {| Frame.url := PNull; Frame.func := PStr "start"; Frame.args := Some [];
                   Frame.line := PNull; Frame.column := PNull; Frame.context := CUndef |} ]
         = Some frames
         /\ Some true = Some true /\ @None bool = None)
        \/ exists initial : Frame.t,
             Some [ {| Frame.url := PNull; Frame.func := PStr "start"; Frame.args := Some [];
                       Frame.line := PNull; Frame.column := PNull; Frame.context := CUndef |} ]
             = Some (initial :: frames)
             /\ Some true = Some false /\ @None bool = Some true
             /\ truthy (Frame.url initial) = true /\ truthy (Frame.line initial) = true
             /\ Frame.func initial = PStr "?"
             /\ Frame.context initial = CNull).
Proof.
  refine (callers_trace_without_source Samples.env
            (Some [Samples.the_computeStackTrace; Samples.the_report; Samples.caller "main"; Samples.caller "start"])
            Samples.e1 (PNum 1) ∅ _
            {| Trace.name := PStr "Error"; Trace.message := PStr "first";
               Trace.mode := "callers";
               Trace.stack :=
                 Some [ {| Frame.url := PNull; Frame.func := PStr "start";
                           Frame.args := Some []; Frame.line := PNull;
                           Frame.column := PNull; Frame.context := CUndef |} ];
               Trace.incomplete := Some true; Trace.partial := None |}
            eq_refl (reachable_init _) _).
  vm_compute. reflexivity.
Defined.

(** X14. [ofCaller(depth)] where the host records neither trace nor
    location on [new Error()]: the trace is built from the caller chain,
    and since [computeStackTrace] is asked for the depth plus two and asks
    the walk for one more, the first [depth + 3] walked frames are
    dropped (the walk having left out [computeStackTrace] already). *)
Theorem computeStackTraceOfCaller_depth (env : Env) (callers : list Fn) (fresh : Err.t)
    (depth : prim) (d : Z) (c c1 : Cache) (walked : list Frame.t)
    (Hdebug : Config.debug (config env) = false)
    (Hdepth : depth_or_zero depth = PNum d)
    (Hd : 0 <= d)
    (Hstacktrace : truthy (Err.stacktrace fresh) = false)
    (Hstack : truthy (Err.stack fresh) = false)
    (Hmessage : Err.message fresh = PStr "")
    (HsourceURL : truthy (Err.sourceURL fresh) = false)
    (HfileName : truthy (Err.fileName fresh) = false)
    (Hwalk : walk env (VObj fresh) callers ∅ [] c = (Ret walked, c1)) :
  computeStackTraceOfCaller env (Some callers) fresh depth c
  = (Ret {| Trace.name := Err.name fresh;
            Trace.message := PStr "";
            Trace.mode := "callers";
            Trace.stack := Some (skipn (Z.to_nat (d + 3)) walked);
            Trace.incomplete := Some true;
            Trace.partial := None |}, c1).
Proof.
  unfold computeStackTraceOfCaller. cbv zeta. rewrite Hdepth. cbn [add to_number].
  rewrite (computeStackTrace_first_non_null env _ _ _ c Hdebug).
  cbn [first_non_null depth_or_zero unary_plus to_number of_number add].
  assert (E1 : computeStackTraceFromStacktraceProp env (VObj fresh) c = (Ret None, c)).
  { unfold computeStackTraceFromStacktraceProp, bind. cbn [prop ret]. now rewrite Hstacktrace. }
  assert (E2 : computeStackTraceFromStackProp env (VObj fresh) c = (Ret None, c)).
  { unfold computeStackTraceFromStackProp, bind. cbn [prop ret]. now rewrite Hstack. }
  assert (E3 : computeStackTraceFromOperaMultiLineMessage env (VObj fresh) c = (Ret None, c)).
  { unfold computeStackTraceFromOperaMultiLineMessage, bind. cbn [prop ret].
    rewrite Hmessage. reflexivity. }
  rewrite E1, E2, E3.
  unfold walkingCallerChain, computeStackTraceByWalkingCallerChain.
  unfold bind at 1. unfold bind at 1. rewrite Hwalk.
  assert (Ht : truthy (PNum (d + 1 + 1 + 1)) = true).
  { cbn. destruct (Z.eqb_spec (d + 1 + 1 + 1) 0); [lia | reflexivity]. }
  rewrite Ht. cbn [to_number]. replace (d + 1 + 1 + 1) with (d + 3) by lia.
  unfold prop_or, with_trace, augmentStackTraceWithInitialElement, bind, ret, modify_trace.
  cbn [prop]. unfold ret. rewrite HsourceURL. cbn [prop]. unfold ret.
  rewrite HfileName. cbn [andb fst snd]. rewrite Hmessage.
  destruct (truthy (Err.line fresh)); reflexivity.
Qed.

Lemma computeStackTraceOfCaller_depth_witness :
  fst (computeStackTraceOfCaller Samples.env
         (Some [Samples.the_computeStackTrace; Samples.caller "ofCaller"; Samples.caller "trace";
                Samples.caller "main"; Samples.caller "start"])
         (Samples.bare 5 "") PUndef ∅)
  = Ret {| Trace.name := PStr "Error";
           Trace.message := PStr "";
           Trace.mode := "callers";
           Trace.stack :=
             Some [ {| Frame.url := PNull; Frame.func := PStr "start"; Frame.args := Some [];
                       Frame.line := PNull; Frame.column := PNull;
                       Frame.context := CUndef |} ];
           Trace.incomplete := Some true;
           Trace.partial := None |}.
Proof.
  rewrite (computeStackTraceOfCaller_depth Samples.env
             [Samples.the_computeStackTrace; Samples.caller "ofCaller"; Samples.caller "trace";
              Samples.caller "main"; Samples.caller "start"]
             (Samples.bare 5 "") PUndef 0 ∅
             (snd (walk Samples.env (VObj (Samples.bare 5 ""))
                     [Samples.the_computeStackTrace; Samples.caller "ofCaller"; Samples.caller "trace";
                      Samples.caller "main"; Samples.caller "start"] ∅ [] ∅))
             (List.map (fun name =>
                          {| Frame.url := PNull; Frame.func := PStr name;
                             Frame.args := Some []; Frame.line := PNull;
                             Frame.column := PNull; Frame.context := CUndef |})
                ["ofCaller"; "trace"; "main"; "start"])
             eq_refl eq_refl ltac:(lia)
             eq_refl eq_refl eq_refl eq_refl eq_refl).
  - reflexivity.
  - vm_compute. reflexivity.
Defined.

(** ** The depth *)

Lemma failed_mode (ex : value) (c c' : Cache) (t : Trace.t) :
  failed ex c = (Ret t, c') -> Trace.mode t = "failed".
Proof.
  unfold failed. intros H. invert_bind H as name c1 E1. invert_bind H as message c2 E2.
  now injection H as <- _.
Qed.

(** X15. The depth only matters to a trace built from the caller
    chain: a trace of another mode comes out the same whatever depth is
    asked for.  In particular [ofCaller(depth)] drops no frame on a host
    whose [new Error()] carries a trace of its own. *)
Theorem computeStackTrace_depth_ignored (env : Env) (chain : option (list Fn))
    (c c' : Cache) (t : Trace.t)
    (Hdebug : Config.debug (config env) = false)
    (Hcallers : Trace.mode t <> "callers")
    (Hfailed : Trace.mode t <> "failed") :
  (forall (ex : value) (depth depth' : prim),
     computeStackTrace env chain ex depth c = (Ret t, c') ->
     computeStackTrace env chain ex depth' c = (Ret t, c'))
  /\ (forall (fresh : Err.t) (depth depth' : prim),
        computeStackTraceOfCaller env chain fresh depth c = (Ret t, c') ->
        computeStackTraceOfCaller env chain fresh depth' c = (Ret t, c')).
Proof.
  assert (H : forall (ex : value) (depth depth' : prim),
             computeStackTrace env chain ex depth c = (Ret t, c') ->
             computeStackTrace env chain ex depth' c = (Ret t, c')).
  { intros ex depth depth'.
    rewrite !(computeStackTrace_first_non_null env chain ex _ c Hdebug).
    cbn [first_non_null].
    destruct (computeStackTraceFromStacktraceProp env ex c) as [[[t1|]|e1] c1];
      try (intros Hrun; exact Hrun).
    all: destruct (computeStackTraceFromStackProp env ex c1) as [[[t2|]|e2] c2];
      try (intros Hrun; exact Hrun).
    all: destruct (computeStackTraceFromOperaMultiLineMessage env ex c2) as [[[t3|]|e3] c3];
      try (intros Hrun; exact Hrun).
    all: unfold walkingCallerChain, bind at 1;
      destruct (computeStackTraceByWalkingCallerChain env chain ex
                  (add (depth_or_zero depth) (PNum 1)) c3) as [[t4|e4] c4] eqn:E4;
      [ intros [= <- <-]; exfalso; apply Hcallers;
        exact (proj1 (callers_strategy_shape env chain ex _ c3 c4 t4 E4))
      | intros Hrun; exfalso; apply Hfailed; exact (failed_mode ex c4 c' t Hrun) ]. }
  split; [exact H|].
  intros fresh depth depth'. unfold computeStackTraceOfCaller. cbv zeta. apply H.
Qed.

Lemma computeStackTrace_depth_ignored_witness :
  computeStackTraceOfCaller Samples.env None Samples.both (PNum 2) ∅
  = (Ret (Samples.both_trace "stacktrace" (CArr [PStr "    g();"])),
     {[ "http://localhost/app.js" := [] ]}).
Proof.
  apply (proj2 (computeStackTrace_depth_ignored Samples.env None ∅
                  {[ "http://localhost/app.js" := [] ]}
                  (Samples.both_trace "stacktrace" (CArr [PStr "    g();"]))
                  eq_refl ltac:(discriminate) ltac:(discriminate))
           Samples.both PUndef (PNum 2)).
  vm_compute. reflexivity.
Defined.

(** ** The two hooks *)

Section Hooked.
Context (env : Env).

(** What a dispatch leaves behind, gated or not. *)
Lemma notifyHandlers_state (stack : option Trace.t) (isWindowError : bool)
    (error : value) (s : State) :
  snd (notifyHandlers env stack isWindowError error s)
  = add_calls
      (if isWindowError && negb (Config.collectWindowErrors (config env)) then []
       else deliveries (handlers s) stack isWindowError error) s.
Proof.
  destruct (isWindowError && negb (Config.collectWindowErrors (config env))) eqn:Hgate.
  - unfold notifyHandlers. rewrite Hgate. cbn. now rewrite add_calls_nil.
  - now rewrite (notifyHandlers_eq env _ _ _ _ Hgate).
Qed.

End Hooked.

(** X16. An unhandled rejection whose reason is neither [null] nor
    [undefined] is traced and handed to every subscriber once, in
    registration order, as a window error ([isWindowError = true]) with
    the reason as third argument, unless [collectWindowErrors] is off.
    A rejection without a reason ([Promise.reject()]) raises inside the
    hook and no subscriber is told. *)
Theorem errorWatchWindowOnUnhandledRejection_delivers (env : Env)
    (chain : option (list Fn)) (reason : value) (s : State)
    (Hdebug : Config.debug (config env) = false) :
  (nullish reason = false ->
   exists (t : Trace.t) (c' : Cache),
     computeStackTrace env chain reason PUndef (sourceCache s) = (Ret t, c')
     /\ calls (snd (errorWatchWindowOnUnhandledRejection env chain reason s))
        = (calls s
             ++ if Config.collectWindowErrors (config env)
                then deliveries (handlers s) (Some t) true reason else [])%list
     /\ lastExceptionStack (snd (errorWatchWindowOnUnhandledRejection env chain reason s))
        = lastExceptionStack s)
  /\ (nullish reason = true ->
      exists e,
        fst (errorWatchWindowOnUnhandledRejection env chain reason s) = Throw e
        /\ calls (snd (errorWatchWindowOnUnhandledRejection env chain reason s)) = calls s).
Proof.
  split; intros Hreason.
  - destruct (computeStackTrace_returns env Hdebug chain reason PUndef (sourceCache s) Hreason)
      as (t & c' & E).
    exists t, c'. split; [exact E|].
    assert (Erun : errorWatchWindowOnUnhandledRejection env chain reason s
                   = notifyHandlers env (Some t) true reason (set_sourceCache c' s)).
    { unfold errorWatchWindowOnUnhandledRejection, bind at 1, on_sourceCache. now rewrite E. }
    rewrite Erun, notifyHandlers_state. cbn [andb].
    destruct (Config.collectWindowErrors (config env)); cbn; split; reflexivity.
  - destruct (computeStackTrace_nullish_raises env chain reason PUndef (sourceCache s) Hreason)
      as (e & c' & E).
    exists e.
    assert (Erun : errorWatchWindowOnUnhandledRejection env chain reason s
                   = (Throw e, set_sourceCache c' s)).
    { unfold errorWatchWindowOnUnhandledRejection, bind at 1, on_sourceCache. now rewrite E. }
    rewrite Erun. split; reflexivity.
Qed.

Lemma errorWatchWindowOnUnhandledRejection_delivers_witness :
  (exists (t : Trace.t) (c' : Cache),
     computeStackTrace Samples.env None Samples.e1 PUndef ∅ = (Ret t, c')
     /\ calls (snd (errorWatchWindowOnUnhandledRejection Samples.env None Samples.e1
                      (Samples.with_handlers [Samples.quiet])))
        = deliveries [Samples.quiet] (Some t) true Samples.e1
     /\ lastExceptionStack
          (snd (errorWatchWindowOnUnhandledRejection Samples.env None Samples.e1
                  (Samples.with_handlers [Samples.quiet]))) = None)
  /\ exists e,
       fst (errorWatchWindowOnUnhandledRejection Samples.env None (VPrim PUndef)
              (Samples.with_handlers [Samples.quiet])) = Throw e
       /\ calls (snd (errorWatchWindowOnUnhandledRejection Samples.env None (VPrim PUndef)
                        (Samples.with_handlers [Samples.quiet]))) = [].
Proof.
  split.
  - apply (proj1 (errorWatchWindowOnUnhandledRejection_delivers Samples.env None Samples.e1
                    (Samples.with_handlers [Samples.quiet]) eq_refl)).
    reflexivity.
  - apply (proj2 (errorWatchWindowOnUnhandledRejection_delivers Samples.env None
                    (VPrim PUndef) (Samples.with_handlers [Samples.quiet]) eq_refl)).
    reflexivity.
Defined.

(** How [window.onerror] runs while a report is pending. *)
Lemma errorWatchWindowOnError_pending_run (env : Env) (chain : option (list Fn))
    (message url lineNo columnNo : prim) (errorObj : value) (s : State)
    (pending : Trace.t) :
  lastExceptionStack s = Some pending ->
  (is_Some (Trace.stack pending) \/ truthy url && truthy lineNo = false ->
   exists (pending' : Trace.t) (c' : Cache) (changed : bool),
     augmentStackTraceWithInitialElement env url lineNo message (sourceCache s, pending)
     = (Ret changed, (c', pending'))
     /\ Trace.incomplete pending' = Some (negb (truthy url && truthy lineNo))
     /\ Trace.mode pending' = Trace.mode pending
     /\ errorWatchWindowOnError env chain message url lineNo columnNo errorObj s
        = processLastException env
            (set_last (lastException s) (Some pending') (set_sourceCache c' s)))
  /\ (Trace.stack pending = None -> truthy url && truthy lineNo = true ->
      exists c' : Cache,
        errorWatchWindowOnError env chain message url lineNo columnNo errorObj s
        = (Throw (Engine "TypeError"
                    "Cannot read properties of undefined (reading 'length')"),
           set_last (lastException s) (Some (Trace.set_incomplete false pending))
             (set_sourceCache c' s))).
Proof.
  intros Hpending. split.
  - intros Hok.
    assert (Haug : exists b c' pending',
               augmentStackTraceWithInitialElement env url lineNo message
                 (sourceCache s, pending) = (Ret b, (c', pending'))).
    { unfold augmentStackTraceWithInitialElement.
      destruct (truthy url && truthy lineNo) eqn:Hpresent; [|eexists _, _, _; reflexivity].
      destruct Hok as [[frames Hframes]|Hno]; [|discriminate Hno].
      unfold bind at 1, modify_trace at 1. cbn [fst snd].
      unfold bind at 1, on_cache. cbn [fst snd].
      destruct (initial_element_returns env url lineNo message (sourceCache s))
        as (initial & c' & E & _).
      rewrite E. unfold bind at 1, get_trace. cbn [snd Trace.stack Trace.set_incomplete].
      rewrite Hframes. destruct frames as [|top below]; [eexists _, _, _; reflexivity|].
      destruct (strict_eq (Frame.url top) (Frame.url initial));
        [|eexists _, _, _; reflexivity].
      destruct (strict_eq (Frame.line top) (Frame.line initial));
        [eexists _, _, _; reflexivity|].
      destruct (negb (truthy (Frame.line top))
                && strict_eq (Frame.func top) (Frame.func initial));
        eexists _, _, _; reflexivity. }
    destruct Haug as (b & c' & pending' & Haug).
    pose proof (augment_flags env _ _ _ _ _ _ Haug) as (Hm & _ & _ & Hi & _).
    cbn [snd] in Hm, Hi.
    exists pending', c', b. split; [exact Haug|]. split; [exact Hi|]. split; [exact Hm|].
    unfold errorWatchWindowOnError, bind at 1, get. rewrite Hpending.
    unfold bind at 1. now rewrite Haug.
  - intros Hnone Hpresent.
    destruct (initial_element_returns env url lineNo message (sourceCache s))
      as (initial & c' & E & _).
    exists c'.
    unfold errorWatchWindowOnError, bind at 1, get. rewrite Hpending.
    unfold bind at 1. unfold augmentStackTraceWithInitialElement. rewrite Hpresent.
    unfold bind at 1, modify_trace at 1. cbn [fst snd].
    unfold bind at 1, on_cache. cbn [fst snd].
    rewrite E. unfold bind at 1, get_trace. cbn [snd Trace.stack Trace.set_incomplete].
    now rewrite Hnone.
Qed.

(** X17. [window.onerror] while a report is pending: the arguments
    serve to complete the pending trace, which is then flushed at once;
    the subscribers get the trace that
    [augmentStackTraceWithInitialElement] leaves for the pending one, and
    the pending error, with [isWindowError = false]; nothing is pending
    afterwards, and the source cache is the one the completion leaves.
    This needs the pending trace to
    have a frame array, or the url or the line to be missing.  On the
    ['failed'] trace, which has no frame array, with url and line
    present, the hook raises, no subscriber is told and the report stays
    pending. *)
Theorem errorWatchWindowOnError_pending (env : Env) (chain : option (list Fn))
    (message url lineNo columnNo : prim) (errorObj : value) (s : State)
    (pending : Trace.t)
    (Hpending : lastExceptionStack s = Some pending) :
  (is_Some (Trace.stack pending) \/ truthy url && truthy lineNo = false ->
   exists (pending' : Trace.t) (c' : Cache) (changed : bool),
     augmentStackTraceWithInitialElement env url lineNo message (sourceCache s, pending)
     = (Ret changed, (c', pending'))
     /\ Trace.incomplete pending' = Some (negb (truthy url && truthy lineNo))
     /\ Trace.mode pending' = Trace.mode pending
     /\ calls (snd (errorWatchWindowOnError env chain message url lineNo columnNo errorObj s))
        = (calls s ++ deliveries (handlers s) (Some pending') false (lastException s))%list
     /\ lastExceptionStack
          (snd (errorWatchWindowOnError env chain message url lineNo columnNo errorObj s))
        = None
     /\ sourceCache
          (snd (errorWatchWindowOnError env chain message url lineNo columnNo errorObj s))
        = c')
  /\ (Trace.stack pending = None -> truthy url && truthy lineNo = true ->
      fst (errorWatchWindowOnError env chain message url lineNo columnNo errorObj s)
      = Throw (Engine "TypeError" "Cannot read properties of undefined (reading 'length')")
      /\ calls (snd (errorWatchWindowOnError env chain message url lineNo columnNo errorObj s))
         = calls s
      /\ lastExceptionStack
           (snd (errorWatchWindowOnError env chain message url lineNo columnNo errorObj s))
         = Some (Trace.set_incomplete false pending)
      /\ lastException
           (snd (errorWatchWindowOnError env chain message url lineNo columnNo errorObj s))
         = lastException s).
Proof.
  destruct (errorWatchWindowOnError_pending_run env chain message url lineNo columnNo
              errorObj s pending Hpending) as [Hflush Hraise].
  split.
  - intros Hok. destruct (Hflush Hok) as (pending' & c' & b & Haug & Hi & Hm & Erun).
    exists pending', c', b. split; [exact Haug|]. split; [exact Hi|]. split; [exact Hm|].
    rewrite Erun, processLastException_state. repeat split.
  - intros Hnone Hpresent. destruct (Hraise Hnone Hpresent) as (c' & Erun).
    rewrite Erun. repeat split.
Qed.

Lemma errorWatchWindowOnError_pending_witness :
  (exists (pending' : Trace.t) (c' : Cache) (changed : bool),
     augmentStackTraceWithInitialElement Samples.env (PStr "http://localhost/app.js")
       (PNum 10) (PStr "boom")
       (sourceCache (set_last Samples.e1 (Some Samples.incomplete_trace)
                       (Samples.with_handlers [Samples.quiet])),
        Samples.incomplete_trace)
     = (Ret changed, (c', pending'))
     /\ Trace.incomplete pending' = Some false
     /\ Trace.mode pending' = "callers"
     /\ calls (snd (errorWatchWindowOnError Samples.env None (PStr "boom")
                      (PStr "http://localhost/app.js") (PNum 10) (PNum 3) (VPrim PUndef)
                      (set_last Samples.e1 (Some Samples.incomplete_trace)
                         (Samples.with_handlers [Samples.quiet]))))
        = deliveries [Samples.quiet] (Some pending') false Samples.e1
     /\ lastExceptionStack
          (snd (errorWatchWindowOnError Samples.env None (PStr "boom")
                  (PStr "http://localhost/app.js") (PNum 10) (PNum 3) (VPrim PUndef)
                  (set_last Samples.e1 (Some Samples.incomplete_trace)
                     (Samples.with_handlers [Samples.quiet]))))
        = None
     /\ sourceCache
          (snd (errorWatchWindowOnError Samples.env None (PStr "boom")
                  (PStr "http://localhost/app.js") (PNum 10) (PNum 3) (VPrim PUndef)
                  (set_last Samples.e1 (Some Samples.incomplete_trace)
                     (Samples.with_handlers [Samples.quiet]))))
        = c')
  /\ fst (errorWatchWindowOnError Samples.env None (PStr "boom")
            (PStr "http://localhost/app.js") (PNum 10) (PNum 3) (VPrim PUndef)
            (Samples.pending_e1 [Samples.quiet]))
     = Throw (Engine "TypeError" "Cannot read properties of undefined (reading 'length')").
Proof.
  split.
  - apply (proj1 (errorWatchWindowOnError_pending Samples.env None (PStr "boom")
                    (PStr "http://localhost/app.js") (PNum 10) (PNum 3) (VPrim PUndef)
                    (set_last Samples.e1 (Some Samples.incomplete_trace)
                       (Samples.with_handlers [Samples.quiet]))
                    Samples.incomplete_trace eq_refl)).
    left. eexists. reflexivity.
  - apply (proj2 (errorWatchWindowOnError_pending Samples.env None (PStr "boom")
                    (PStr "http://localhost/app.js") (PNum 10) (PNum 3) (VPrim PUndef)
                    (Samples.pending_e1 [Samples.quiet])
                    Samples.trace_e1 eq_refl)); reflexivity.
Defined.

(** X18. [window.onerror] while nothing is pending.  With an error
    object, the hook traces it and hands the trace to the subscribers as
    a window error, the error object as third argument.  Without one, it
    makes a trace of mode ['onerror'] whose only frame carries the url,
    line and column it was given, and hands it over with [null] as third
    argument; name and message are groups 1 and 2 of [ERROR_TYPES_RE]
    when the message is a string that the expression matches, and
    [undefined] and the message as it came otherwise.  In both cases
    nothing is delivered when [collectWindowErrors] is off, and nothing
    becomes pending. *)
Theorem errorWatchWindowOnError_idle (env : Env) (chain : option (list Fn))
    (message url lineNo columnNo : prim) (errorObj : value) (s : State)
    (Hdebug : Config.debug (config env) = false)
    (Hidle : lastExceptionStack s = None) :
  (value_truthy errorObj = true ->
   exists (t : Trace.t) (c' : Cache),
     computeStackTrace env chain errorObj PUndef (sourceCache s) = (Ret t, c')
     /\ calls (snd (errorWatchWindowOnError env chain message url lineNo columnNo errorObj s))
        = (calls s
             ++ if Config.collectWindowErrors (config env)
                then deliveries (handlers s) (Some t) true errorObj else [])%list
     /\ lastExceptionStack
          (snd (errorWatchWindowOnError env chain message url lineNo columnNo errorObj s))
        = None)
  /\ (value_truthy errorObj = false ->
      exists (t : Trace.t) (f : Frame.t),
        Trace.mode t = "onerror"
        /\ Trace.stack t = Some [f]
        /\ Frame.url f = url /\ Frame.line f = lineNo /\ Frame.column f = columnNo
        /\ match message with
           | PStr m =>
               match exec ERROR_TYPES_RE m with
               | Some groups =>
                   Trace.name t = group groups 1 /\ Trace.message t = group groups 2
               | None => Trace.name t = PUndef /\ Trace.message t = message
               end
           | _ => Trace.name t = PUndef /\ Trace.message t = message
           end
        /\ calls (snd (errorWatchWindowOnError env chain message url lineNo columnNo
                         errorObj s))
           = (calls s
                ++ if Config.collectWindowErrors (config env)
                   then deliveries (handlers s) (Some t) true (VPrim PNull) else [])%list
        /\ lastExceptionStack
             (snd (errorWatchWindowOnError env chain message url lineNo columnNo errorObj s))
           = None).
Proof.
  split; intros Hobj.
  - assert (Hex : nullish errorObj = false).
    { destruct errorObj as [[| | | | |]|]; try reflexivity; discriminate Hobj. }
    destruct (computeStackTrace_returns env Hdebug chain errorObj PUndef (sourceCache s) Hex)
      as (t & c' & E).
    exists t, c'. split; [exact E|].
    assert (Erun : errorWatchWindowOnError env chain message url lineNo columnNo errorObj s
                   = notifyHandlers env (Some t) true errorObj (set_sourceCache c' s)).
    { unfold errorWatchWindowOnError, bind at 1, get. rewrite Hidle, Hobj.
      unfold bind at 1, on_sourceCache. now rewrite E. }
    rewrite Erun, notifyHandlers_state. cbn [andb].
    destruct (Config.collectWindowErrors (config env)); cbn; split; try reflexivity;
      exact Hidle.
  - destruct (guessFunctionName_returns env url lineNo (sourceCache s)) as (func & c1 & E1).
    destruct (gatherContext_returns env url lineNo c1) as (context & c2 & E2).
    set (f := {| Frame.url := url; Frame.line := lineNo; Frame.column := columnNo;
                 Frame.func := func; Frame.context := context; Frame.args := None |}).
    set (groups := match message with PStr m => exec ERROR_TYPES_RE m | _ => None end).
    set (t := {| Trace.name := match groups with Some g => group g 1 | None => PUndef end;
                 Trace.message := match groups with Some g => group g 2 | None => message end;
                 Trace.mode := "onerror";
                 Trace.stack := Some [f];
                 Trace.incomplete := None;
                 Trace.partial := None |}).
    exists t, f.
    assert (Erun : errorWatchWindowOnError env chain message url lineNo columnNo errorObj s
                   = notifyHandlers env (Some t) true (VPrim PNull)
                       (set_sourceCache c2 (set_sourceCache c1 s))).
    { unfold errorWatchWindowOnError, bind at 1, get. rewrite Hidle, Hobj.
      unfold bind at 1, on_sourceCache at 1. rewrite E1.
      unfold bind at 1, on_sourceCache at 1. cbn [sourceCache set_sourceCache].
      rewrite E2. reflexivity. }
    rewrite Erun, notifyHandlers_state. cbn [andb].
    split; [reflexivity|]. split; [reflexivity|]. split; [reflexivity|].
    split; [reflexivity|]. split; [reflexivity|]. split; [|split].
    + unfold t, groups. cbn [Trace.name Trace.message].
      destruct message as [| | b | n | | m]; try (split; reflexivity).
      destruct (exec ERROR_TYPES_RE m); split; reflexivity.
    + destruct (Config.collectWindowErrors (config env)); cbn; [reflexivity|].
      now rewrite app_nil_r.
    + destruct (Config.collectWindowErrors (config env)); cbn; exact Hidle.
Qed.

Lemma errorWatchWindowOnError_idle_witness :
  exists (t : Trace.t) (f : Frame.t),
    Trace.mode t = "onerror"
    /\ Trace.stack t = Some [f]
    /\ Frame.url f = PStr "http://localhost/app.js" /\ Frame.line f = PNum 10
    /\ Frame.column f = PNum 3
    /\ (Trace.name t = PStr "TypeError" /\ Trace.message t = PStr "x is null")
    /\ calls (snd (errorWatchWindowOnError Samples.env None
                     (PStr "Uncaught TypeError: x is null")
                     (PStr "http://localhost/app.js") (PNum 10) (PNum 3) (VPrim PUndef)
                     (Samples.with_handlers [Samples.quiet])))
       = deliveries [Samples.quiet] (Some t) true (VPrim PNull)
    /\ lastExceptionStack
         (snd (errorWatchWindowOnError Samples.env None
                 (PStr "Uncaught TypeError: x is null")
                 (PStr "http://localhost/app.js") (PNum 10) (PNum 3) (VPrim PUndef)
                 (Samples.with_handlers [Samples.quiet])))
       = None.
Proof.
  assert (E : exec ERROR_TYPES_RE "Uncaught TypeError: x is null"
              = Some {| index := 0;
                        captures := [(0%nat, Some "Uncaught TypeError: x is null");
                                     (2%nat, Some "x is null");
                                     (1%nat, Some "TypeError"); (1%nat, None)] |}).
  { vm_compute. reflexivity. }
  destruct (proj2 (errorWatchWindowOnError_idle Samples.env None
                     (PStr "Uncaught TypeError: x is null")
                     (PStr "http://localhost/app.js") (PNum 10) (PNum 3) (VPrim PUndef)
                     (Samples.with_handlers [Samples.quiet]) eq_refl eq_refl) eq_refl)
    as (t & f & Hmode & Hstack & Hurl & Hline & Hcolumn & Hname & Hcalls & Hlast).
  rewrite E in Hname. exists t, f. repeat split; try assumption; apply Hname.
Defined.

(** ** [report], then [window.onerror] *)

(** X19. The protocol as it is meant to run: [report(e)] raises [e]
    again, the exception reaches the top and the host calls
    [window.onerror].  Whatever [window.onerror] is given, every
    subscriber is told about [e] exactly once, with
    [isWindowError = false] and a trace of the mode that [report]
    computed, and nothing is pending once the timers have run: either
    the hook flushes the report and the timer of [report] finds nothing
    to do, or the hook raises (the trace has no frame array) and the
    timer flushes the report. *)
Theorem report_then_onerror_once (env : Env) (chain chain' : option (list Fn))
    (o : Err.t) (message url lineNo columnNo : prim) (errorObj : value) (s : State)
    (Hdebug : Config.debug (config env) = false)
    (Hidle : lastExceptionStack s = None)
    (Htimers : Forall live_target (timers s)) :
  exists (t : Trace.t) (s1 : State),
    report env chain (VObj o) s = (Throw (Raised (VObj o)), s1)
    /\ lastExceptionStack s1 = Some t
    /\ forall ts : list Timer,
         Permutation ts
           (timers (snd (errorWatchWindowOnError env chain' message url lineNo columnNo
                           errorObj s1))) ->
         exists t' : Trace.t,
           Trace.mode t' = Trace.mode t
           /\ calls (run_timers env ts
                       (snd (errorWatchWindowOnError env chain' message url lineNo columnNo
                               errorObj s1)))
              = (calls s ++ deliveries (handlers s) (Some t') false (VObj o))%list
           /\ lastExceptionStack
                (run_timers env ts
                   (snd (errorWatchWindowOnError env chain' message url lineNo columnNo
                           errorObj s1)))
              = None.
Proof.
  destruct (report_from_idle env chain o s Hdebug Hidle) as (t & s1 & E & Hpending & Hc & Hh).
  destruct (report_inv env chain (VObj o) s s1 _ t E Hpending) as (_ & s0 & Es1 & Ht0 & Hh0).
  exists t, s1. split; [exact E|]. split; [exact Hpending|].
  assert (Hex : lastException s1 = VObj o) by (rewrite Es1; reflexivity).
  assert (Htm : timers s1 = (timers s ++ [report_timer (VObj o) t])%list).
  { rewrite Es1. cbn. now rewrite Ht0. }
  assert (Hlive : Forall live_target (timers s1)).
  { rewrite Htm. apply Forall_app. split; [exact Htimers | repeat constructor]. }
  assert (Hsome : Exists (fun tm => same_value (VObj o) (timer_ex tm) = true) (timers s1)).
  { rewrite Htm. apply Exists_app. right. constructor. apply same_value_obj_refl. }
  destruct (errorWatchWindowOnError_pending_run env chain' message url lineNo columnNo
              errorObj s1 t Hpending) as [Hflush Hraise].
  destruct (Trace.stack t) as [frames|] eqn:Hstack.
  2: destruct (truthy url && truthy lineNo) eqn:Hpresent.
  - destruct (Hflush (or_introl (ex_intro _ frames eq_refl))) as (t' & c' & _ & _ & _ & Hm & Erun).
    rewrite Erun, processLastException_state. intros ts Hperm. exists t'.
    split; [exact Hm|].
    rewrite run_timers_idle;
      [| reflexivity | reflexivity
       | exact (Permutation_Forall (Permutation_sym Hperm) Hlive)].
    cbn. rewrite Hc, Hh, Hex. split; reflexivity.
  - destruct (Hraise eq_refl eq_refl) as (c' & Erun). rewrite Erun. cbn [snd].
    intros ts Hperm. exists (Trace.set_incomplete false t). split; [reflexivity|].
    rewrite (run_timers_pending env ts _ (VObj o) (Trace.set_incomplete false t));
      [| exact Hex | reflexivity
       | exact (Permutation_Forall (Permutation_sym Hperm) Hlive)
       | exact (Permutation_Exists (Permutation_sym Hperm) Hsome)].
    cbn. rewrite Hc, Hh. split; reflexivity.
  - destruct (Hflush (or_intror eq_refl)) as (t' & c' & _ & _ & _ & Hm & Erun).
    rewrite Erun, processLastException_state. intros ts Hperm. exists t'.
    split; [exact Hm|].
    rewrite run_timers_idle;
      [| reflexivity | reflexivity
       | exact (Permutation_Forall (Permutation_sym Hperm) Hlive)].
    cbn. rewrite Hc, Hh, Hex. split; reflexivity.
Qed.

Lemma report_then_onerror_once_witness :
  exists (t : Trace.t) (s1 : State),
    report Samples.env None Samples.e1 (Samples.with_handlers [Samples.quiet])
    = (Throw (Raised Samples.e1), s1)
    /\ lastExceptionStack s1 = Some t
    /\ forall ts : list Timer,
         Permutation ts
           (timers (snd (errorWatchWindowOnError Samples.env None (PStr "Error: first")
                           (PStr "http://localhost/app.js") (PNum 10) (PNum 3)
                           Samples.e1 s1))) ->
         exists t' : Trace.t,
           Trace.mode t' = Trace.mode t
           /\ calls (run_timers Samples.env ts
                       (snd (errorWatchWindowOnError Samples.env None (PStr "Error: first")
                               (PStr "http://localhost/app.js") (PNum 10) (PNum 3)
                               Samples.e1 s1)))
              = deliveries [Samples.quiet] (Some t') false Samples.e1
           /\ lastExceptionStack
                (run_timers Samples.env ts
                   (snd (errorWatchWindowOnError Samples.env None (PStr "Error: first")
                           (PStr "http://localhost/app.js") (PNum 10) (PNum 3)
                           Samples.e1 s1)))
              = None.
Proof.
  apply (report_then_onerror_once Samples.env None None (Samples.bare 1 "first")
           (PStr "Error: first") (PStr "http://localhost/app.js") (PNum 10) (PNum 3)
           Samples.e1 (Samples.with_handlers [Samples.quiet])).
  - reflexivity.
  - reflexivity.
  - constructor.
Defined.

(** ** The messages of [window.onerror] *)

Section Messages.
Local Open Scope nat_scope.

Lemma ERROR_TYPES_RE_eq :
  ERROR_TYPES_RE = Grp 0 (Seq Bol (Seq uncaught (Seq error_name rest_of_line))).
Proof. reflexivity. Qed.

Lemma rmatch_seq (a b : re) (st : mst) (k : mst -> option mst) :
  rmatch (Seq a b) st k = rmatch a st (fun st' => rmatch b st' k).
Proof. reflexivity. Qed.

Lemma rmatch_alt (a b : re) (st : mst) (k : mst -> option mst) :
  rmatch (Alt a b) st k
  = match rmatch a st k with Some x => Some x | None => rmatch b st k end.
Proof. reflexivity. Qed.

Lemma rmatch_grp (i : nat) (a : re) (st : mst) (k : mst -> option mst) :
  rmatch (Grp i a) st k
  = rmatch a st (fun st' =>
      k (MSt (m_prev st') (m_rest st') (m_pos st')
           ((i, Some (take (m_pos st' - m_pos st) (m_rest st))) :: m_caps st'))).
Proof. reflexivity. Qed.

Lemma rmatch_eps (st : mst) (k : mst -> option mst) : rmatch Eps st k = k st.
Proof. reflexivity. Qed.

(** An optional part: taken when what follows succeeds, left out
    otherwise. *)
Lemma rmatch_optional (a : re) (st : mst) (k : mst -> option mst) :
  rmatch (Rep true 0 (Some 1) a) st k
  = match rmatch a (clear_groups a st)
            (fun st' => if (m_pos st' =? m_pos st)%nat then None else k st') with
    | Some x => Some x
    | None => k st
    end.
Proof.
  cbn [rmatch]. rewrite Nat.add_0_l, Nat.add_comm. reflexivity.
Qed.

Lemma rmatch_optional_at (a : re) (gs : list nat) (prev : option ascii) (s : string)
    (pos : nat) (caps : list (nat * option string)) (k : mst -> option mst) :
  groups_of a = gs ->
  rmatch (Rep true 0 (Some 1) a) (MSt prev s pos caps) k
  = match rmatch a (MSt prev s pos (List.map (fun i => (i, None)) gs ++ caps)%list)
            (fun st' => if (m_pos st' =? pos)%nat then None else k st') with
    | Some x => Some x
    | None => k (MSt prev s pos caps)
    end.
Proof. intros <-. now rewrite rmatch_optional. Qed.

Lemma rmatch_chr (negated ci : bool) (items : list item) (prev : option ascii)
    (s : string) (pos : nat) (caps : list (nat * option string)) (k : mst -> option mst) :
  rmatch (Chr negated ci items) (MSt prev s pos caps) k
  = match s with
    | String c s' =>
        if class_matches negated ci items c then k (MSt (Some c) s' (S pos) caps) else None
    | EmptyString => None
    end.
Proof. reflexivity. Qed.

Lemma class_Uu (c : ascii) :
  class_matches false false [IRange 85 85; IRange 117 117] c
  = Ascii.eqb "U" c || Ascii.eqb "u" c.
Proof.
  rewrite <- (literal_matches "U" c), <- (literal_matches "u" c).
  change (nat_of_ascii "U") with 85. change (nat_of_ascii "u") with 117.
  unfold class_matches. cbn [existsb xorb andb].
  destruct (item_matches (IRange 85 85) c), (item_matches (IRange 117 117) c); reflexivity.
Qed.

Lemma add_sub_pos (pos n : nat) : pos + n - pos = n.
Proof. lia. Qed.

Lemma eqb_add_pos (pos n : nat) : (pos + S n =? pos) = false.
Proof. apply Nat.eqb_neq. lia. Qed.

Ltac run_pattern_with H :=
  repeat first
    [ rewrite rmatch_alt | rewrite rmatch_literally | rewrite rmatch_eps
    | rewrite rmatch_seq | rewrite rmatch_grp | rewrite rmatch_chr | rewrite class_Uu
    | rewrite (rmatch_optional_at _ []) by reflexivity
    | rewrite <- Nat.add_assoc | rewrite add_sub_pos | rewrite eqb_add_pos
    | progress cbn [m_rest m_pos m_prev m_caps]
    | rewrite H
    | progress cbn [prefix_at Ascii.eqb Bool.eqb prev_after String.length Nat.add Nat.sub
                    Nat.eqb take String.substring orb List.map app] ].

Ltac run_pattern := run_pattern_with I.

Lemma error_name_kind (kind rest : string) (prev : option ascii) (pos : nat)
    (caps : list (nat * option string)) (k : mst -> option mst) (x : mst) :
  In kind ["Eval"; "Internal"; "Range"; "Reference"; "Syntax"; "Type"; "URI"; ""] ->
  k (MSt (Some " "%char) rest (pos + String.length (kind +:+ "Error: "))
       ((1, Some (kind +:+ "Error")) :: (1, None) :: caps)) = Some x ->
  rmatch error_name (MSt prev (kind +:+ "Error: " +:+ rest) pos caps) k = Some x.
Proof.
  intros Hkind Hk. unfold error_name. rewrite (rmatch_optional_at _ [1]) by reflexivity.
  cbn [List.map app]. unfold error_kinds.
  cbn in Hkind.
  destruct Hkind as [<-|[<-|[<-|[<-|[<-|[<-|[<-|[<-|[]]]]]]]]];
    cbv [append] in *; cbn [String.length] in Hk; run_pattern; now rewrite Hk.
Qed.

Lemma uncaught_prefix (prefix t : string) (k : mst -> option mst) (x : mst) :
  In prefix [""; "Uncaught "; "uncaught "; "Uncaught exception: "; "uncaught exception: "] ->
  prefix_at "exception: " t = None ->
  prefix_at "Uncaught " t = None ->
  prefix_at "uncaught " t = None ->
  k (MSt (prev_after prefix None) t (String.length prefix) []) = Some x ->
  rmatch uncaught (MSt None (prefix +:+ t) 0 []) k = Some x.
Proof.
  intros Hprefix H1 H2 H3 Hk. unfold uncaught.
  rewrite (rmatch_optional_at _ []) by reflexivity. cbn [List.map app].
  cbn in Hprefix. destruct Hprefix as [<-|[<-|[<-|[<-|[<-|[]]]]]];
    cbv [append]; cbn [String.length prev_after] in Hk.
  - rewrite rmatch_seq, rmatch_chr. destruct t as [|c t']; [exact Hk|].
    rewrite class_Uu.
    change (prefix_at "Uncaught " (String c t'))
      with (if Ascii.eqb "U" c then prefix_at "ncaught " t' else None) in H2.
    change (prefix_at "uncaught " (String c t'))
      with (if Ascii.eqb "u" c then prefix_at "ncaught " t' else None) in H3.
    destruct (Ascii.eqb "U" c); [|destruct (Ascii.eqb "u" c)]; cbn [orb];
      try exact Hk; rewrite rmatch_literally; cbn [m_rest]; rewrite ?H2, ?H3; exact Hk.
  - run_pattern_with H1. now rewrite Hk.
  - run_pattern_with H1. now rewrite Hk.
  - run_pattern. now rewrite Hk.
  - run_pattern. now rewrite Hk.
Qed.

Lemma take_all (s : string) : take (String.length s) s = s.
Proof.
  induction s as [|c s IH]; [reflexivity|]. cbn [String.length]. now rewrite take_S, IH.
Qed.

Lemma dot_class (c : ascii) :
  class_matches true false [IRange 10 10; IRange 13 13] c = negb (is_line_terminator c).
Proof.
  unfold class_matches, is_line_terminator. cbn [existsb item_matches xorb andb].
  destruct (Nat.eqb_spec (nat_of_ascii c) 10) as [->|H10]; [reflexivity|].
  destruct (Nat.eqb_spec (nat_of_ascii c) 13) as [->|H13]; [reflexivity|].
  cbn [orb negb].
  destruct (Nat.leb_spec 10 (nat_of_ascii c)), (Nat.leb_spec (nat_of_ascii c) 10),
    (Nat.leb_spec 13 (nat_of_ascii c)), (Nat.leb_spec (nat_of_ascii c) 13);
    cbn; try reflexivity; lia.
Qed.

(** [.*] runs to the end of a text without line terminators. *)
Lemma rmatch_dot_star (k : mst -> option mst) (x : mst)
    (caps : list (nat * option string)) (s : string) :
  forall (prev : option ascii) (pos : nat),
    one_line s = true ->
    k (MSt (prev_after s prev) "" (pos + String.length s) caps) = Some x ->
    rmatch (Rep true 0 None (Chr true false [IRange 10 10; IRange 13 13]))
      (MSt prev s pos caps) k = Some x.
Proof.
  intros prev pos Hs Hk. cbn [rmatch m_rest].
  match goal with |- ?f _ _ _ = _ => set (loop := f) end.
  assert (H : forall fuel cnt s prev pos,
             String.length s < fuel ->
             one_line s = true ->
             k (MSt (prev_after s prev) "" (pos + String.length s) caps) = Some x ->
             loop fuel cnt (MSt prev s pos caps) = Some x).
  { clear. induction fuel as [|fuel IH]; intros cnt s prev pos Hfuel Hs Hk; [lia|].
    destruct s as [|c s].
    - cbn in Hk. rewrite Nat.add_0_r in Hk. cbn. now rewrite Hk.
    - unfold one_line in Hs. cbn [all_chars] in Hs. apply andb_prop in Hs as [Hc Hs].
      assert (Hdot : class_matches true false [IRange 10 10; IRange 13 13] c = true).
      { now rewrite dot_class. }
      unfold loop. fold loop. cbn [Nat.ltb Nat.leb at_max clear_groups groups_of List.map app
                                    m_rest m_prev m_pos m_caps andb].
      rewrite Hdot.
      destruct (Nat.eqb_spec (S pos) pos) as [E|_]; [lia|].
      rewrite (IH (S cnt) s (Some c) (S pos)); [reflexivity | cbn in Hfuel; lia | exact Hs |].
      now replace (S pos + String.length s) with (pos + String.length (String c s))
        by (cbn; lia). }
  apply H; [lia | exact Hs | exact Hk].
Qed.

Lemma rest_of_line_all (k : mst -> option mst) (x : mst)
    (caps : list (nat * option string)) (s : string) (prev : option ascii) (pos : nat) :
  one_line s = true ->
  k (MSt (prev_after s prev) "" (pos + String.length s) ((2, Some s) :: caps)) = Some x ->
  rmatch rest_of_line (MSt prev s pos caps) k = Some x.
Proof.
  intros Hs Hk. unfold rest_of_line. rewrite rmatch_seq, rmatch_grp, rmatch_seq.
  apply rmatch_dot_star; [exact Hs|].
  rewrite rmatch_eps. cbn [m_prev m_rest m_pos m_caps rmatch].
  now rewrite add_sub_pos, take_all.
Qed.

Lemma search_here (r : re) (prev : option ascii) (s : string) (pos : nat) (st : mst) :
  rmatch r (MSt prev s pos []) Some = Some st -> search r prev s pos = Some (pos, st).
Proof. intros H. destruct s; cbn [search]; now rewrite H. Qed.

(** X20. The messages that browsers hand to [window.onerror]: an
    optional [Uncaught] or [uncaught], with or without [exception:],
    then the name of one of the standard error types and a colon.  On a
    message of that form that holds no line terminator, the expression
    matches from the start, group 1 is the name of the error type and
    group 2 the text after the colon. *)
Theorem ERROR_TYPES_RE_splits (prefix kind rest : string)
    (Hprefix : In prefix [""; "Uncaught "; "uncaught ";
                          "Uncaught exception: "; "uncaught exception: "])
    (Hkind : In kind ["Eval"; "Internal"; "Range"; "Reference"; "Syntax"; "Type"; "URI"; ""])
    (Hrest : one_line rest = true) :
  exists groups : result,
    exec ERROR_TYPES_RE (prefix +:+ kind +:+ "Error: " +:+ rest) = Some groups
    /\ index groups = 0
    /\ group groups 1 = PStr (kind +:+ "Error")
    /\ group groups 2 = PStr rest.
Proof.
  eexists. split.
  - unfold exec. erewrite search_here; [reflexivity|].
    rewrite ERROR_TYPES_RE_eq, rmatch_grp, rmatch_seq. cbn [rmatch m_pos Nat.eqb].
    assert (Hplain : prefix_at "exception: " (kind +:+ "Error: " +:+ rest) = None
                     /\ prefix_at "Uncaught " (kind +:+ "Error: " +:+ rest) = None
                     /\ prefix_at "uncaught " (kind +:+ "Error: " +:+ rest) = None).
    { cbn in Hkind. destruct Hkind as [<-|[<-|[<-|[<-|[<-|[<-|[<-|[<-|[]]]]]]]]];
        repeat split. }
    destruct Hplain as (H1 & H2 & H3).
    apply uncaught_prefix; [exact Hprefix | exact H1 | exact H2 | exact H3 |].
    apply error_name_kind; [exact Hkind|].
    apply rest_of_line_all; [exact Hrest|].
    reflexivity.
  - cbn [index group captures m_caps lookup_cap Nat.eqb]. repeat split.
Qed.

Lemma ERROR_TYPES_RE_splits_witness :
  exists groups : result,
    exec ERROR_TYPES_RE ("Uncaught " +:+ "Type" +:+ "Error: " +:+ "x is null") = Some groups
    /\ index groups = 0
    /\ group groups 1 = PStr ("Type" +:+ "Error")
    /\ group groups 2 = PStr "x is null".
Proof.
  apply (ERROR_TYPES_RE_splits "Uncaught " "Type" "x is null").
  - right. left. reflexivity.
  - do 5 right. left. reflexivity.
  - reflexivity.
Defined.

Lemma is_line_terminator_cases (c : ascii) :
  is_line_terminator c = true -> c = ascii_of_nat 10 \/ c = ascii_of_nat 13.
Proof.
  unfold is_line_terminator. intros H.
  apply orb_prop in H as [H|H]; apply Nat.eqb_eq in H;
    rewrite <- (ascii_nat_embedding c), H; auto.
Qed.

Lemma within_line_class (negated ci : bool) (items : list item) (c : ascii) :
  within_line (Chr negated ci items) = true ->
  class_matches negated ci items c = true ->
  is_line_terminator c = false.
Proof.
  cbn [within_line]. intros H Hc. apply andb_prop in H as [H10 H13].
  destruct (is_line_terminator c) eqn:E; [|reflexivity].
  apply is_line_terminator_cases in E as [->| ->].
  - rewrite Hc in H10. discriminate H10.
  - rewrite Hc in H13. discriminate H13.
Qed.

(** What stays within a line cannot get past a line terminator. *)
Lemma within_line_stays (r : re) :
  within_line r = true ->
  forall (st : mst) (k : mst -> option mst),
    one_line (m_rest st) = false ->
    (forall st', one_line (m_rest st') = false -> k st' = None) ->
    rmatch r st k = None.
Proof.
  induction r as [|negated ci items|a IHa b IHb|a IHa b IHb|g mn mx a IHa|i a IHa| | |p];
    intros Hr st k Hst Hk.
  - now apply Hk.
  - cbn [rmatch]. destruct (m_rest st) as [|c s'] eqn:Es; [reflexivity|].
    destruct (class_matches negated ci items c) eqn:Hc; [|reflexivity].
    apply Hk. cbn [m_rest]. unfold one_line in *. cbn [all_chars] in Hst.
    now rewrite (within_line_class _ _ _ _ Hr Hc) in Hst.
  - cbn [within_line] in Hr. apply andb_prop in Hr as [Ha Hb].
    rewrite rmatch_seq. apply IHa; [exact Ha | exact Hst|].
    intros st' Hst'. now apply IHb.
  - cbn [within_line] in Hr. apply andb_prop in Hr as [Ha Hb].
    rewrite rmatch_alt, IHa, IHb by assumption. reflexivity.
  - cbn [within_line] in Hr. cbn [rmatch].
    match goal with |- ?f _ _ _ = _ => set (loop := f) end.
    generalize (mn + String.length (m_rest st) + 2) as fuel. generalize 0 as cnt.
    intros cnt fuel. revert cnt st Hst.
    induction fuel as [|fuel IH]; intros cnt st Hst; [reflexivity|].
    unfold loop; fold loop. cbv zeta.
    assert (Hiter : (if at_max cnt mx then None
                     else rmatch a (clear_groups a st)
                            (fun st' => if (mn <=? cnt) && (m_pos st' =? m_pos st)
                                        then None else loop fuel (S cnt) st')) = None).
    { destruct (at_max cnt mx); [reflexivity|].
      apply IHa; [exact Hr | exact Hst|].
      intros st' Hst'. destruct (_ && _); [reflexivity|]. now apply IH. }
    rewrite Hiter. rewrite (Hk st Hst).
    destruct (cnt <? mn); [reflexivity|]. destruct g; reflexivity.
  - cbn [within_line] in Hr. rewrite rmatch_grp. apply IHa; [exact Hr | exact Hst|].
    intros st' Hst'. now apply Hk.
  - cbn [rmatch]. destruct (m_pos st =? 0); [now apply Hk | reflexivity].
  - cbn [rmatch]. destruct (m_rest st); [now apply Hk | reflexivity].
  - cbn [rmatch]. destruct (Bool.eqb _ p); [now apply Hk | reflexivity].
Qed.

Lemma needs_end_fails (r : re) :
  needs_end r = true ->
  forall (st : mst) (k : mst -> option mst),
    one_line (m_rest st) = false -> rmatch r st k = None.
Proof.
  induction r as [|negated ci items|a IHa b IHb|a IHa b IHb|g mn mx a IHa|i a IHa| | |p];
    intros Hr st k Hst; try discriminate Hr.
  - cbn [needs_end] in Hr. rewrite rmatch_seq.
    apply orb_prop in Hr as [Hr|Hr].
    + apply andb_prop in Hr as [Ha Hb]. apply within_line_stays; [exact Ha | exact Hst|].
      intros st' Hst'. now apply IHb.
    + now apply IHa.
  - rewrite rmatch_grp. now apply IHa.
  - cbn [rmatch]. destruct (m_rest st); [discriminate Hst | reflexivity].
Qed.

Lemma search_anchored (s : string) :
  forall (prev : option ascii) (pos : nat),
    pos <> 0 -> search ERROR_TYPES_RE prev s pos = None.
Proof.
  assert (H : forall prev s pos, pos <> 0 ->
                rmatch ERROR_TYPES_RE (MSt prev s pos []) Some = None).
  { intros prev s' pos Hpos. rewrite ERROR_TYPES_RE_eq, rmatch_grp, rmatch_seq.
    cbn [rmatch m_pos]. destruct pos; [contradiction | reflexivity]. }
  induction s as [|c s IH]; intros prev pos Hpos; cbn [search]; rewrite H by exact Hpos.
  - reflexivity.
  - apply IH. lia.
Qed.

Lemma rmatch_optional_some (a : re) (st : mst) (k : mst -> option mst) :
  is_Some (k st) -> is_Some (rmatch (Rep true 0 (Some 1) a) st k).
Proof.
  intros H. rewrite rmatch_optional. destruct (rmatch a _ _); [eauto | exact H].
Qed.

(** X21. A message that holds a line feed or a carriage return is not
    matched by [ERROR_TYPES_RE], whatever it starts with: the pattern is
    anchored at both ends and its last group, [.*], does not cross a line
    terminator.  Such a message is not split into a name and a text. *)
Theorem ERROR_TYPES_RE_one_line (message : string) :
  one_line message = false -> exec ERROR_TYPES_RE message = None.
Proof.
  intros Hlines. unfold exec.
  assert (H : rmatch ERROR_TYPES_RE (MSt None message 0 []) Some = None).
  { apply needs_end_fails; [reflexivity | exact Hlines]. }
  destruct message as [|c s]; cbn [search]; rewrite H; [reflexivity|].
  now rewrite search_anchored.
Qed.

Lemma ERROR_TYPES_RE_one_line_witness :
  exec ERROR_TYPES_RE ("Uncaught TypeError: x is not a function" +:+ nl +:+ "    at f")
  = None.
Proof. apply ERROR_TYPES_RE_one_line. reflexivity. Defined.

End Messages.

Lemma unsubscribe_loop_spec (handler : Handler) (n : nat) :
  forall hs : list Handler,
    (n <= List.length hs)%nat ->
    unsubscribe_loop handler n hs
    = (List.filter (fun h => negb (h_id h =? h_id handler)%nat) (firstn n hs)
         ++ skipn n hs)%list.
Proof.
  induction n as [|i IH]; intros hs Hn.
  - cbn. now rewrite drop_0.
  - cbn [unsubscribe_loop].
    destruct (lookup_lt_is_Some_2 hs i ltac:(lia)) as [h Hh]. rewrite Hh.
    rewrite (take_S_r _ _ _ Hh), List.filter_app. cbn [List.filter].
    destruct (h_id h =? h_id handler)%nat eqn:E; cbn [negb].
    + rewrite IH by (rewrite length_delete by eauto; lia).
      rewrite app_nil_r, delete_take_drop.
      assert (Hlen : List.length (firstn i hs) = i) by (rewrite length_take; lia).
      rewrite take_app_length', drop_app_length' by (symmetry; exact Hlen).
      reflexivity.
    + rewrite IH by lia. rewrite <- app_assoc. cbn [app].
      now rewrite (drop_S _ _ _ Hh).
Qed.

(** X22. [unsubscribe] takes out every registration of the handler (a
    handler that subscribed twice is removed twice) and nothing else:
    the loop over the indices leaves the list without the handler, and
    the other subscribers keep their registrations and their order. *)
Theorem unsubscribe_removes_every_registration (handler : Handler) (s : State) :
  handlers (snd (unsubscribe handler s))
  = unsubscribe_loop handler (List.length (handlers s)) (handlers s)
  /\ Forall (fun h => h_id h <> h_id handler) (handlers (snd (unsubscribe handler s)))
  /\ (forall other : Handler,
        h_id other <> h_id handler ->
        List.filter (fun h => (h_id h =? h_id other)%nat) (handlers (snd (unsubscribe handler s)))
        = List.filter (fun h => (h_id h =? h_id other)%nat) (handlers s))
  /\ sublist (handlers (snd (unsubscribe handler s))) (handlers s).
Proof.
  assert (E : handlers (snd (unsubscribe handler s))
              = List.filter (fun h => negb (h_id h =? h_id handler)%nat) (handlers s))
    by reflexivity.
  split; [|rewrite E; clear E; split; [|split]].
  - rewrite E, unsubscribe_loop_spec by lia.
    now rewrite firstn_all, drop_all, app_nil_r.
  - apply List.Forall_forall. intros h Hin. apply filter_In in Hin as [_ Hne].
    apply negb_true_iff, Nat.eqb_neq in Hne. exact Hne.
  - intros other Hother. induction (handlers s) as [|h hs IH]; [reflexivity|].
    cbn [List.filter]. destruct (h_id h =? h_id handler)%nat eqn:E1; cbn [negb List.filter].
    + apply Nat.eqb_eq in E1.
      destruct (Nat.eqb_spec (h_id h) (h_id other)) as [E2|_]; [congruence | exact IH].
    + destruct (h_id h =? h_id other)%nat; [now rewrite IH | exact IH].
  - induction (handlers s) as [|h hs IH]; [constructor|].
    cbn [List.filter]. destruct (negb _); now constructor.
Qed.

(** ** The hooks over time *)

Arguments ResourceError.installResourceLoadError : simpl never.
Arguments ResourceError.uninstallResourceLoadError : simpl never.

Section HooksOverTime.
Context (env : Env) (w : Window).
Hypothesis window_declared : window env = Some w.

Import Hooks.

Lemma installResourceLoadError_returns (handler : ResourceError.function)
    (s : ResourceError.State) :
  exists s', ResourceError.installResourceLoadError env handler s = (Ret tt, s').
Proof.
  unfold ResourceError.installResourceLoadError, bind, get, put, ret.
  rewrite window_declared.
  destruct (negb (ResourceError.isRegisterListener s)
            && Config.collectSourceErrors (config env));
    [destruct (ResourceError.has_addEventListener s)|]; eexists; reflexivity.
Qed.

Lemma uninstallResourceLoadError_returns (s : ResourceError.State) :
  exists s', ResourceError.uninstallResourceLoadError env s = (Ret tt, s').
Proof.
  unfold ResourceError.uninstallResourceLoadError, bind, get, put, ret.
  rewrite window_declared.
  destruct (ResourceError._handler s);
    [destruct (ResourceError.isRegisterListener s && Config.collectSourceErrors (config env));
     [destruct (ResourceError.has_removeEventListener s)|]|]; eexists; reflexivity.
Qed.

Ltac run_hooks :=
  unfold subscribe, unsubscribe, installGlobalHandler, uninstallGlobalHandler,
    installGlobalUnhandledRejectionHandler, uninstallGlobalUnhandledRejectionHandler,
    with_window, on_resource, on_report, Report.subscribe, Report.unsubscribe,
    get_globals, put_globals, bind, get, put, ret;
  rewrite ?window_declared; cbn.

Lemma subscribe_hooked (onerror onrej : hook) (handler : Handler) (p : Page) :
  hooked onerror onrej p ->
  exists p', subscribe env handler p = (Ret tt, p')
             /\ hooked onerror onrej p'
             /\ Report.handlers (report p') = (Report.handlers (report p) ++ [handler])%list.
Proof.
  unfold hooked. destruct p as [r [won wrej oldon flag1 oldrej flag2 ev] res]. cbn.
  destruct (installResourceLoadError_returns (ResourceError.HandleResourceError ev) res)
    as [res' Er].
  destruct (Report.handlers r) as [|h0 hs] eqn:Hhs.
  - intros (H1 & H2 & <- & <-).
    destruct flag1 as [[]|]; try contradiction;
      destruct flag2 as [[]|]; try contradiction;
      run_hooks; rewrite Er; cbn; eexists; (split; [reflexivity|]); cbn; rewrite ?Hhs; cbn;
      repeat split.
  - intros (-> & -> & -> & -> & <- & <-).
    run_hooks. eexists. split; [reflexivity|]. cbn. rewrite ?Hhs. cbn. repeat split.
Qed.

Lemma unsubscribe_hooked (onerror onrej : hook) (handler : Handler) (p : Page) :
  hooked onerror onrej p ->
  exists p', unsubscribe env handler p = (Ret tt, p')
             /\ hooked onerror onrej p'
             /\ Report.handlers (report p')
                = List.filter (fun h => negb (h_id h =? h_id handler)%nat)
                    (Report.handlers (report p)).
Proof.
  unfold hooked. destruct p as [r [won wrej oldon flag1 oldrej flag2 ev] res].
  cbn [report globals].
  destruct (uninstallResourceLoadError_returns res) as [res' Er].
  set (kept := List.filter (fun h => negb (h_id h =? h_id handler)%nat) (Report.handlers r)).
  assert (Hfirst : on_report (Report.unsubscribe handler)
                     {| report := r;
                        globals := Build_Globals won wrej oldon flag1 oldrej flag2 ev;
                        resource := res |}
                   = (Ret tt,
                      {| report := set_handlers kept r;
                         globals := Build_Globals won wrej oldon flag1 oldrej flag2 ev;
                         resource := res |})) by reflexivity.
  unfold unsubscribe. unfold bind at 1. rewrite Hfirst. unfold bind at 1, get.
  cbn [report set_handlers Report.handlers].
  intros Hp. cbn in Hp.
  destruct kept as [|h1 hs'] eqn:Hkept; cbn [length Nat.eqb].
  - destruct (Report.handlers r) as [|h0 hs] eqn:Hhs.
    + destruct Hp as (H1 & H2 & <- & <-).
      destruct flag1 as [[]|]; try contradiction;
        destruct flag2 as [[]|]; try contradiction;
        run_hooks; eexists; (split; [reflexivity|]); cbn; repeat split; assumption.
    + destruct Hp as (-> & -> & -> & -> & <- & <-).
      run_hooks. rewrite Er. cbn. eexists. split; [reflexivity|]. cbn.
      repeat split; discriminate.
  - destruct (Report.handlers r) as [|h0 hs] eqn:Hhs; [discriminate Hkept|].
    destruct Hp as (-> & -> & -> & -> & <- & <-).
    eexists. split; [reflexivity|]. cbn. repeat split.
Qed.

Lemma serve_all_hooked (onerror onrej : hook) (rs : list request) :
  forall p, hooked onerror onrej p ->
    exists p', serve_all env rs p = (Ret tt, p') /\ hooked onerror onrej p'.
Proof.
  induction rs as [|r rs IH]; intros p Hp; [now exists p|].
  cbn [serve_all]. unfold bind.
  assert (Hstep : exists p1, serve env r p = (Ret tt, p1) /\ hooked onerror onrej p1).
  { destruct r as [h|h]; cbn [serve].
    - destruct (subscribe_hooked onerror onrej h p Hp) as (p1 & E & H1 & _). eauto.
    - destruct (unsubscribe_hooked onerror onrej h p Hp) as (p1 & E & H1 & _). eauto. }
  destruct Hstep as (p1 & E & H1). rewrite E. now apply IH.
Qed.

End HooksOverTime.

(** X23. Whatever the page subscribes and unsubscribes, in any order,
    where [window] is declared: no call raises; while somebody is
    subscribed the two hooks on [window] are those of the module, which
    holds what the page had there; once nobody is subscribed, [window]
    has again what the page had there. *)
Theorem hooks_follow_subscribers (env : Env) (onerror onunhandledrejection : Hooks.hook)
    (resource : ResourceError.State) (requests : list Hooks.request)
    (Hwindow : window env <> None) :
  exists p : Hooks.Page,
    Hooks.serve_all env requests
      (Hooks.initial_page onerror onunhandledrejection resource) = (Ret tt, p)
    /\ match Report.handlers (Hooks.report p) with
       | [] =>
           Hooks.window_onerror (Hooks.globals p) = onerror
           /\ Hooks.window_onunhandledrejection (Hooks.globals p) = onunhandledrejection
       | _ :: _ =>
           Hooks.window_onerror (Hooks.globals p) = Hooks.HErrorWatch
           /\ Hooks.window_onunhandledrejection (Hooks.globals p) = Hooks.HErrorWatch
           /\ Hooks._oldOnerrorHandler (Hooks.globals p) = onerror
           /\ Hooks._oldOnunhandledrejectionHandler (Hooks.globals p) = onunhandledrejection
       end.
Proof.
  destruct (window env) as [w|] eqn:Hw; [|contradiction].
  destruct (serve_all_hooked env w Hw onerror onunhandledrejection requests
              (Hooks.initial_page onerror onunhandledrejection resource)) as (p & E & Hp).
  { cbn. repeat split; discriminate. }
  exists p. split; [exact E|]. unfold Hooks.hooked in Hp.
  destruct (handlers (Hooks.report p)); tauto.
Qed.

Lemma hooks_follow_subscribers_witness :
  exists p : Hooks.Page,
    Hooks.serve_all Samples.env
      [Hooks.Subscribe Samples.quiet; Hooks.Subscribe Samples.thrower;
       Hooks.Unsubscribe Samples.quiet]
      (Hooks.initial_page (Hooks.HPage 1) Hooks.HUndefined
         (ResourceError.initial_state true true [])) = (Ret tt, p)
    /\ match Report.handlers (Hooks.report p) with
       | [] =>
           Hooks.window_onerror (Hooks.globals p) = Hooks.HPage 1
           /\ Hooks.window_onunhandledrejection (Hooks.globals p) = Hooks.HUndefined
       | _ :: _ =>
           Hooks.window_onerror (Hooks.globals p) = Hooks.HErrorWatch
           /\ Hooks.window_onunhandledrejection (Hooks.globals p) = Hooks.HErrorWatch
           /\ Hooks._oldOnerrorHandler (Hooks.globals p) = Hooks.HPage 1
           /\ Hooks._oldOnunhandledrejectionHandler (Hooks.globals p) = Hooks.HUndefined
       end.
Proof.
  apply (hooks_follow_subscribers Samples.env (Hooks.HPage 1) Hooks.HUndefined
           (ResourceError.initial_state true true [])
           [Hooks.Subscribe Samples.quiet; Hooks.Subscribe Samples.thrower;
            Hooks.Unsubscribe Samples.quiet]).
  discriminate.
Defined.

(** ** The listener for resources that fail to load *)

Arguments Hooks.made : simpl never.

Section Leak.
Context (env : Env) (w : Window).
Hypothesis window_declared : window env = Some w.
Hypothesis collectSourceErrors_on : Config.collectSourceErrors (config env) = true.

Import Hooks.

Lemma made_fresh (k : nat) :
  existsb (ResourceError.listener_eqb
             {| ResourceError.l_callback :=
                  ResourceError.ErrorListener k (ResourceError.HandleResourceError k);
                ResourceError.l_capture := true |}) (made k) = false.
Proof.
  unfold made. apply not_true_is_false. intros H.
  apply existsb_exists in H as (l & Hin & Heq).
  apply in_map_iff in Hin as (i & <- & Hi). apply in_seq in Hi.
  unfold ResourceError.listener_eqb, ResourceError.callback_eqb in Heq. cbn in Heq.
  apply andb_prop in Heq as [Heq _]. apply andb_prop in Heq as [Heq _].
  apply Nat.eqb_eq in Heq. lia.
Qed.

Lemma made_S (k : nat) :
  made (S k)
  = (made k ++ [ {| ResourceError.l_callback :=
                      ResourceError.ErrorListener k (ResourceError.HandleResourceError k);
                    ResourceError.l_capture := true |} ])%list.
Proof. unfold made. now rewrite seq_S, map_app. Qed.

Lemma made_not_removed (handler : ResourceError.function) (k : nat) :
  List.filter
    (fun l' => negb (ResourceError.listener_eqb
                       {| ResourceError.l_callback := ResourceError.Fn handler;
                          ResourceError.l_capture := false |} l'))
    (made k) = made k.
Proof.
  unfold made. induction (seq 0 k) as [|i l IH]; [reflexivity|].
  cbn. now rewrite IH.
Qed.

Ltac run_hooks :=
  unfold subscribe, unsubscribe, installGlobalHandler, uninstallGlobalHandler,
    installGlobalUnhandledRejectionHandler, uninstallGlobalUnhandledRejectionHandler,
    with_window, on_resource, on_report, Report.subscribe, Report.unsubscribe,
    get_globals, put_globals, bind, get, put, ret;
  rewrite ?window_declared; cbn.

Lemma install_made (remove : bool) (k : nat) :
  ResourceError.installResourceLoadError env (ResourceError.HandleResourceError k)
    {| ResourceError.isRegisterListener := false;
       ResourceError._handler := None;
       ResourceError.has_addEventListener := true;
       ResourceError.has_removeEventListener := remove;
       ResourceError.error_listeners := made k;
       ResourceError.created := k |}
  = (Ret tt,
     {| ResourceError.isRegisterListener := true;
        ResourceError._handler := Some (ResourceError.HandleResourceError k);
        ResourceError.has_addEventListener := true;
        ResourceError.has_removeEventListener := remove;
        ResourceError.error_listeners := made (S k);
        ResourceError.created := S k |}).
Proof.
  unfold ResourceError.installResourceLoadError, ResourceError.new_listener,
    ResourceError.addEventListener, bind, get, put, ret.
  rewrite window_declared, collectSourceErrors_on. cbn.
  now rewrite made_fresh, made_S.
Qed.

Lemma uninstall_made (remove : bool) (k : nat) (handler : ResourceError.function) :
  ResourceError.uninstallResourceLoadError env
    {| ResourceError.isRegisterListener := true;
       ResourceError._handler := Some handler;
       ResourceError.has_addEventListener := true;
       ResourceError.has_removeEventListener := remove;
       ResourceError.error_listeners := made k;
       ResourceError.created := k |}
  = (Ret tt,
     {| ResourceError.isRegisterListener := false;
        ResourceError._handler := None;
        ResourceError.has_addEventListener := true;
        ResourceError.has_removeEventListener := remove;
        ResourceError.error_listeners := made k;
        ResourceError.created := k |}).
Proof.
  unfold ResourceError.uninstallResourceLoadError, ResourceError.removeEventListener,
    bind, get, put, ret.
  rewrite window_declared, collectSourceErrors_on. cbn.
  destruct remove; cbn; [now rewrite made_not_removed | reflexivity].
Qed.

(** Subscribing from the idle state makes one more listener. *)
Lemma subscribe_idle (remove : bool) (k : nat) (handler : Handler) (p : Page) :
  idle remove k p ->
  exists g',
    subscribe env handler p
    = (Ret tt,
       {| report := set_handlers [handler] (report p);
          globals := g';
          resource :=
            {| ResourceError.isRegisterListener := true;
               ResourceError._handler := Some (ResourceError.HandleResourceError k);
               ResourceError.has_addEventListener := true;
               ResourceError.has_removeEventListener := remove;
               ResourceError.error_listeners := made (S k);
               ResourceError.created := S k |} |})
    /\ _onErrorHandlerInstalled g' = Some true
    /\ _onUnhandledRejectionHandlerInstalled g' = Some true
    /\ evaluated g' = S k.
Proof.
  destruct p as [r [won wrej oldon flag1 oldrej flag2 ev] res]. unfold idle. cbn.
  intros (Hhs & H1 & H2 & -> & ->).
  pose proof (install_made remove k) as Ei.
  destruct flag1 as [[]|]; try contradiction;
    destruct flag2 as [[]|]; try contradiction;
    run_hooks; rewrite Ei; cbn; rewrite Hhs; eexists; repeat split.
Qed.

Lemma cycle_idle (remove : bool) (k : nat) (handler : Handler) (p : Page) :
  idle remove k p ->
  exists p',
    serve_all env [Subscribe handler; Unsubscribe handler] p = (Ret tt, p')
    /\ idle remove (S k) p'
    /\ report p' = report p.
Proof.
  intros Hp. destruct (subscribe_idle remove k handler p Hp) as (g' & E & F1 & F2 & Hev).
  cbn [serve_all serve]. unfold bind at 1. rewrite E. unfold bind at 1.
  pose proof (uninstall_made remove (S k) (ResourceError.HandleResourceError k)) as Eu.
  destruct g' as [won wrej oldon flag1 oldrej flag2 ev]. cbn in F1, F2, Hev. subst.
  destruct Hp as (Hhs & _).
  run_hooks. rewrite Nat.eqb_refl. cbn. rewrite Eu. cbn.
  eexists. split; [reflexivity|]. split.
  - unfold idle. cbn. repeat split; discriminate.
  - cbn. destruct p as [[sc hs le les tm cl] g res]. cbn in *. now subst hs.
Qed.

Lemma cycles_idle (remove : bool) (handler : Handler) (n : nat) :
  forall (k : nat) (p : Page),
    idle remove k p ->
    exists p',
      serve_all env (concat (repeat [Subscribe handler; Unsubscribe handler] n)) p
      = (Ret tt, p')
      /\ idle remove (n + k) p'
      /\ report p' = report p.
Proof.
  induction n as [|n IH]; intros k p Hp; [now exists p|].
  destruct (cycle_idle remove k handler p Hp) as (p1 & E1 & H1 & R1).
  destruct (IH (S k) p1 H1) as (p2 & E2 & H2 & R2).
  exists p2. cbn [repeat concat]. cbn [app serve_all].
  cbn [serve_all] in E1. unfold bind in E1 |- *.
  destruct (serve env (Subscribe handler) p) as [[[]|e] q]; [|discriminate E1].
  destruct (serve env (Unsubscribe handler) q) as [[[]|e] q']; [|discriminate E1].
  injection E1 as ->. split; [exact E2|]. split.
  - now replace (S n + k)%nat with (n + S k)%nat by lia.
  - congruence.
Qed.

Lemma serve_all_app (rs1 rs2 : list request) (p : Page) :
  serve_all env (rs1 ++ rs2) p = bind (serve_all env rs1) (fun _ => serve_all env rs2) p.
Proof.
  revert p. induction rs1 as [|r rs1 IH]; intros p; [reflexivity|].
  cbn [app serve_all]. unfold bind.
  destruct (serve env r p) as [[[]|e] p1]; [|reflexivity].
  rewrite IH. reflexivity.
Qed.

Hypothesis collectWindowErrors_on : Config.collectWindowErrors (config env) = true.

(** Every listener that was made hands the event to the subscribers. *)
Lemma run_listeners_made (e : ResourceError.Event) (indices : list nat) :
  ResourceError.target_is_window e = false ->
  forall p,
    report
      (run_listeners env
         (List.map (fun i => {| ResourceError.l_callback :=
                                  ResourceError.ErrorListener i
                                    (ResourceError.HandleResourceError i);
                                ResourceError.l_capture := true |}) indices) e p)
    = add_calls
        (concat (repeat (deliveries (Report.handlers (report p))
                           (Some (ResourceError.resource_stack e)) true
                           (ResourceError.ev_object e)) (length indices)))
        (report p).
Proof.
  intros Htarget. induction indices as [|i indices IH]; intros p.
  - cbn. now rewrite add_calls_nil.
  - cbn [List.map run_listeners length repeat concat]. rewrite IH.
    assert (Hstep : report (snd (run_listener env
                      {| ResourceError.l_callback :=
                           ResourceError.ErrorListener i (ResourceError.HandleResourceError i);
                         ResourceError.l_capture := true |} e p))
                    = add_calls (deliveries (Report.handlers (report p))
                                   (Some (ResourceError.resource_stack e)) true
                                   (ResourceError.ev_object e)) (report p)).
    { unfold run_listener, ResourceError.listener_body, call, try_catch, on_report.
      cbn [ResourceError.l_capture ResourceError.l_callback orb]. rewrite Htarget.
      cbn [negb].
      pose proof (notifyHandlers_eq env (Some (ResourceError.resource_stack e)) true
                    (ResourceError.ev_object e) (report p)) as Hn.
      rewrite collectWindowErrors_on in Hn. specialize (Hn eq_refl).
      rewrite Hn. destruct (last_raised _ _ _ _ _) as [x|]; [destruct (exn_truthy x)|];
        reflexivity. }
    rewrite Hstep. unfold add_calls. cbn. now rewrite <- app_assoc.
Qed.

End Leak.

(** X24. The listener for resources that fail to load is never taken
    off: [uninstallResourceLoadError] hands [removeEventListener] the
    handler, not the listener that was registered, and without the
    capture flag.  After [n] rounds of subscribing and unsubscribing and
    one more subscription, [n + 1] listeners are registered, and one
    resource that fails to load is reported [n + 1] times to the
    subscriber. *)
Theorem resubscribing_repeats_resource_reports (env : Env) (handler : Handler)
    (e : ResourceError.Event) (n : nat) (remove : bool)
    (onerror onunhandledrejection : Hooks.hook)
    (Hwindow : window env <> None)
    (Hsource : Config.collectSourceErrors (config env) = true)
    (Hcollect : Config.collectWindowErrors (config env) = true)
    (Htarget : ResourceError.target_is_window e = false) :
  exists p : Hooks.Page,
    Hooks.serve_all env
      (concat (repeat [Hooks.Subscribe handler; Hooks.Unsubscribe handler] n)
         ++ [Hooks.Subscribe handler])
      (Hooks.initial_page onerror onunhandledrejection
         (ResourceError.initial_state true remove []))
    = (Ret tt, p)
    /\ Report.handlers (Hooks.report p) = [handler]
    /\ length (ResourceError.error_listeners (Hooks.resource p)) = S n
    /\ calls (Hooks.report (Hooks.dispatch_error env e p))
       = concat (repeat (deliveries [handler] (Some (ResourceError.resource_stack e)) true
                           (ResourceError.ev_object e)) (S n)).
Proof.
  destruct (window env) as [w|] eqn:Hw; [|contradiction].
  set (p0 := Hooks.initial_page onerror onunhandledrejection
               (ResourceError.initial_state true remove [])).
  assert (H0 : Hooks.idle remove 0 p0).
  { unfold Hooks.idle, p0. cbn. repeat split; discriminate. }
  destruct (cycles_idle env w Hw Hsource remove handler n 0 p0 H0) as (p1 & E1 & H1 & R1).
  destruct (subscribe_idle env w Hw Hsource remove (n + 0) handler p1 H1)
    as (g' & E2 & _ & _ & _).
  eexists. split.
  { rewrite serve_all_app. unfold bind at 1. rewrite E1. cbn [Hooks.serve_all Hooks.serve].
    unfold bind. rewrite E2. reflexivity. }
  cbn [Hooks.report Hooks.resource ResourceError.error_listeners set_handlers handlers].
  split; [reflexivity|]. split.
  { unfold Hooks.made. rewrite length_map, length_seq. lia. }
  unfold Hooks.dispatch_error. cbn [Hooks.resource ResourceError.error_listeners].
  unfold Hooks.made. rewrite (run_listeners_made env Hcollect e _ Htarget).
  cbn [Hooks.report set_handlers handlers calls add_calls]. rewrite R1.
  rewrite length_seq. replace (S (n + 0)) with (S n) by lia. reflexivity.
Qed.

Lemma resubscribing_repeats_resource_reports_witness :
  exists p : Hooks.Page,
    Hooks.serve_all Samples.env
      (concat (repeat [Hooks.Subscribe Samples.quiet; Hooks.Unsubscribe Samples.quiet] 2)
         ++ [Hooks.Subscribe Samples.quiet])
      (Hooks.initial_page Hooks.HUndefined Hooks.HUndefined
         (ResourceError.initial_state true true []))
    = (Ret tt, p)
    /\ Report.handlers (Hooks.report p) = [Samples.quiet]
    /\ length (ResourceError.error_listeners (Hooks.resource p)) = 3%nat
    /\ calls (Hooks.report (Hooks.dispatch_error Samples.env Samples.broken_image p))
       = concat (repeat (deliveries [Samples.quiet]
                           (Some (ResourceError.resource_stack Samples.broken_image)) true
                           (ResourceError.ev_object Samples.broken_image)) 3).
Proof.
  apply (resubscribing_repeats_resource_reports Samples.env Samples.quiet
           Samples.broken_image 2 true Hooks.HUndefined Hooks.HUndefined).
  - discriminate.
  - reflexivity.
  - reflexivity.
  - reflexivity.
Defined.

(** ** Wrapped functions *)

(** A wrapped function returns exactly when the function returns, with
    the same value and without touching the module; when the function
    raises, the wrapped function raises too. *)
Lemma wrap_transparent {A} (env : Env) (engine_error : string -> string -> Err.t)
    (chain : option (list Fn)) (func : M State A) (s : State) :
  (forall a s1, func s = (Ret a, s1) ->
                Wrap.wrap env engine_error chain func s = (Ret a, s1))
  /\ (forall e s1, func s = (Throw e, s1) ->
                   exists e' s2, Wrap.wrap env engine_error chain func s = (Throw e', s2)).
Proof.
  split.
  - intros a s1 E. unfold Wrap.wrap, try_catch. now rewrite E.
  - intros e s1 E. unfold Wrap.wrap, try_catch. rewrite E. unfold bind.
    destruct (report env chain (Wrap.caught engine_error e) s1) as [[[]|e'] s2];
      eexists _, _; reflexivity.
Qed.

(** X25. A wrapped function that raises an error object while no
    report is pending: the object is reported and raised again.
    Wrapping the wrapped function once more changes nothing, the outer
    [report] recognising the object that is pending, so that after the
    timers every subscriber has been called once. *)
Theorem wrap_reports_once {A} (env : Env) (engine_error : string -> string -> Err.t)
    (chain1 chain2 : option (list Fn)) (func : M State A) (o : Err.t) (s s1 : State)
    (Hdebug : Config.debug (config env) = false)
    (Hfunc : func s = (Throw (Raised (VObj o)), s1))
    (Hidle : lastExceptionStack s1 = None)
    (Htimers : Forall live_target (timers s1)) :
  exists (t : Trace.t) (s2 : State),
    Wrap.wrap env engine_error chain1 func s = (Throw (Raised (VObj o)), s2)
    /\ Wrap.wrap env engine_error chain2 (Wrap.wrap env engine_error chain1 func) s
       = (Throw (Raised (VObj o)), s2)
    /\ lastExceptionStack s2 = Some t
    /\ calls s2 = calls s1
    /\ forall ts : list Timer,
         Permutation ts (timers s2) ->
         calls (run_timers env ts s2)
         = (calls s1 ++ deliveries (handlers s1) (Some t) false (VObj o))%list
         /\ lastExceptionStack (run_timers env ts s2) = None.
Proof.
  destruct (report_from_idle env chain1 o s1 Hdebug Hidle) as (t & s2 & E & Hpending & Hc & Hh).
  destruct (report_inv env chain1 (VObj o) s1 s2 _ t E Hpending) as (_ & s0 & -> & Ht0 & Hh0).
  assert (Einner : Wrap.wrap env engine_error chain1 func s
                   = (Throw (Raised (VObj o)),
                      add_timer (report_timer (VObj o) t) (set_last (VObj o) (Some t) s0))).
  { unfold Wrap.wrap, try_catch. rewrite Hfunc. cbn [Wrap.caught]. unfold bind.
    now rewrite E. }
  exists t, (add_timer (report_timer (VObj o) t) (set_last (VObj o) (Some t) s0)).
  split; [exact Einner|]. split.
  { unfold Wrap.wrap at 1, try_catch. rewrite Einner. cbn [Wrap.caught]. unfold bind.
    rewrite (report_same env chain2 (VObj o) _ t); [reflexivity | reflexivity |].
    apply same_value_obj_refl. }
  split; [reflexivity|]. split; [exact Hc|].
  intros ts Hperm.
  assert (Hlive : Forall live_target ts).
  { apply (Permutation_Forall (Permutation_sym Hperm)). cbn. rewrite Ht0.
    apply Forall_app. split; [exact Htimers|]. repeat constructor. }
  assert (Hsome : Exists (fun tm => same_value (VObj o) (timer_ex tm) = true) ts).
  { apply (Permutation_Exists (Permutation_sym Hperm)). cbn.
    apply Exists_app. right. constructor. apply same_value_obj_refl. }
  rewrite (run_timers_pending env ts
             (add_timer (report_timer (VObj o) t) (set_last (VObj o) (Some t) s0))
             (VObj o) t eq_refl eq_refl Hlive Hsome).
  cbn. cbn in Hc. rewrite Hc, Hh0. split; reflexivity.
Qed.

Lemma wrap_reports_once_witness :
  exists (t : Trace.t) (s2 : State),
    Wrap.wrap Samples.env (fun _ => Samples.bare 0) None Samples.failing
      (Samples.with_handlers [Samples.quiet])
    = (Throw (Raised Samples.e1), s2)
    /\ Wrap.wrap Samples.env (fun _ => Samples.bare 0) None
         (Wrap.wrap Samples.env (fun _ => Samples.bare 0) None Samples.failing)
         (Samples.with_handlers [Samples.quiet])
       = (Throw (Raised Samples.e1), s2)
    /\ lastExceptionStack s2 = Some t
    /\ calls s2 = []
    /\ forall ts : list Timer,
         Permutation ts (timers s2) ->
         calls (run_timers Samples.env ts s2)
         = deliveries [Samples.quiet] (Some t) false Samples.e1
         /\ lastExceptionStack (run_timers Samples.env ts s2) = None.
Proof.
  apply (wrap_reports_once Samples.env (fun _ => Samples.bare 0) None None Samples.failing
           (Samples.bare 1 "first")
           (Samples.with_handlers [Samples.quiet]) (Samples.with_handlers [Samples.quiet])).
  - reflexivity.
  - reflexivity.
  - reflexivity.
  - constructor.
Defined.
